(** * Starlite route map: a shallow embedding of [starlite/route_map.py]

    The development models [PythonRouteMap] (registration through
    [add_routes], lookup through [resolve_route] and
    [_traverse_route_map]) as programs of a state-and-exception monad
    over an object store, and proves the routing properties of the
    specification against that model. *)

From Stdlib Require Import Ascii String NArith.
From stdpp Require Import base strings list gmap.

Local Open Scope string_scope.

(** ** Python [str] operations

    A Python [str] is modelled by [string]; each [ascii] stands for one
    code point below 256. *)

Module PyStr.

(** [str.isspace] on one code point below 256: the ASCII table of
    CPython ([\t\n\v\f\r], [\x1c]-[\x1f], space) and the two Latin-1
    white-space code points [\x85] and [\xa0]. *)
Definition is_space (c : ascii) : bool :=
  let n := N_of_ascii c in
  ((9 <=? n) && (n <=? 13) || (28 <=? n) && (n <=? 32)
   || (n =? 133) || (n =? 160))%N.

(** [lstrip] and [rstrip] over a predicate on characters. *)
Fixpoint lstrip_by (P : ascii → bool) (s : string) : string :=
  match s with
  | EmptyString => EmptyString
  | String c s' => if P c then lstrip_by P s' else s
  end.

Fixpoint rstrip_by (P : ascii → bool) (s : string) : string :=
  match s with
  | EmptyString => EmptyString
  | String c s' =>
      match rstrip_by P s' with
      | EmptyString => if P c then EmptyString else String c EmptyString
      | r => String c r
      end
  end.

(** [s.strip()] *)
Definition strip (s : string) : string :=
  lstrip_by is_space (rstrip_by is_space s).

(** [s.rstrip(chars)]: strips every trailing character that occurs in
    [chars]. *)
Fixpoint mem_char (c : ascii) (chars : string) : bool :=
  match chars with
  | EmptyString => false
  | String d chars' => Ascii.eqb c d || mem_char c chars'
  end.

Definition rstrip (s chars : string) : string :=
  rstrip_by (λ c, mem_char c chars) s.

(** [s.endswith(suffix)] *)
Fixpoint endswith (s suffix : string) : bool :=
  String.eqb s suffix ||
  match s with
  | EmptyString => false
  | String _ s' => endswith s' suffix
  end.

(** [s.replace(old, new)]: every non-overlapping occurrence of [old],
    scanning from the left.  [skip] counts the characters of a matched
    occurrence that are still to be dropped.  With an empty [old],
    Python inserts [new] before every character and at the end. *)
Fixpoint replace_go (old new : string) (skip : nat) (s : string) : string :=
  match s with
  | EmptyString => EmptyString
  | String c s' =>
      match skip with
      | S k => replace_go old new k s'
      | O =>
          if String.prefix old s
          then new +:+ replace_go old new (String.length old - 1) s'
          else String c (replace_go old new 0 s')
      end
  end.

Fixpoint intersperse_before (new s : string) : string :=
  match s with
  | EmptyString => new
  | String c s' => new +:+ String c (intersperse_before new s')
  end.

Definition replace (s old new : string) : string :=
  match old with
  | EmptyString => intersperse_before new s
  | _ => replace_go old new 0 s
  end.

(** [s.split(sep)] for a one-character separator: never returns the
    empty list; consecutive separators give empty strings. *)
Fixpoint split (s : string) (sep : ascii) : list string :=
  match s with
  | EmptyString => [EmptyString]
  | String c s' =>
      if Ascii.eqb c sep then EmptyString :: split s' sep
      else match split s' sep with
           | w :: ws => String c w :: ws
           | [] => [String c EmptyString]
           end
  end.

(** [s * k] *)
Fixpoint repeat (s : string) (k : nat) : string :=
  match k with
  | O => EmptyString
  | S k' => s +:+ repeat s k'
  end.

(** Every character of [s] is white space. *)
Fixpoint all_space (s : string) : bool :=
  match s with
  | EmptyString => true
  | String c s' => is_space c && all_space s'
  end.

(** Truthiness of a [str]. *)
Definition truthy (s : string) : bool :=
  match s with EmptyString => false | _ => true end.

End PyStr.

(** ** Exceptions *)

Inductive exn_class :=
  | KeyError
  | NotFoundException
  | MethodNotAllowedException
  | ImproperlyConfiguredException
  | OtherException (name : string).

#[global] Instance exn_class_eq_dec : EqDecision exn_class.
Proof. solve_decision. Defined.

(** An exception instance: its class and the arguments its constructor
    was called with. *)
Record exn := Exn { exn_cls : exn_class; exn_args : list string }.

#[global] Instance exn_eq_dec : EqDecision exn.
Proof. solve_decision. Defined.

(** ** The state-and-exception monad

    A computation over a mutable state [S] ends by returning, by raising
    a Python exception, or in [Fault]: a dereference of a reference that
    the store does not hold, which no Python execution can do. State
    changes made before an exception is raised persist. *)

Inductive outcome (A : Type) :=
  | Return (a : A)
  | Raise (e : exn)
  | Fault.
Arguments Return {A} a.
Arguments Raise {A} e.
Arguments Fault {A}.

Definition M (S A : Type) : Type := S → outcome A * S.

Definition ret {S A} (a : A) : M S A := λ s, (Return a, s).

Definition bind {S A B} (m : M S A) (k : A → M S B) : M S B :=
  λ s, match m s with
       | (Return a, s') => k a s'
       | (Raise e, s') => (Raise e, s')
       | (Fault, s') => (Fault, s')
       end.

Definition raise {S A} (e : exn) : M S A := λ s, (Raise e, s).
Definition fault {S A} : M S A := λ s, (Fault, s).
Definition get {S} : M S S := λ s, (Return s, s).
Definition put {S} (s : S) : M S unit := λ _, (Return tt, s).

(** [try: body  except cls as e: handler e] *)
Definition try_except {S A} (body : M S A) (cls : exn_class)
    (handler : exn → M S A) : M S A :=
  λ s, match body s with
       | (Raise e, s') =>
           if decide (exn_cls e = cls) then handler e s' else (Raise e, s')
       | r => r
       end.

Notation "'let*' x ':=' c1 'in' c2" := (bind c1 (fun x => c2))
  (at level 10, x pattern, c1 at level 100, c2 at level 200).

(** [for x in xs: body], with the local variables the body rebinds
    carried from one iteration to the next. *)
Fixpoint for_in {S A L} (xs : list A) (body : L → A → M S L) (locals : L)
    : M S L :=
  match xs with
  | [] => ret locals
  | x :: xs' => let* locals' := body locals x in for_in xs' body locals'
  end.

(** Running a computation on part of the state. *)
Definition zoom {S T A} (proj : T → S) (inj : S → T → T) (m : M S A) : M T A :=
  λ t, match m (proj t) with (r, s') => (r, inj s' t) end.

(** [d[k]] on a plain [dict]. *)
Definition dict_getitem {S V} (d : gmap string V) (k : string) : M S V :=
  match d !! k with
  | Some v => ret v
  | None => raise (Exn KeyError [k])
  end.

(** [k in d] *)
Definition dict_contains {V} (d : gmap string V) (k : string) : bool :=
  bool_decide (is_Some (d !! k)).

(** ** Data model *)

(** A path-parameter definition: the dict with keys ["name"], ["full"]
    and ["type"] that a route carries for each [{name:type}] token. *)
Record ParamDef (K : Type) := {
  param_name : string;
  param_full : string;
  param_type : K;
}.
Arguments param_name {K} _.
Arguments param_full {K} _.
Arguments param_type {K} _.

#[global] Instance ParamDef_eq_dec {K} `{EqDecision K} : EqDecision (ParamDef K).
Proof. solve_decision. Defined.

(** The route classes [add_routes] tells apart with [isinstance].  An
    [HTTPRoute] carries [route_handler_map] (of whose value tuples
    [add_routes] reads the handler only); [OtherRoute] is any other
    [BaseRoute], with the text of its [type(route)]. *)
Inductive RouteKind (H : Type) :=
  | HTTPRoute (route_handler_map : gmap string H)
  | WebSocketRoute (route_handler : H)
  | ASGIRoute (route_handler : H)
  | OtherRoute (type_repr : string).
Arguments HTTPRoute {H} _.
Arguments WebSocketRoute {H} _.
Arguments ASGIRoute {H} _.
Arguments OtherRoute {H} _.

Record BaseRoute (H K : Type) := {
  route_path : string;
  route_path_parameters : list (ParamDef K);
  route_kind : RouteKind H;
}.
Arguments route_path {H K} _.
Arguments route_path_parameters {H K} _.
Arguments route_kind {H K} _.

(** What [route_map.py] imports and calls but does not define: the
    handler types, the path-parameter parser of [starlite.parsers], the
    middleware-stack builder of the application and the members of the
    [ScopeType] enumeration (a [str] enumeration, so its members are
    dictionary keys of the same kind as HTTP method names). *)
Class Collaborators := {
  ASGIApp : Type;
  Handler : Type;
  ParamKind : Type;
  ParamKind_eq_dec :: EqDecision ParamKind;
  ParsedParams : Type;
  parse_path_params :
    list (ParamDef ParamKind) → list string → exn + ParsedParams;
  build_route_middleware_stack :
    BaseRoute Handler ParamKind → Handler → ASGIApp;
  ScopeType_HTTP : string;
  ScopeType_WEBSOCKET : string;
  ScopeType_ASGI : string;
}.

(** The part of the application object the route map reads. *)
Record Starlite := { static_paths : gset string }.

(** The ASGI connection scope: the keys the resolver reads and writes.
    ["method"] is present for HTTP scopes only; ["path_params"] is absent
    until the resolver writes it. *)
Record Scope `{Collaborators} := {
  scope_path : string;
  scope_type : string;
  scope_method : option string;
  scope_path_params : option ParsedParams;
}.

(** A reference to a tree object is its index in the store. *)
Abbreviation ref := nat (only parsing).

Record _RouteMapLeafData `{Collaborators} := {
  path_parameters : list (ParamDef ParamKind);
  asgi_handlers : gmap string ASGIApp;
  is_asgi : bool;
  static_path : string;
}.

(** [children] is a [defaultdict(_RouteMapTree)]: its values are
    references to tree objects of the store. *)
Record _RouteMapTree `{Collaborators} := {
  children : gmap string ref;
  data : option _RouteMapLeafData;
}.

(** The route map with the tree objects it owns: [objects] is the store,
    a reference is an index into it. *)
Record PythonRouteMap `{Collaborators} := {
  objects : list _RouteMapTree;
  _plain_routes : gmap string ref;
  _tree : ref;
}.

(** The state of one [resolve_route] call: the route map and the scope
    dictionary it was called with. *)
Record World `{Collaborators} := {
  self : PythonRouteMap;
  scope : Scope;
}.

Section RouteMap.
Context `{Collaborators}.

(** *** Constructors *)

(** [_RouteMapLeafData()] *)
Definition new_leaf_data : _RouteMapLeafData :=
  {| path_parameters := []; asgi_handlers := ∅;
     is_asgi := false; static_path := "" |}.

(** The fields of a fresh [_RouteMapTree()]. *)
Definition empty_tree : _RouteMapTree := {| children := ∅; data := None |}.

(** [PythonRouteMap.__init__] *)
Definition __init__ : PythonRouteMap :=
  {| objects := [empty_tree]; _plain_routes := ∅; _tree := 0 |}.

(** *** Field updates *)

Definition with_objects (os : list _RouteMapTree) (rm : PythonRouteMap) :=
  {| objects := os; _plain_routes := _plain_routes rm; _tree := _tree rm |}.
Definition with_plain_routes (p : gmap string ref) (rm : PythonRouteMap) :=
  {| objects := objects rm; _plain_routes := p; _tree := _tree rm |}.
Definition with_children (c : gmap string ref) (n : _RouteMapTree) :=
  {| children := c; data := data n |}.
Definition with_data (d : option _RouteMapLeafData) (n : _RouteMapTree) :=
  {| children := children n; data := d |}.
Definition with_path_parameters ps (d : _RouteMapLeafData) :=
  {| path_parameters := ps; asgi_handlers := asgi_handlers d;
     is_asgi := is_asgi d; static_path := static_path d |}.
Definition with_asgi_handlers hs (d : _RouteMapLeafData) :=
  {| path_parameters := path_parameters d; asgi_handlers := hs;
     is_asgi := is_asgi d; static_path := static_path d |}.
Definition with_is_asgi b (d : _RouteMapLeafData) :=
  {| path_parameters := path_parameters d; asgi_handlers := asgi_handlers d;
     is_asgi := b; static_path := static_path d |}.
Definition with_static_path p (d : _RouteMapLeafData) :=
  {| path_parameters := path_parameters d; asgi_handlers := asgi_handlers d;
     is_asgi := is_asgi d; static_path := p |}.
Definition with_scope_path p (sc : Scope) :=
  {| scope_path := p; scope_type := scope_type sc;
     scope_method := scope_method sc;
     scope_path_params := scope_path_params sc |}.
Definition with_scope_path_params v (sc : Scope) :=
  {| scope_path := scope_path sc; scope_type := scope_type sc;
     scope_method := scope_method sc; scope_path_params := v |}.

(** *** Store operations *)

(** Allocation of a fresh [_RouteMapTree()]. *)
Definition new_tree : M PythonRouteMap ref :=
  λ rm, (Return (length (objects rm)),
         with_objects (objects rm ++ [empty_tree])%list rm).

Definition deref (a : ref) : M PythonRouteMap _RouteMapTree :=
  λ rm, match objects rm !! a with
        | Some n => (Return n, rm)
        | None => (Fault, rm)
        end.

Definition assign (a : ref) (n : _RouteMapTree) : M PythonRouteMap unit :=
  λ rm, match objects rm !! a with
        | Some _ => (Return tt, with_objects (<[a := n]> (objects rm)) rm)
        | None => (Fault, rm)
        end.

(** [component in cur.children] *)
Definition children_contains (cur : ref) (k : string) : M PythonRouteMap bool :=
  let* n := deref cur in ret (dict_contains (children n) k).

(** [cur.children[k]]: [defaultdict.__getitem__], which on a missing
    key calls the factory, stores the new tree under the key and
    returns it. *)
Definition children_getitem (cur : ref) (k : string) : M PythonRouteMap ref :=
  let* n := deref cur in
  match children n !! k with
  | Some b => ret b
  | None =>
      let* b := new_tree in
      let* _ := assign cur (with_children (<[k := b]> (children n)) n) in
      ret b
  end.

(** [path in self._plain_routes] *)
Definition plain_routes_contains (p : string) : M PythonRouteMap bool :=
  λ rm, (Return (dict_contains (_plain_routes rm) p), rm).

(** [self._plain_routes[path]], again a [defaultdict(_RouteMapTree)]. *)
Definition plain_routes_getitem (p : string) : M PythonRouteMap ref :=
  let* rm := get in
  match _plain_routes rm !! p with
  | Some b => ret b
  | None =>
      let* b := new_tree in
      let* rm' := get in
      let* _ := put (with_plain_routes (<[p := b]> (_plain_routes rm')) rm') in
      ret b
  end.

(** [cur.data] *)
Definition get_data (cur : ref) : M PythonRouteMap (option _RouteMapLeafData) :=
  let* n := deref cur in ret (data n).

(** [cur.data = d] *)
Definition set_data (cur : ref) (d : option _RouteMapLeafData)
    : M PythonRouteMap unit :=
  let* n := deref cur in assign cur (with_data d n).

(** An attribute assignment [data.x = v] on the leaf object that
    [cur.data] refers to. *)
Definition update_data (cur : ref)
    (f : _RouteMapLeafData → _RouteMapLeafData) : M PythonRouteMap unit :=
  let* n := deref cur in
  match data n with
  | Some d => assign cur (with_data (Some (f d)) n)
  | None => fault
  end.

(** [data.asgi_handlers[k] = app] *)
Definition set_handler (cur : ref) (k : string) (app : ASGIApp)
    : M PythonRouteMap unit :=
  update_data cur (λ d, with_asgi_handlers (<[k := app]> (asgi_handlers d)) d).

(** *** [add_routes] *)

(** The components a path is split into, at registration and at
    lookup: ["/"] followed by the non-empty pieces between slashes. *)
Definition components_of (p : string) : list string :=
  "/" :: filter (λ component, PyStr.truthy component = true)
                (PyStr.split p "/"%char).

(** Lines 45-55 of the loop body: the tree object [cur] the route is
    stored at, and the value [path] has after them. *)
Definition locate_node (app : Starlite) (route : BaseRoute Handler ParamKind)
    : M PythonRouteMap (ref * string) :=
  let path := route_path route in
  if bool_decide (route_path_parameters route ≠ [])
     || bool_decide (path ∈ static_paths app)
  then
    let path :=
      fold_left (λ path param_definition,
                   PyStr.replace path ("{" +:+ param_full param_definition +:+ "}") "*")
                (route_path_parameters route) path in
    let* rm := get in
    let cur := _tree rm in
    let* cur := for_in (components_of path)
                       (λ cur component, children_getitem cur component) cur in
    ret (cur, path)
  else
    let* cur := plain_routes_getitem path in
    ret (cur, path).

(** Lines 57-78 of the loop body. *)
Definition store_route (app : Starlite) (route : BaseRoute Handler ParamKind)
    (cur : ref) (path : string) : M PythonRouteMap unit :=
  let* d := get_data cur in
  let* _ := match d with
            | None => set_data cur (Some new_leaf_data)
            | Some _ => ret tt
            end in
  let* d := get_data cur in
  match d with
  | None => fault
  | Some data =>
      if bool_decide (path_parameters data ≠ [])
         && bool_decide (path_parameters data ≠ route_path_parameters route)
      then raise (Exn ImproperlyConfiguredException
                      ["Routes with conflicting path parameters"])
      else
        let* _ := update_data cur
                    (with_path_parameters (route_path_parameters route)) in
        let* _ := if bool_decide (path ∈ static_paths app)
                  then
                    let* _ := update_data cur (with_is_asgi true) in
                    update_data cur (with_static_path path)
                  else ret tt in
        match route_kind route with
        | HTTPRoute route_handler_map =>
            for_in (map_to_list route_handler_map)
                   (λ _ '(method, handler),
                      set_handler cur method
                        (build_route_middleware_stack route handler))
                   tt
        | WebSocketRoute route_handler =>
            set_handler cur ScopeType_WEBSOCKET
              (build_route_middleware_stack route route_handler)
        | ASGIRoute route_handler =>
            let* _ := set_handler cur ScopeType_ASGI
                        (build_route_middleware_stack route route_handler) in
            update_data cur (with_is_asgi true)
        | OtherRoute type_repr =>
            raise (Exn ImproperlyConfiguredException
                       ["Unknown route type " +:+ type_repr +:+ ")"])
        end
  end.

(** The body of the [for route in routes] loop. *)
Definition add_route (app : Starlite) (route : BaseRoute Handler ParamKind)
    : M PythonRouteMap unit :=
  let* (cur, path) := locate_node app route in
  store_route app route cur path.

Definition add_routes (app : Starlite)
    (routes : list (BaseRoute Handler ParamKind)) : M PythonRouteMap unit :=
  for_in routes (λ _ route, add_route app route) tt.

(** *** [resolve_route] and [_traverse_route_map] *)

Definition lift_self {A} (m : M PythonRouteMap A) : M World A :=
  zoom self (λ rm w, {| self := rm; scope := scope w |}) m.

Definition lift_scope {A} (m : M Scope A) : M World A :=
  zoom scope (λ sc w, {| self := self w; scope := sc |}) m.

(** [scope["path"]], [scope["type"]], [scope["method"]] *)
Definition scope_getitem_path : M World string :=
  lift_scope (let* sc := get in ret (scope_path sc)).
Definition scope_getitem_type : M World string :=
  lift_scope (let* sc := get in ret (scope_type sc)).
Definition scope_getitem_method : M World string :=
  lift_scope (let* sc := get in
              match scope_method sc with
              | Some m => ret m
              | None => raise (Exn KeyError ["method"])
              end).

(** [scope["path"] = p], [scope["path_params"] = v] *)
Definition scope_setitem_path (p : string) : M World unit :=
  lift_scope (let* sc := get in put (with_scope_path p sc)).
Definition scope_setitem_path_params (v : ParsedParams) : M World unit :=
  lift_scope (let* sc := get in put (with_scope_path_params (Some v) sc)).

(** The body of the [for component in components] loop of
    [_traverse_route_map]; [cur] and [path_params] are the locals it
    rebinds. *)
Definition traverse_step (locals : ref * list string) (component : string)
    : M World (ref * list string) :=
  let '(cur, path_params) := locals in
  let* b := lift_self (children_contains cur component) in
  if b then
    let* cur := lift_self (children_getitem cur component) in
    ret (cur, path_params)
  else
    let* b := lift_self (children_contains cur "*") in
    if b then
      let path_params := (path_params ++ [component])%list in
      let* cur := lift_self (children_getitem cur "*") in
      ret (cur, path_params)
    else
      let* d := lift_self (get_data cur) in
      match d with
      | Some data =>
          if PyStr.truthy (static_path data) then
            let* _ :=
              if bool_decide (static_path data ≠ "/") then
                let* p := scope_getitem_path in
                scope_setitem_path (PyStr.replace p (static_path data) "")
              else ret tt in
            ret (cur, path_params)
          else raise (Exn NotFoundException [])
      | None => raise (Exn NotFoundException [])
      end.

Definition _traverse_route_map (path : string) : M World (ref * list string) :=
  let path_params := [] in
  let* w := get in
  let cur := _tree (self w) in
  for_in (components_of path) traverse_step (cur, path_params).

(** Lines 85-87: the path the lookup uses. *)
Definition normalized_path (raw : string) : string :=
  let path := PyStr.strip raw in
  if bool_decide (path ≠ "/") && PyStr.endswith path "/"
  then PyStr.rstrip path "/"
  else path.

(** Lines 88-92: the node the path leads to, with the wildcard values. *)
Definition find_node (path : string) : M World (ref * list string) :=
  let* b := lift_self (plain_routes_contains path) in
  if b then
    let* cur := lift_self (plain_routes_getitem path) in
    ret (cur, [])
  else _traverse_route_map path.

(** Lines 99-105: the handler of a leaf for the scope. *)
Definition select_handler (data : _RouteMapLeafData) : M World ASGIApp :=
  if is_asgi data then dict_getitem (asgi_handlers data) ScopeType_ASGI
  else
    let* ty := scope_getitem_type in
    if bool_decide (ty = ScopeType_HTTP) then
      let* method := scope_getitem_method in
      if negb (dict_contains (asgi_handlers data) method)
      then raise (Exn MethodNotAllowedException [])
      else
        let* method := scope_getitem_method in
        dict_getitem (asgi_handlers data) method
    else dict_getitem (asgi_handlers data) ScopeType_WEBSOCKET.

Definition resolve_route : M World ASGIApp :=
  try_except
    (let* raw := scope_getitem_path in
     let path := normalized_path raw in
     let* (cur, path_params) := find_node path in
     let* d := lift_self (get_data cur) in
     match d with
     | None => raise (Exn NotFoundException [])
     | Some data =>
         let* parsed :=
           match parse_path_params (path_parameters data) path_params with
           | inl e => raise e
           | inr v => ret v
           end in
         let* _ := scope_setitem_path_params parsed in
         select_handler data
     end)
    KeyError
    (λ e, raise (Exn NotFoundException [])).


(** *** Vocabulary of the statements *)

(** The world after [scope["path"] = p], after
    [scope["path_params"] = v]. *)
Definition set_scope_path (p : string) (w : World) : World :=
  {| self := self w; scope := with_scope_path p (scope w) |}.
Definition set_scope_path_params (v : ParsedParams) (w : World) : World :=
  {| self := self w; scope := with_scope_path_params (Some v) (scope w) |}.

(** The child of tree object [a] under key [k], read without the
    [defaultdict] factory. *)
Definition child (rm : PythonRouteMap) (a : ref) (k : string) : option ref :=
  n ← objects rm !! a; children n !! k.

(** The object reached from [a] through the children named [ks]. *)
Fixpoint follow (rm : PythonRouteMap) (a : ref) (ks : list string) : option ref :=
  match ks with
  | [] => Some a
  | k :: ks' => b ← child rm a k; follow rm b ks'
  end.

(** The leaf data of tree object [a]. *)
Definition leaf (rm : PythonRouteMap) (a : ref) : option _RouteMapLeafData :=
  n ← objects rm !! a; data n.

(** Two worlds that differ at most in [scope["path"]]. *)
Definition agree_but_path (w1 w2 : World) : Prop :=
  self w1 = self w2
  ∧ scope_type (scope w1) = scope_type (scope w2)
  ∧ scope_method (scope w1) = scope_method (scope w2)
  ∧ scope_path_params (scope w1) = scope_path_params (scope w2).


(** What lines 99-105 yield for a leaf, as a function of the scope's
    type and method. *)
Definition dispatch (d : _RouteMapLeafData) (ty : string)
    (method : option string) : outcome ASGIApp :=
  if is_asgi d then
    match asgi_handlers d !! ScopeType_ASGI with
    | Some app => Return app
    | None => Raise (Exn KeyError [ScopeType_ASGI])
    end
  else if bool_decide (ty = ScopeType_HTTP) then
    match method with
    | None => Raise (Exn KeyError ["method"])
    | Some m =>
        match asgi_handlers d !! m with
        | Some app => Return app
        | None => Raise (Exn MethodNotAllowedException [])
        end
    end
  else
    match asgi_handlers d !! ScopeType_WEBSOCKET with
    | Some app => Return app
    | None => Raise (Exn KeyError [ScopeType_WEBSOCKET])
    end.

(** The [except KeyError] clause of [resolve_route], on an outcome. *)
Definition except_KeyError {A} (o : outcome A) : outcome A :=
  match o with
  | Raise e =>
      if decide (exn_cls e = KeyError) then Raise (Exn NotFoundException [])
      else Raise e
  | _ => o
  end.

(** What lines 94-107 make of the node that lines 88-92 found, or of
    their failure: no leaf data is [NotFoundException]; otherwise the
    parser's result is written to [scope["path_params"]] and the handler
    is the one [dispatch] yields, all under the [except KeyError]
    clause. *)
Definition answer_at (found : outcome (ref * list string) * World)
    : outcome ASGIApp * World :=
  match found with
  | (Return (cur, path_params), w) =>
      match objects (self w) !! cur with
      | None => (Fault, w)
      | Some n =>
          match data n with
          | None => (Raise (Exn NotFoundException []), w)
          | Some d =>
              match parse_path_params (path_parameters d) path_params with
              | inl e => (except_KeyError (Raise e), w)
              | inr v =>
                  (except_KeyError
                     (dispatch d (scope_type (scope w)) (scope_method (scope w))),
                   set_scope_path_params v w)
              end
          end
      end
  | (Raise e, w) => (except_KeyError (Raise e), w)
  | (Fault, w) => (Fault, w)
  end.

(** What a [resolve_route] call lets its caller observe besides the
    rewritten [scope["path"]]: the outcome, the route map and
    [scope["path_params"]]. *)
Definition observed (r : outcome ASGIApp * World)
    : outcome ASGIApp * PythonRouteMap * option ParsedParams :=
  (r.1, self r.2, scope_path_params (scope r.2)).

(** The HTTP methods and other dispatch keys a leaf holds a handler
    for. *)
Definition registered_keys (d : _RouteMapLeafData) : list string :=
  (map_to_list (asgi_handlers d)).*1.

(** The store after the assignment of [n] to the tree object [a]. *)
Definition store_set (a : ref) (n : _RouteMapTree) (rm : PythonRouteMap)
    : PythonRouteMap :=
  with_objects (<[a := n]> (objects rm)) rm.

(** [rm'] holds every tree object of [rm], with at least its children,
    every plain route of [rm], and the same root. *)
Definition extends (rm rm' : PythonRouteMap) : Prop :=
  _tree rm' = _tree rm
  ∧ _plain_routes rm ⊆ _plain_routes rm'
  ∧ ∀ a n, objects rm !! a = Some n →
      ∃ n', objects rm' !! a = Some n' ∧ children n ⊆ children n'.

(** The loop of lines 52-53. *)
Definition descend (cs : list string) (cur : ref) : M PythonRouteMap ref :=
  for_in cs (λ cur component, children_getitem cur component) cur.

(** The path of a route after lines 48-49 replaced its parameter tokens. *)
Definition wildcard_path (route : BaseRoute Handler ParamKind) : string :=
  fold_left (λ path param_definition,
               PyStr.replace path ("{" +:+ param_full param_definition +:+ "}") "*")
            (route_path_parameters route) (route_path route).

(** Where [add_routes] stores a route: under a list of components in
    the tree, or under its path in the plain-route map. *)
Definition position (app : Starlite) (route : BaseRoute Handler ParamKind)
    : list string + string :=
  if bool_decide (route_path_parameters route ≠ [])
     || bool_decide (route_path route ∈ static_paths app)
  then inl (components_of (wildcard_path route))
  else inr (route_path route).

(** [route] registers the handler [h] under the dispatch key [k]. *)
Definition registers (route : BaseRoute Handler ParamKind) (k : string)
    (h : Handler) : Prop :=
  match route_kind route with
  | HTTPRoute route_handler_map => route_handler_map !! k = Some h
  | WebSocketRoute route_handler => k = ScopeType_WEBSOCKET ∧ route_handler = h
  | ASGIRoute route_handler => k = ScopeType_ASGI ∧ route_handler = h
  | OtherRoute _ => False
  end.

(** The handler a leaf holds under [k] once [route] was stored there,
    given the handlers [hs] it held before. *)
Definition handler_after (route : BaseRoute Handler ParamKind)
    (hs : gmap string ASGIApp) (k : string) : option ASGIApp :=
  match route_kind route with
  | HTTPRoute route_handler_map =>
      match route_handler_map !! k with
      | Some h => Some (build_route_middleware_stack route h)
      | None => hs !! k
      end
  | WebSocketRoute h =>
      if decide (k = ScopeType_WEBSOCKET)
      then Some (build_route_middleware_stack route h) else hs !! k
  | ASGIRoute h =>
      if decide (k = ScopeType_ASGI)
      then Some (build_route_middleware_stack route h) else hs !! k
  | OtherRoute _ => hs !! k
  end.

(** The handlers of a leaf after the loop of lines 68-69 ran over the
    (method, handler) pairs [l], starting from the handlers [hs]. *)
Definition install (route : BaseRoute Handler ParamKind)
    (hs : gmap string ASGIApp) (l : list (string * Handler))
    : gmap string ASGIApp :=
  foldl (λ hs '(method, handler),
           <[method := build_route_middleware_stack route handler]> hs) hs l.

(** The value of [path] after lines 45-55. *)
Definition stored_path (app : Starlite) (route : BaseRoute Handler ParamKind)
    : string :=
  if bool_decide (route_path_parameters route ≠ [])
     || bool_decide (route_path route ∈ static_paths app)
  then wildcard_path route
  else route_path route.

Definition is_asgi_route (route : BaseRoute Handler ParamKind) : bool :=
  match route_kind route with ASGIRoute _ => true | _ => false end.

(** The leaf [store_route] leaves behind when it finds the leaf [d0]
    (a fresh one if there was none) and the check of line 60 passes. *)
Definition stored_leaf (app : Starlite)
    (route : BaseRoute Handler ParamKind) (path : string)
    (d0 : _RouteMapLeafData)
    : _RouteMapLeafData :=
  let d1 := with_path_parameters (route_path_parameters route) d0 in
  let d2 := if bool_decide (path ∈ static_paths app)
            then with_static_path path (with_is_asgi true d1) else d1 in
  match route_kind route with
  | HTTPRoute route_handler_map =>
      with_asgi_handlers
        (install route (asgi_handlers d2) (map_to_list route_handler_map)) d2
  | WebSocketRoute h =>
      with_asgi_handlers
        (<[ScopeType_WEBSOCKET := build_route_middleware_stack route h]>
           (asgi_handlers d2)) d2
  | ASGIRoute h =>
      with_is_asgi true
        (with_asgi_handlers
           (<[ScopeType_ASGI := build_route_middleware_stack route h]>
              (asgi_handlers d2)) d2)
  | OtherRoute _ => d2
  end.

(** The leaf data [store_route] starts from. *)
Definition found_leaf (n : _RouteMapTree) : _RouteMapLeafData := default new_leaf_data (data n).

Definition is_known_route (route : BaseRoute Handler ParamKind) : Prop :=
  match route_kind route with OtherRoute _ => False | _ => True end.


End RouteMap.

(** The normalization as the specification words it: "strip a single
    trailing [/] unless the path is exactly [/]". *)
Fixpoint drop_last (s : string) : string :=
  match s with
  | EmptyString => EmptyString
  | String c EmptyString => EmptyString
  | String c s' => String c (drop_last s')
  end.

(** The rewriting of the outward path as the specification words it:
    "removing the mount prefix". *)
Fixpoint drop_chars (k : nat) (s : string) : string :=
  match k, s with
  | S k', String _ s' => drop_chars k' s'
  | _, _ => s
  end.

Definition remove_prefix (prefix s : string) : string :=
  if String.prefix prefix s then drop_chars (String.length prefix) s else s.

Definition strip_single_trailing_slash (p : string) : string :=
  if bool_decide (p ≠ "/") && PyStr.endswith p "/" then drop_last p else p.


(** ** A concrete application

    Handlers are named by strings; the middleware stack built for a
    route and a handler is the pair of the route's path and the handler;
    the parser pairs parameter names with raw values and rejects a
    wrong number of values. *)

Module Example.

#[export] Instance collaborators : Collaborators := {|
  ASGIApp := string * string;
  Handler := string;
  ParamKind := string;
  ParsedParams := list (string * string);
  parse_path_params defs raw :=
    if bool_decide (length defs = length raw)
    then inr (zip (param_name <$> defs) raw)
    else inl (Exn (OtherException "ValidationException") []);
  build_route_middleware_stack r h := (route_path r, h);
  ScopeType_HTTP := "http";
  ScopeType_WEBSOCKET := "websocket";
  ScopeType_ASGI := "asgi";
|}.

Definition route (p : string) (ps : list (ParamDef string))
    (k : RouteKind string) : BaseRoute Handler ParamKind :=
  {| route_path := p; route_path_parameters := ps; route_kind := k |}.

Definition param (name ty : string) : ParamDef string :=
  {| param_name := name; param_full := name +:+ ":" +:+ ty;
     param_type := ty |}.

(** An application with static files mounted at [/static]. *)
Definition app : Starlite := {| static_paths := {["/static"]} |}.

Definition static_files := route "/static" [] (ASGIRoute "static_files").
Definition list_items := route "/items" [] (HTTPRoute {["GET" := "list_items"]}).
Definition get_item :=
  route "/items/{id:int}" [param "id" "int"] (HTTPRoute {["GET" := "get_item"]}).
Definition chat := route "/chat" [] (WebSocketRoute "chat").

Definition router : PythonRouteMap :=
  (add_routes app [static_files; list_items; get_item; chat] __init__).2.

Definition http (p method : string) : Scope :=
  {| scope_path := p; scope_type := "http"; scope_method := Some method;
     scope_path_params := None |}.

Definition websocket (p : string) : Scope :=
  {| scope_path := p; scope_type := "websocket"; scope_method := None;
     scope_path_params := None |}.

Definition request (sc : Scope) : World := {| self := router; scope := sc |}.

(** A layout on which only a backtracking matcher finds [/a/b]:
    [/a/{y}/c] makes [a] a literal child of the root segment, and
    [/{x}/b] is reachable through the wildcard child only. *)
Definition a_y_c :=
  route "/a/{y:str}/c" [param "y" "str"] (HTTPRoute {["GET" := "a_y_c"]}).
Definition x_b :=
  route "/{x:str}/b" [param "x" "str"] (HTTPRoute {["GET" := "x_b"]}).

Definition ambiguous_router : PythonRouteMap :=
  (add_routes app [a_y_c; x_b] __init__).2.

(** A mount whose leaf carries no [ASGI] handler: an HTTP route
    registered at a static path. *)
Definition static_page := route "/static" [] (HTTPRoute {["GET" := "page"]}).

Definition pageless_router : PythonRouteMap :=
  (add_routes app [static_page] __init__).2.

(** Two routes of one shape whose parameters differ in name, and two
    that differ in declared type. *)
Definition a_x := route "/a/{x:int}" [param "x" "int"] (HTTPRoute {["GET" := "a_x"]}).
Definition a_y := route "/a/{y:int}" [param "y" "int"] (HTTPRoute {["GET" := "a_y"]}).
Definition a_x_str :=
  route "/a/{x:str}" [param "x" "str"] (HTTPRoute {["GET" := "a_x_str"]}).

(** Static files mounted at a path with a literal [*] segment, which is
    the position of [/a/{x:int}]. *)
Definition star_app : Starlite := {| static_paths := {["/a/*"]} |}.
Definition star_files := route "/a/*" [] (ASGIRoute "star_files").

(** Two registrations of [GET /items]. *)
Definition list_items_v2 :=
  route "/items" [] (HTTPRoute {["GET" := "list_items_v2"]}).

(** A root route. *)
Definition index := route "/" [] (HTTPRoute {["GET" := "index"]}).

End Example.

(** The tree objects of the examples that the statements name. *)
Module ExampleObjects.
Import Example.

Definition items_leaf : _RouteMapLeafData :=
  {| path_parameters := [];
     asgi_handlers := {["GET" := ("/items", "list_items")]};
     is_asgi := false; static_path := "" |}.
Definition items_node : _RouteMapTree :=
  {| children := ∅; data := Some items_leaf |}.

Definition static_page_leaf : _RouteMapLeafData :=
  {| path_parameters := [];
     asgi_handlers := {["GET" := ("/static", "page")]};
     is_asgi := true; static_path := "/static" |}.
Definition static_page_node : _RouteMapTree :=
  {| children := ∅; data := Some static_page_leaf |}.

Definition ambiguous_root_segment : _RouteMapTree :=
  {| children := {["a" := 2; "*" := 5]}; data := None |}.

End ExampleObjects.

(** ** Vocabulary of the further properties *)

Section MoreVocabulary.
Context `{Collaborators}.

(** The request [sc] asks for the dispatch key under which [route]
    registers the handler [h]: the method of an HTTP route for an HTTP
    scope, the websocket key for a scope that is not HTTP; the handler
    of an ASGI route answers every scope. *)
Definition answers (route : BaseRoute Handler ParamKind) (sc : Scope)
    (h : Handler) : Prop :=
  match route_kind route with
  | HTTPRoute route_handler_map =>
      scope_type sc = ScopeType_HTTP
      ∧ ∃ m, scope_method sc = Some m ∧ route_handler_map !! m = Some h
  | WebSocketRoute route_handler =>
      scope_type sc ≠ ScopeType_HTTP ∧ route_handler = h
  | ASGIRoute route_handler => route_handler = h
  | OtherRoute _ => False
  end.

(** A leaf after further registrations: no dispatch key lost its
    handler, a mount is still a mount, and a non-empty parameter list is
    the same list. *)
Definition leaf_grows (d d' : _RouteMapLeafData) : Prop :=
  dom (asgi_handlers d) ⊆ dom (asgi_handlers d')
  ∧ (is_asgi d = true → is_asgi d' = true)
  ∧ (path_parameters d ≠ [] → path_parameters d' = path_parameters d).

(** A route map after further registrations: [extends], and every leaf
    is still there and [leaf_grows]. *)
Definition grows (rm rm' : PythonRouteMap) : Prop :=
  _tree rm' = _tree rm
  ∧ _plain_routes rm ⊆ _plain_routes rm'
  ∧ ∀ a n, objects rm !! a = Some n →
      ∃ n', objects rm' !! a = Some n' ∧ children n ⊆ children n'
            ∧ ∀ d, data n = Some d →
                ∃ d', data n' = Some d' ∧ leaf_grows d d'.

(** [grows] for a step that touches no leaf data. *)
Definition keeps_leaves (rm rm' : PythonRouteMap) : Prop :=
  _tree rm' = _tree rm
  ∧ _plain_routes rm ⊆ _plain_routes rm'
  ∧ ∀ a n, objects rm !! a = Some n →
      ∃ n', objects rm' !! a = Some n' ∧ children n ⊆ children n'
            ∧ data n' = data n.

(** No reference of the route map dangles: the root, every child and
    every plain route is a tree object of the store. *)
Definition well_formed (rm : PythonRouteMap) : Prop :=
  _tree rm < length (objects rm)
  ∧ (∀ a n k b, objects rm !! a = Some n → children n !! k = Some b →
                b < length (objects rm))
  ∧ (∀ p b, _plain_routes rm !! p = Some b → b < length (objects rm)).

(** The route maps that calls of [add_routes] build from a new one,
    whether the calls returned or raised. *)
Inductive built : PythonRouteMap → Prop :=
  | built_init : built __init__
  | built_add_routes app routes rm o rm' :
      built rm → add_routes app routes rm = (o, rm') → built rm'.

(** The tree objects from [a] to [b] form a chain named by [segs]: each
    has the next as its only child and carries no leaf data. *)
Fixpoint chain (rm : PythonRouteMap) (a : ref) (segs : list string) (b : ref)
    : Prop :=
  match segs with
  | [] => a = b
  | s :: segs' =>
      ∃ a', objects rm !! a = Some {| children := {[s := a']}; data := None |}
            ∧ chain rm a' segs' b
  end.

(** The components [reqs] of a request have the shape of the stored
    components [segs]: as many, each equal to the stored one unless that
    is the wildcard. *)
Fixpoint shape_matches (segs reqs : list string) : bool :=
  match segs, reqs with
  | [], [] => true
  | s :: segs', r :: reqs' =>
      (bool_decide (r = s) || bool_decide (s = "*"))
      && shape_matches segs' reqs'
  | _, _ => false
  end.

(** The wildcard values the descent collects on such a request: the
    components that differ from the stored one, in order. *)
Fixpoint wildcard_values (segs reqs : list string) : list string :=
  match segs, reqs with
  | s :: segs', r :: reqs' =>
      (if bool_decide (r = s) then [] else [r]) ++ wildcard_values segs' reqs'
  | _, _ => []
  end.

End MoreVocabulary.

(** ** The route middleware stack of [app.py]

    The ASGI applications that [Starlite.wrap_in_exception_handler] and
    [Starlite.build_route_middleware_stack] construct, as terms: every
    constructor call of a middleware class is a constructor of
    [asgi_stack].  [Endpoint] is the type of [route.handle],
    [ExceptionHandlers] of the dict that
    [route_handler.resolve_exception_handlers()] returns; a middleware is
    a [StarletteMiddleware], with its class and options, or any other
    callable that takes the application to wrap. *)

Module App.
Section Stack.
Context {Endpoint ExceptionHandlers Cls Options Factory : Type}.

Inductive Middleware :=
  | StarletteMiddleware (cls : Cls) (options : Options)
  | MiddlewareFactory (factory : Factory).

Inductive asgi_stack :=
  | Handle (endpoint : Endpoint)
  | ExceptionHandlerMiddleware (app : asgi_stack)
      (exception_handlers : ExceptionHandlers) (debug : bool)
  | StarletteInstance (cls : Cls) (app : asgi_stack) (options : Options)
  | FactoryInstance (factory : Factory) (app : asgi_stack).

(** The route handler, by what its two [resolve_] methods return. *)
Record RouteHandler := {
  resolve_exception_handlers : ExceptionHandlers;
  resolve_middleware : list Middleware;
}.

(** The application object, by the attribute the two methods read. *)
Record Starlite := { debug : bool }.

Definition wrap_in_exception_handler (self : Starlite) (app : asgi_stack)
    (exception_handlers : ExceptionHandlers) : asgi_stack :=
  ExceptionHandlerMiddleware app exception_handlers (debug self).

Definition build_route_middleware_stack (self : Starlite)
    (route_handle : Endpoint) (route_handler : RouteHandler) : asgi_stack :=
  let asgi_handler :=
    wrap_in_exception_handler self (Handle route_handle)
      (resolve_exception_handlers route_handler) in
  let asgi_handler :=
    fold_left
      (λ asgi_handler middleware,
         match middleware with
         | StarletteMiddleware cls options =>
             StarletteInstance cls asgi_handler options
         | MiddlewareFactory factory => FactoryInstance factory asgi_handler
         end)
      (resolve_middleware route_handler) asgi_handler in
  wrap_in_exception_handler self asgi_handler
    (resolve_exception_handlers route_handler).

(** One layer of a stack. *)
Inductive layer :=
  | ExceptionLayer (exception_handlers : ExceptionHandlers) (debug : bool)
  | MiddlewareLayer (middleware : Middleware).

(** The layers a request passes, the outermost first, and the endpoint
    it reaches. *)
Fixpoint layers (app : asgi_stack) : list layer :=
  match app with
  | Handle _ => []
  | ExceptionHandlerMiddleware app' hs dbg => ExceptionLayer hs dbg :: layers app'
  | StarletteInstance cls app' options =>
      MiddlewareLayer (StarletteMiddleware cls options) :: layers app'
  | FactoryInstance f app' => MiddlewareLayer (MiddlewareFactory f) :: layers app'
  end.

Fixpoint endpoint_of (app : asgi_stack) : Endpoint :=
  match app with
  | Handle e => e
  | ExceptionHandlerMiddleware app' _ _ => endpoint_of app'
  | StarletteInstance _ app' _ => endpoint_of app'
  | FactoryInstance _ app' => endpoint_of app'
  end.

End Stack.
End App.

Section MoreVocabulary2.
Context `{Collaborators}.

(** No plain route shares its tree object: it is not the root, no
    child of any tree object, and the tree object of no other plain
    route. *)
Definition plain_separate (rm : PythonRouteMap) : Prop :=
  ∀ p b, _plain_routes rm !! p = Some b →
    b ≠ _tree rm
    ∧ (∀ a n k, objects rm !! a = Some n → children n !! k ≠ Some b)
    ∧ (∀ q, _plain_routes rm !! q = Some b → q = p).

End MoreVocabulary2.

(** ** More of the concrete application *)

Module MoreExamples.
Import Example.

(** The leaf of the mount at [/static] and of [/items/{id:int}] in
    [Example.router]. *)
Definition static_leaf : _RouteMapLeafData :=
  {| path_parameters := [];
     asgi_handlers := {["asgi" := ("/static", "static_files")]};
     is_asgi := true; static_path := "/static" |}.

Definition item_leaf : _RouteMapLeafData :=
  {| path_parameters := [param "id" "int"];
     asgi_handlers := {["GET" := ("/items/{id:int}", "get_item")]};
     is_asgi := false; static_path := "" |}.
Definition item_node : _RouteMapTree :=
  {| children := ∅; data := Some item_leaf |}.

(** An application that mounts a site at the root. *)
Definition root_app : Starlite := {| static_paths := {["/"]} |}.
Definition site := route "/" [] (ASGIRoute "site").


(** A route of a class [add_routes] has no branch for. *)
Definition legacy := route "/legacy" [] (OtherRoute "LegacyRoute").

(** An HTTP scope without a [method] key. *)
Definition methodless (p : string) : Scope :=
  {| scope_path := p; scope_type := "http"; scope_method := None;
     scope_path_params := None |}.

End MoreExamples.

(** ** Running the monad *)

Section MonadLemmas.
Context {S A B : Type}.

Lemma bind_Return (m : M S A) (k : A → M S B) s a s' :
  m s = (Return a, s') → bind m k s = k a s'.
Proof. unfold bind. by intros ->. Qed.

Lemma bind_Raise (m : M S A) (k : A → M S B) s e s' :
  m s = (Raise e, s') → bind m k s = (Raise e, s').
Proof. unfold bind. by intros ->. Qed.

Lemma bind_Fault (m : M S A) (k : A → M S B) s s' :
  m s = (Fault, s') → bind m k s = (Fault, s').
Proof. unfold bind. by intros ->. Qed.

Lemma bind_inv_Return (m : M S A) (k : A → M S B) s b s'' :
  bind m k s = (Return b, s'') →
  ∃ a s', m s = (Return a, s') ∧ k a s' = (Return b, s'').
Proof.
  unfold bind. destruct (m s) as [[a|e|] s']; [eauto|done..].
Qed.
End MonadLemmas.

Lemma for_in_cons {S A L} (x : A) xs (body : L → A → M S L) l s :
  for_in (x :: xs) body l s
  = match body l x s with
    | (Return l', s') => for_in xs body l' s'
    | (Raise e, s') => (Raise e, s')
    | (Fault, s') => (Fault, s')
    end.
Proof. reflexivity. Qed.

Lemma for_in_app {S A L} (xs ys : list A) (body : L → A → M S L) l s :
  for_in (xs ++ ys)%list body l s
  = bind (for_in xs body l) (for_in ys body) s.
Proof.
  revert l s. induction xs as [|x xs IH]; intros l s; [reflexivity|].
  rewrite <- app_comm_cons, for_in_cons. unfold bind at 1.
  rewrite for_in_cons.
  destruct (body l x s) as [[l'|e|] s']; [|done..].
  by rewrite IH.
Qed.

Lemma dict_contains_Some {V} (d : gmap string V) k v :
  d !! k = Some v → dict_contains d k = true.
Proof. intros Hk. apply bool_decide_eq_true_2. eauto. Qed.

Lemma dict_contains_None {V} (d : gmap string V) k :
  d !! k = None → dict_contains d k = false.
Proof. intros Hk. apply bool_decide_eq_false_2. intros [? ?]; congruence. Qed.

Lemma dict_contains_true {V} (d : gmap string V) k :
  dict_contains d k = true → ∃ v, d !! k = Some v.
Proof. intros Hk. by apply bool_decide_eq_true_1 in Hk as [v ?]; eauto. Qed.

(** ** Reading the store during resolution *)

Section Resolution.
Context `{Collaborators}.
Implicit Types (w : World) (rm : PythonRouteMap) (cur : ref).

Lemma World_eta w : {| self := self w; scope := scope w |} = w.
Proof. by destruct w. Qed.

Lemma set_scope_path_id w : set_scope_path (scope_path (scope w)) w = w.
Proof. by destruct w as [? []]. Qed.

Lemma set_scope_path_twice p q w :
  set_scope_path q (set_scope_path p w) = set_scope_path q w.
Proof. done. Qed.

Lemma run_children_contains cur k w n :
  objects (self w) !! cur = Some n →
  lift_self (children_contains cur k) w
  = (Return (dict_contains (children n) k), w).
Proof.
  intros Hn. unfold lift_self, zoom, children_contains, deref, bind, ret.
  rewrite Hn. by rewrite World_eta.
Qed.

Lemma run_children_getitem cur k w n b :
  objects (self w) !! cur = Some n → children n !! k = Some b →
  lift_self (children_getitem cur k) w = (Return b, w).
Proof.
  intros Hn Hk. unfold lift_self, zoom, children_getitem, deref, bind, ret.
  rewrite Hn, Hk. by rewrite World_eta.
Qed.

Lemma run_get_data cur w n :
  objects (self w) !! cur = Some n →
  lift_self (get_data cur) w = (Return (data n), w).
Proof.
  intros Hn. unfold lift_self, zoom, get_data, deref, bind, ret.
  rewrite Hn. by rewrite World_eta.
Qed.

Lemma run_get_data_dangling cur w :
  objects (self w) !! cur = None →
  lift_self (get_data cur) w = (Fault, w).
Proof.
  intros Hn. unfold lift_self, zoom, get_data, deref, bind.
  rewrite Hn. by rewrite World_eta.
Qed.

Lemma run_children_contains_dangling cur k w :
  objects (self w) !! cur = None →
  lift_self (children_contains cur k) w = (Fault, w).
Proof.
  intros Hn. unfold lift_self, zoom, children_contains, deref, bind.
  rewrite Hn. by rewrite World_eta.
Qed.

Lemma run_plain_routes_contains p w :
  lift_self (plain_routes_contains p) w
  = (Return (dict_contains (_plain_routes (self w)) p), w).
Proof. unfold lift_self, zoom, plain_routes_contains. by rewrite World_eta. Qed.

Lemma run_plain_routes_getitem p w b :
  _plain_routes (self w) !! p = Some b →
  lift_self (plain_routes_getitem p) w = (Return b, w).
Proof.
  intros Hp. unfold lift_self, zoom, plain_routes_getitem, bind, get, ret.
  rewrite Hp. by rewrite World_eta.
Qed.

Lemma run_scope_getitem_path w :
  scope_getitem_path w = (Return (scope_path (scope w)), w).
Proof. unfold scope_getitem_path, lift_scope, zoom, bind, get, ret. by destruct w. Qed.

Lemma run_scope_getitem_type w :
  scope_getitem_type w = (Return (scope_type (scope w)), w).
Proof. unfold scope_getitem_type, lift_scope, zoom, bind, get, ret. by destruct w. Qed.

Lemma run_scope_getitem_method w m :
  scope_method (scope w) = Some m →
  scope_getitem_method w = (Return m, w).
Proof.
  intros Hm. unfold scope_getitem_method, lift_scope, zoom, bind, get, ret.
  rewrite Hm. by destruct w.
Qed.

Lemma run_scope_getitem_method_missing w :
  scope_method (scope w) = None →
  scope_getitem_method w = (Raise (Exn KeyError ["method"]), w).
Proof.
  intros Hm. unfold scope_getitem_method, lift_scope, zoom, bind, get, raise.
  rewrite Hm. by destruct w.
Qed.

Lemma run_scope_setitem_path p w :
  scope_setitem_path p w = (Return tt, set_scope_path p w).
Proof. done. Qed.

Lemma run_scope_setitem_path_params v w :
  scope_setitem_path_params v w = (Return tt, set_scope_path_params v w).
Proof. done. Qed.

(** *** One iteration of the descent *)

Lemma traverse_step_exact cur pp c w n b :
  objects (self w) !! cur = Some n → children n !! c = Some b →
  traverse_step (cur, pp) c w = (Return (b, pp), w).
Proof.
  intros Hn Hc. unfold traverse_step.
  erewrite bind_Return by (by apply run_children_contains).
  rewrite (dict_contains_Some _ _ _ Hc).
  erewrite bind_Return by (by eapply run_children_getitem). done.
Qed.

Lemma traverse_step_wildcard cur pp c w n b :
  objects (self w) !! cur = Some n → children n !! c = None →
  children n !! "*" = Some b →
  traverse_step (cur, pp) c w = (Return (b, (pp ++ [c])%list), w).
Proof.
  intros Hn Hc Hs. unfold traverse_step.
  erewrite bind_Return by (by apply run_children_contains).
  rewrite (dict_contains_None _ _ Hc).
  erewrite bind_Return by (by apply run_children_contains).
  rewrite (dict_contains_Some _ _ _ Hs).
  erewrite bind_Return by (by eapply run_children_getitem). done.
Qed.

Lemma traverse_step_mount cur pp c w n d :
  objects (self w) !! cur = Some n → children n !! c = None →
  children n !! "*" = None → data n = Some d →
  PyStr.truthy (static_path d) = true →
  traverse_step (cur, pp) c w
  = (Return (cur, pp),
     if bool_decide (static_path d ≠ "/")
     then set_scope_path
            (PyStr.replace (scope_path (scope w)) (static_path d) "") w
     else w).
Proof.
  intros Hn Hc Hs Hd Ht. unfold traverse_step.
  erewrite bind_Return by (by apply run_children_contains).
  rewrite (dict_contains_None _ _ Hc).
  erewrite bind_Return by (by apply run_children_contains).
  rewrite (dict_contains_None _ _ Hs).
  erewrite bind_Return by (by apply run_get_data).
  rewrite Hd, Ht. destruct (bool_decide _); [|done].
  erewrite bind_Return; [done|].
  erewrite bind_Return by apply run_scope_getitem_path. done.
Qed.

Lemma traverse_step_not_found cur pp c w n :
  objects (self w) !! cur = Some n → children n !! c = None →
  children n !! "*" = None →
  (∀ d, data n = Some d → PyStr.truthy (static_path d) = false) →
  traverse_step (cur, pp) c w = (Raise (Exn NotFoundException []), w).
Proof.
  intros Hn Hc Hs Hd. unfold traverse_step.
  erewrite bind_Return by (by apply run_children_contains).
  rewrite (dict_contains_None _ _ Hc).
  erewrite bind_Return by (by apply run_children_contains).
  rewrite (dict_contains_None _ _ Hs).
  erewrite bind_Return by (by apply run_get_data).
  destruct (data n) as [d|]; [|done]. by rewrite (Hd d).
Qed.

Lemma traverse_step_dangling cur pp c w :
  objects (self w) !! cur = None →
  traverse_step (cur, pp) c w = (Fault, w).
Proof.
  intros Hn. unfold traverse_step.
  erewrite bind_Fault; [done|]. by apply run_children_contains_dangling.
Qed.

(** The outcome of an iteration is a function of the route map, and so
    is the way it rewrites [scope["path"]]; nothing else changes. *)
Lemma traverse_step_shape l c rm :
  ∃ (o : outcome (ref * list string)) (f : string → string),
    (∀ e, o = Raise e → e = Exn NotFoundException []) ∧
    ∀ w, self w = rm →
      traverse_step l c w = (o, set_scope_path (f (scope_path (scope w))) w).
Proof.
  destruct l as [cur pp].
  destruct (objects rm !! cur) as [n|] eqn:Hn.
  2:{ exists Fault, id. split; [done|]. intros w <-.
      unfold id; rewrite set_scope_path_id. by apply traverse_step_dangling. }
  destruct (children n !! c) as [b|] eqn:Hc.
  { exists (Return (b, pp)), id. split; [done|]. intros w <-.
    unfold id; rewrite set_scope_path_id. by eapply traverse_step_exact. }
  destruct (children n !! "*") as [b|] eqn:Hs.
  { exists (Return (b, (pp ++ [c])%list)), id. split; [done|]. intros w <-.
    unfold id; rewrite set_scope_path_id. by eapply traverse_step_wildcard. }
  destruct (data n) as [d|] eqn:Hd.
  2:{ exists (Raise (Exn NotFoundException [])), id.
      split; [by intros ? [= <-]|]. intros w <-.
      unfold id; rewrite set_scope_path_id. by eapply traverse_step_not_found; eauto; congruence. }
  destruct (PyStr.truthy (static_path d)) eqn:Ht.
  2:{ exists (Raise (Exn NotFoundException [])), id.
      split; [by intros ? [= <-]|]. intros w <-.
      unfold id; rewrite set_scope_path_id. eapply traverse_step_not_found; eauto; congruence. }
  exists (Return (cur, pp)),
    (λ p, if bool_decide (static_path d ≠ "/")
          then PyStr.replace p (static_path d) "" else p).
  split; [done|]. intros w <-.
  erewrite traverse_step_mount by eauto.
  destruct (bool_decide _); [done|]. by unfold id; rewrite set_scope_path_id.
Qed.

Lemma traverse_loop_shape cs l rm :
  ∃ (o : outcome (ref * list string)) (f : string → string),
    (∀ e, o = Raise e → e = Exn NotFoundException []) ∧
    ∀ w, self w = rm →
      for_in cs traverse_step l w
      = (o, set_scope_path (f (scope_path (scope w))) w).
Proof.
  revert l. induction cs as [|c cs IH]; intros l.
  { exists (Return l), id. split; [done|]. intros w _.
    by unfold id; rewrite set_scope_path_id. }
  destruct (traverse_step_shape l c rm) as (o1 & f1 & Ho1 & H1).
  destruct o1 as [l'|e|].
  - destruct (IH l') as (o2 & f2 & Ho2 & H2).
    exists o2, (f2 ∘ f1). split; [done|]. intros w Hw.
    rewrite for_in_cons, (H1 w Hw), H2 by done. done.
  - exists (Raise e), f1. split; [done|]. intros w Hw.
    by rewrite for_in_cons, (H1 w Hw).
  - exists Fault, f1. split; [done|]. intros w Hw.
    by rewrite for_in_cons, (H1 w Hw).
Qed.

Lemma find_node_shape path rm :
  ∃ (o : outcome (ref * list string)) (f : string → string),
    (∀ e, o = Raise e → e = Exn NotFoundException []) ∧
    ∀ w, self w = rm →
      find_node path w = (o, set_scope_path (f (scope_path (scope w))) w).
Proof.
  destruct (_plain_routes rm !! path) as [b|] eqn:Hp.
  - exists (Return (b, [])), id. split; [done|]. intros w <-.
    unfold find_node. erewrite bind_Return by apply run_plain_routes_contains.
    rewrite (dict_contains_Some _ _ _ Hp).
    erewrite bind_Return by (by apply run_plain_routes_getitem).
    by unfold id; rewrite set_scope_path_id.
  - destruct (traverse_loop_shape (components_of path) (_tree rm, []) rm)
      as (o & f & Ho & Hf).
    exists o, f. split; [done|]. intros w <-.
    unfold find_node. erewrite bind_Return by apply run_plain_routes_contains.
    rewrite (dict_contains_None _ _ Hp).
    unfold _traverse_route_map. erewrite bind_Return by reflexivity.
    by apply Hf.
Qed.

End Resolution.

(** ** The shape of [resolve_route] *)

Section ResolveRoute.
Context `{Collaborators}.
Implicit Types (w : World) (rm : PythonRouteMap) (cur : ref).

Lemma select_handler_run d w :
  select_handler d w
  = (dispatch d (scope_type (scope w)) (scope_method (scope w)), w).
Proof.
  unfold select_handler, dispatch. destruct (is_asgi d).
  { unfold dict_getitem. by destruct (_ !! _). }
  erewrite bind_Return by apply run_scope_getitem_type.
  destruct (bool_decide _).
  2:{ unfold dict_getitem. by destruct (_ !! _). }
  destruct (scope_method (scope w)) as [m|] eqn:Hm.
  2:{ by erewrite bind_Raise by (by apply run_scope_getitem_method_missing). }
  erewrite bind_Return by (by apply run_scope_getitem_method).
  destruct (asgi_handlers d !! m) as [app|] eqn:Hh.
  - rewrite (dict_contains_Some _ _ _ Hh). simpl.
    erewrite bind_Return by (by apply run_scope_getitem_method).
    unfold dict_getitem. by rewrite Hh.
  - by rewrite (dict_contains_None _ _ Hh).
Qed.

(** [resolve_route] in terms of [find_node], the leaf found, the
    parser's answer and [dispatch]. *)
Lemma resolve_route_eq w :
  resolve_route w =
  match find_node (normalized_path (scope_path (scope w))) w with
  | (Return (cur, pp), w1) =>
      match objects (self w1) !! cur with
      | None => (Fault, w1)
      | Some n =>
          match data n with
          | None => (Raise (Exn NotFoundException []), w1)
          | Some d =>
              match parse_path_params (path_parameters d) pp with
              | inl e => (except_KeyError (Raise e), w1)
              | inr v =>
                  (except_KeyError
                     (dispatch d (scope_type (scope w1))
                               (scope_method (scope w1))),
                   set_scope_path_params v w1)
              end
          end
      end
  | (Raise e, w1) => (Raise e, w1)
  | (Fault, w1) => (Fault, w1)
  end.
Proof.
  unfold resolve_route, try_except.
  erewrite bind_Return by apply run_scope_getitem_path.
  destruct (find_node_shape (normalized_path (scope_path (scope w))) (self w))
    as (o & f & Ho & Hf).
  cbv zeta. specialize (Hf w eq_refl). rewrite Hf.
  set (w1 := set_scope_path _ w) in *.
  destruct o as [[cur pp]|e|].
  - erewrite bind_Return by exact Hf.
    destruct (objects (self w1) !! cur) as [n|] eqn:Hn.
    2:{ by erewrite bind_Fault by (by apply run_get_data_dangling). }
    erewrite bind_Return by (by apply run_get_data).
    destruct (data n) as [d|]; [|done].
    destruct (parse_path_params _ _) as [e|v].
    + erewrite bind_Raise by reflexivity. simpl.
      destruct (decide _); done.
    + erewrite bind_Return by reflexivity.
      erewrite bind_Return by apply run_scope_setitem_path_params.
      rewrite select_handler_run. simpl.
      destruct (dispatch _ _ _) as [app|e|]; simpl; [done| |done].
      destruct (decide _); done.
  - erewrite bind_Raise by exact Hf.
    rewrite (Ho e eq_refl). done.
  - by erewrite bind_Fault by exact Hf.
Qed.

(** Resolution reads the route map and never writes it. *)
Lemma find_node_frame path w : self (find_node path w).2 = self w.
Proof.
  destruct (find_node_shape path (self w)) as (o & f & _ & Hf).
  by rewrite (Hf w eq_refl).
Qed.

Lemma traverse_route_map_frame path w :
  self (_traverse_route_map path w).2 = self w.
Proof.
  unfold _traverse_route_map. erewrite bind_Return by reflexivity.
  destruct (traverse_loop_shape (components_of path) (_tree (self w), [])
              (self w)) as (o & f & _ & Hf).
  by rewrite (Hf w eq_refl).
Qed.

Lemma resolve_route_frame w : self (resolve_route w).2 = self w.
Proof.
  rewrite resolve_route_eq.
  pose proof (find_node_frame (normalized_path (scope_path (scope w))) w) as Hf.
  destruct (find_node _ w) as [[[cur pp]|e|] w1]; simpl in Hf; [|done..].
  destruct (objects (self w1) !! cur) as [n|]; [|done].
  destruct (data n) as [d|]; [|done].
  destruct (parse_path_params _ _); done.
Qed.

(** The outcome depends on [scope["path"]] through the normalized path
    only. *)
Lemma resolve_route_agree w1 w2 :
  agree_but_path w1 w2 →
  normalized_path (scope_path (scope w1))
  = normalized_path (scope_path (scope w2)) →
  observed (resolve_route w1) = observed (resolve_route w2).
Proof.
  intros (Hself & Hty & Hm & Hpp) Hpath. unfold observed.
  rewrite !resolve_route_eq, <- Hpath.
  destruct (find_node_shape (normalized_path (scope_path (scope w1))) (self w1))
    as (o & f & _ & Hf).
  rewrite (Hf w1 eq_refl), (Hf w2 (eq_sym Hself)).
  unfold set_scope_path, set_scope_path_params.
  destruct o as [[cur pp]|e|]; simpl; [|congruence..].
  rewrite <- Hself.
  destruct (objects (self w1) !! cur) as [n|]; simpl; [|congruence].
  destruct (data n) as [d|]; simpl; [|congruence].
  destruct (parse_path_params _ _); simpl; congruence.
Qed.

End ResolveRoute.

(** ** Facts about the string operations *)

#[local] Arguments String.append !_ _ / : simpl nomatch.

Section StringFacts.
Implicit Types (s t : string) (c : ascii) (P : ascii → bool).

Lemma append_nil_r s : s +:+ "" = s.
Proof. induction s as [|c s IH]; simpl; [done|]. by f_equal. Qed.

Lemma append_assoc s t u : (s +:+ t) +:+ u = s +:+ (t +:+ u).
Proof. induction s as [|c s IH]; simpl; [done|]. by f_equal. Qed.

Lemma append_eq_nil s t : s +:+ t = "" → s = "" ∧ t = "".
Proof. by destruct s. Qed.

Lemma lstrip_by_head P s c r : PyStr.lstrip_by P s = String c r → P c = false.
Proof.
  induction s as [|c' s IH]; simpl; [done|].
  destruct (P c') eqn:Hc; [done|]. by intros [= <- _].
Qed.

Lemma lstrip_by_idem P s :
  PyStr.lstrip_by P (PyStr.lstrip_by P s) = PyStr.lstrip_by P s.
Proof.
  induction s as [|c s IH]; simpl; [done|].
  destruct (P c) eqn:Hc; [done|]. simpl. by rewrite Hc.
Qed.

Lemma lstrip_by_app_all P s t :
  PyStr.lstrip_by P s = "" →
  PyStr.lstrip_by P (s +:+ t) = PyStr.lstrip_by P t.
Proof.
  induction s as [|c s IH]; simpl; [done|]. by destruct (P c).
Qed.

Lemma rstrip_by_tail P c s :
  PyStr.rstrip_by P (String c s) = String c s → PyStr.rstrip_by P s = s.
Proof.
  simpl. destruct (PyStr.rstrip_by P s) as [|c' r] eqn:Hr.
  - destruct (P c); [done|]. by intros [= <-].
  - by intros [= <-].
Qed.

Lemma rstrip_by_idem P s :
  PyStr.rstrip_by P (PyStr.rstrip_by P s) = PyStr.rstrip_by P s.
Proof.
  induction s as [|c s IH]; simpl; [done|].
  destruct (PyStr.rstrip_by P s) as [|c' r] eqn:Hr.
  - destruct (P c) eqn:Hc; simpl; [done|]. by rewrite Hc.
  - change (PyStr.rstrip_by P (String c (String c' r))) with
      (match PyStr.rstrip_by P (String c' r) with
       | "" => if P c then "" else String c ""
       | r' => String c r'
       end).
    by rewrite IH.
Qed.

Lemma rstrip_lstrip_by P t :
  PyStr.rstrip_by P t = t →
  PyStr.rstrip_by P (PyStr.lstrip_by P t) = PyStr.lstrip_by P t.
Proof.
  induction t as [|c t IH]; intros Ht; [done|].
  cbn [PyStr.lstrip_by]. destruct (P c); [|done].
  apply IH. by eapply rstrip_by_tail.
Qed.

(** [rstrip] of a concatenation. *)
Lemma rstrip_by_app P s t :
  PyStr.rstrip_by P (s +:+ t)
  = match PyStr.rstrip_by P t with
    | "" => PyStr.rstrip_by P s
    | r => s +:+ r
    end.
Proof.
  induction s as [|c s IH]; simpl.
  { by destruct (PyStr.rstrip_by P t). }
  rewrite IH. destruct (PyStr.rstrip_by P t); [done|].
  by destruct s.
Qed.

Lemma all_space_lstrip s :
  PyStr.all_space s = true → PyStr.lstrip_by PyStr.is_space s = "".
Proof.
  induction s as [|c s IH]; simpl; [done|].
  intros [-> Hs]%andb_prop. auto.
Qed.

Lemma all_space_rstrip s :
  PyStr.all_space s = true → PyStr.rstrip_by PyStr.is_space s = "".
Proof.
  induction s as [|c s IH]; simpl; [done|].
  intros [-> Hs]%andb_prop. by rewrite IH.
Qed.

Lemma strip_idem s : PyStr.strip (PyStr.strip s) = PyStr.strip s.
Proof.
  unfold PyStr.strip.
  rewrite (rstrip_lstrip_by _ (PyStr.rstrip_by _ s)) by apply rstrip_by_idem.
  apply lstrip_by_idem.
Qed.

(** Surrounding white space does not survive [strip]. *)
Lemma strip_surrounded ws1 s ws2 :
  PyStr.all_space ws1 = true → PyStr.all_space ws2 = true →
  PyStr.strip (ws1 +:+ s +:+ ws2) = PyStr.strip s.
Proof.
  intros H1 H2. unfold PyStr.strip.
  rewrite !rstrip_by_app, (all_space_rstrip ws2 H2).
  destruct (PyStr.rstrip_by PyStr.is_space s) as [|c r] eqn:Hr.
  - rewrite (all_space_rstrip ws1 H1). done.
  - by rewrite lstrip_by_app_all by by apply all_space_lstrip.
Qed.

Lemma strip_fixed_append s c :
  PyStr.strip s = s → s ≠ "" → PyStr.is_space c = false →
  PyStr.strip (s +:+ String c "") = s +:+ String c "".
Proof.
  intros Hs Hne Hc. unfold PyStr.strip.
  rewrite rstrip_by_app. simpl. rewrite Hc.
  destruct s as [|c0 s0]; [done|].
  apply lstrip_by_head in Hs. simpl. by rewrite Hs.
Qed.

Lemma endswith_append s t : PyStr.endswith (s +:+ t) t = true.
Proof.
  induction s as [|c s IH]; simpl.
  - change ("" +:+ t) with t. destruct t; [done|].
    cbn [PyStr.endswith]. by rewrite String.eqb_refl.
  - cbn [PyStr.endswith]. rewrite IH. apply orb_true_r.
Qed.

Lemma rstrip_no_suffix s c :
  PyStr.endswith s (String c "") = false →
  PyStr.rstrip s (String c "") = s.
Proof.
  unfold PyStr.rstrip.
  induction s as [|c' s IH]; [done|].
  cbn [PyStr.endswith]. intros [Hne Hs]%orb_false_elim.
  cbn [PyStr.rstrip_by]. rewrite (IH Hs).
  destruct s as [|c'' s'']; [|done].
  simpl. rewrite orb_false_r.
  destruct (Ascii.eqb c' c) eqn:Hcc; [|done].
  apply Ascii.eqb_eq in Hcc as ->. by rewrite String.eqb_refl in Hne.
Qed.

Lemma rstrip_repeat s c k :
  PyStr.rstrip (s +:+ PyStr.repeat (String c "") k) (String c "")
  = PyStr.rstrip s (String c "").
Proof.
  unfold PyStr.rstrip. rewrite rstrip_by_app.
  assert (PyStr.rstrip_by (λ c0, PyStr.mem_char c0 (String c ""))
            (PyStr.repeat (String c "") k) = "") as ->; [|done].
  induction k as [|k IH]; [done|].
  change (PyStr.repeat (String c "") (S k))
    with (String c (PyStr.repeat (String c "") k)).
  cbn [PyStr.rstrip_by]. rewrite IH. simpl. by rewrite Ascii.eqb_refl.
Qed.

Lemma repeat_snoc s k : PyStr.repeat s (S k) = PyStr.repeat s k +:+ s.
Proof.
  induction k as [|k IH]; [apply append_nil_r|].
  change (PyStr.repeat s (S (S k))) with (s +:+ PyStr.repeat s (S k)).
  rewrite IH at 1. rewrite <- append_assoc. done.
Qed.

End StringFacts.

(** ** Normalization of the request path *)

Section Normalization.

(** Any number of trailing slashes normalizes away, for a path that is
    neither empty nor the root and carries no surrounding white
    space. *)
Lemma normalized_path_trailing_slashes p k :
  PyStr.strip p = p → p ≠ "" → p ≠ "/" →
  normalized_path (p +:+ PyStr.repeat "/" k) = PyStr.rstrip p "/".
Proof.
  intros Hs Hne Hroot. unfold normalized_path.
  destruct k as [|k].
  { simpl. rewrite append_nil_r, Hs.
    rewrite bool_decide_eq_true_2 by done. simpl.
    destruct (PyStr.endswith p "/") eqn:He; [done|].
    by rewrite rstrip_no_suffix. }
  assert (PyStr.strip (p +:+ PyStr.repeat "/" (S k))
          = p +:+ PyStr.repeat "/" (S k)) as ->.
  { rewrite repeat_snoc, <- append_assoc.
    destruct k as [|k'].
    - simpl. rewrite append_nil_r. by apply strip_fixed_append.
    - unfold PyStr.strip. rewrite rstrip_by_app. simpl.
      destruct p as [|c0 p0]; [done|].
      apply lstrip_by_head in Hs. simpl. by rewrite Hs. }
  rewrite bool_decide_eq_true_2.
  2:{ destruct p as [|c0 [|c1 p1]]; [done| |done].
      simpl. destruct k; simpl; congruence. }
  rewrite repeat_snoc, <- append_assoc, endswith_append. simpl.
  rewrite append_assoc, <- repeat_snoc. apply rstrip_repeat.
Qed.

Lemma normalized_path_strip p :
  normalized_path (PyStr.strip p) = normalized_path p.
Proof. unfold normalized_path. by rewrite strip_idem. Qed.

End Normalization.

(** ** Writing the store during registration *)

Section Store.
Context `{Collaborators}.
Implicit Types (rm : PythonRouteMap) (cur a b : ref) (n : _RouteMapTree).

Lemma run_deref a rm n :
objects rm !! a = Some n → deref a rm = (Return n, rm).
Proof. unfold deref. by intros ->. Qed.

Lemma run_assign a rm n0 n :
objects rm !! a = Some n0 → assign a n rm = (Return tt, store_set a n rm).
Proof. unfold assign. by intros ->. Qed.

Lemma lookup_store_set a n rm n0 :
objects rm !! a = Some n0 → objects (store_set a n rm) !! a = Some n.
Proof.
intros Ha. simpl. apply list_lookup_insert_eq. by eapply lookup_lt_Some.
Qed.

Lemma lookup_store_set_ne a b n rm :
a ≠ b → objects (store_set a n rm) !! b = objects rm !! b.
Proof. intros Hne. simpl. by apply list_lookup_insert_ne. Qed.

Lemma store_set_twice a n1 n2 rm :
store_set a n2 (store_set a n1 rm) = store_set a n2 rm.
Proof. unfold store_set, with_objects. simpl. by rewrite list_insert_insert_eq. Qed.

Lemma store_set_same a n rm :
objects rm !! a = Some n → store_set a n rm = rm.
Proof.
intros Ha. unfold store_set, with_objects. rewrite list_insert_id by done.
by destruct rm.
Qed.

Lemma run_get_data_store a rm n :
objects rm !! a = Some n → get_data a rm = (Return (data n), rm).
Proof.
intros Ha. unfold get_data. by erewrite bind_Return by (by apply run_deref).
Qed.

Lemma run_set_data a rm n d :
objects rm !! a = Some n →
set_data a d rm = (Return tt, store_set a (with_data d n) rm).
Proof.
intros Ha. unfold set_data. erewrite bind_Return by (by apply run_deref).
by eapply run_assign.
Qed.

Lemma run_update_data a rm n d f :
objects rm !! a = Some n → data n = Some d →
update_data a f rm = (Return tt, store_set a (with_data (Some (f d)) n) rm).
Proof.
intros Ha Hd. unfold update_data. erewrite bind_Return by (by apply run_deref).
rewrite Hd. by eapply run_assign.
Qed.

(** *** [extends] *)

Lemma extends_refl rm : extends rm rm.
Proof. split; [done|]. split; [done|]. eauto. Qed.

Lemma extends_trans rm1 rm2 rm3 :
extends rm1 rm2 → extends rm2 rm3 → extends rm1 rm3.
Proof.
intros (Ht1 & Hp1 & Ho1) (Ht2 & Hp2 & Ho2). split; [congruence|].
split; [by etrans|]. intros a n Ha.
destruct (Ho1 a n Ha) as (n' & Ha' & Hc).
destruct (Ho2 a n' Ha') as (n'' & Ha'' & Hc').
exists n''. split; [done|]. by etrans.
Qed.

Lemma extends_child rm rm' a k b :
extends rm rm' → child rm a k = Some b → child rm' a k = Some b.
Proof.
intros (_ & _ & Ho). unfold child.
destruct (objects rm !! a) as [n|] eqn:Ha; [|done]. simpl. intros Hk.
destruct (Ho a n Ha) as (n' & Ha' & Hc). rewrite Ha'. simpl.
by eapply lookup_weaken.
Qed.

Lemma extends_follow rm rm' ks a b :
extends rm rm' → follow rm a ks = Some b → follow rm' a ks = Some b.
Proof.
intros Hext. revert a. induction ks as [|k ks IH]; intros a; [done|].
simpl. destruct (child rm a k) as [c|] eqn:Hc; [|done]. simpl.
rewrite (extends_child _ _ _ _ _ Hext Hc). simpl. apply IH.
Qed.

Lemma extends_store_set a n n' rm :
objects rm !! a = Some n → children n ⊆ children n' →
extends rm (store_set a n' rm).
Proof.
intros Ha Hc. split; [done|]. split; [done|]. intros b nb Hb.
destruct (decide (a = b)) as [<-|Hne].
- exists n'. rewrite (lookup_store_set _ _ _ _ Ha). split; [done|].
  by replace nb with n by congruence.
- exists nb. by rewrite lookup_store_set_ne.
Qed.

Lemma extends_new_tree rm : extends rm (new_tree rm).2.
Proof.
split; [done|]. split; [done|]. intros a n Ha. exists n. split; [|done].
simpl. by apply lookup_app_l_Some.
Qed.

Lemma lookup_new_tree rm :
objects (new_tree rm).2 !! length (objects rm) = Some empty_tree.
Proof. simpl. by rewrite lookup_app_r, Nat.sub_diag by lia. Qed.

(** *** [children_getitem] *)

Lemma run_children_getitem_store cur k rm b :
child rm cur k = Some b → children_getitem cur k rm = (Return b, rm).
Proof.
unfold child. destruct (objects rm !! cur) as [n|] eqn:Hn; [|done].
simpl. intros Hk. unfold children_getitem.
erewrite bind_Return by (by apply run_deref). by rewrite Hk.
Qed.

Lemma children_getitem_inv cur k rm o rm' :
children_getitem cur k rm = (o, rm') →
extends rm rm'
∧ match o with
  | Return b => child rm' cur k = Some b
  | Raise _ => False
  | Fault => objects rm !! cur = None ∧ rm' = rm
  end.
Proof.
unfold children_getitem, bind at 1, deref.
destruct (objects rm !! cur) as [n|] eqn:Hn.
2:{ intros [= <- <-]. split; [apply extends_refl|done]. }
destruct (children n !! k) as [b|] eqn:Hk.
{ intros [= <- <-]. split; [apply extends_refl|].
  unfold child. by rewrite Hn. }
erewrite bind_Return by reflexivity.
assert (objects (new_tree rm).2 !! cur = Some n) as Hn'.
{ simpl. by apply lookup_app_l_Some. }
erewrite bind_Return by (by eapply run_assign). intros [= <- <-].
split.
- eapply extends_trans; [apply extends_new_tree|].
  eapply extends_store_set; [done|]. simpl.
  by apply insert_subseteq.
- unfold child. rewrite (lookup_store_set _ _ _ _ Hn'). simpl.
  by rewrite lookup_insert_eq.
Qed.

(** *** The descent of [add_routes] *)

Lemma descend_cons c cs cur rm :
descend (c :: cs) cur rm
= match children_getitem cur c rm with
  | (Return b, rm') => descend cs b rm'
  | (Raise e, rm') => (Raise e, rm')
  | (Fault, rm') => (Fault, rm')
  end.
Proof. reflexivity. Qed.

Lemma descend_extends cs cur rm o rm' :
descend cs cur rm = (o, rm') → extends rm rm'.
Proof.
revert cur rm. induction cs as [|c cs IH]; intros cur rm.
{ intros [= <- <-]. apply extends_refl. }
rewrite descend_cons.
destruct (children_getitem cur c rm) as [o1 rm1] eqn:Hget.
apply children_getitem_inv in Hget as [Hext Ho1].
destruct o1 as [b|e|]; [|done|].
- intros Hd. eapply extends_trans; [done|]. by eapply IH.
- by intros [= <- <-].
Qed.

(** Descending twice along the same components ends at the same
  object, and the second descent creates nothing. *)
Lemma descend_stable cs cur rm b rm' rm'' :
descend cs cur rm = (Return b, rm') → extends rm' rm'' →
descend cs cur rm'' = (Return b, rm'').
Proof.
revert cur rm. induction cs as [|c cs IH]; intros cur rm.
{ by intros [= <- <-] _. }
rewrite !descend_cons.
destruct (children_getitem cur c rm) as [o1 rm1] eqn:Hget.
apply children_getitem_inv in Hget as [Hext Ho1].
destruct o1 as [b1|e|]; [|done..].
intros Hd Hext'.
pose proof (descend_extends _ _ _ _ _ Hd) as Hext1.
rewrite (run_children_getitem_store cur c rm'' b1).
- by eapply IH.
- eapply extends_child; [|done]. by eapply extends_trans.
Qed.

Lemma descend_follow cs cur rm b rm' :
descend cs cur rm = (Return b, rm') → follow rm' cur cs = Some b.
Proof.
revert cur rm. induction cs as [|c cs IH]; intros cur rm.
{ by intros [= <- <-]. }
rewrite descend_cons.
destruct (children_getitem cur c rm) as [o1 rm1] eqn:Hget.
apply children_getitem_inv in Hget as [Hext Ho1].
destruct o1 as [b1|e|]; [|done..].
intros Hd. simpl.
rewrite (extends_child rm1 rm' cur c b1); [|by eapply descend_extends|done].
simpl. by eapply IH.
Qed.

End Store.

(** ** Storing a route *)

Section Registration.
Context `{Collaborators}.
Implicit Types (rm : PythonRouteMap) (cur a b : ref) (n : _RouteMapTree).
Implicit Types (d : _RouteMapLeafData) (route : BaseRoute Handler ParamKind).

Lemma with_data_id n d : data n = Some d → with_data (Some d) n = n.
Proof. destruct n. simpl. by intros ->. Qed.

Lemma with_asgi_handlers_id d : with_asgi_handlers (asgi_handlers d) d = d.
Proof. by destruct d. Qed.

(** The store in which [cur] holds [n] with leaf data [d]. *)
Lemma store_at_leaf cur rm n d :
  objects rm !! cur = Some n → data n = Some d →
  rm = store_set cur (with_data (Some d) n) rm.
Proof.
  intros Hn Hd. rewrite (with_data_id _ _ Hd). by rewrite store_set_same.
Qed.

Lemma run_update_data_at cur rm n d f :
  objects rm !! cur = Some n →
  update_data cur f (store_set cur (with_data (Some d) n) rm)
  = (Return tt, store_set cur (with_data (Some (f d)) n) rm).
Proof.
  intros Hn.
  erewrite run_update_data; [|by eapply lookup_store_set|done].
  by rewrite store_set_twice.
Qed.

Lemma run_set_handler_at cur rm n d k v :
  objects rm !! cur = Some n →
  set_handler cur k v (store_set cur (with_data (Some d) n) rm)
  = (Return tt,
     store_set cur
       (with_data (Some (with_asgi_handlers (<[k := v]> (asgi_handlers d)) d)) n)
       rm).
Proof. intros Hn. unfold set_handler. by rewrite run_update_data_at. Qed.

Lemma run_install_loop cur route l rm n d :
  objects rm !! cur = Some n →
  for_in l (λ _ '(method, handler),
              set_handler cur method
                (build_route_middleware_stack route handler)) tt
    (store_set cur (with_data (Some d) n) rm)
  = (Return tt,
     store_set cur
       (with_data
          (Some (with_asgi_handlers (install route (asgi_handlers d) l) d)) n)
       rm).
Proof.
  intros Hn. revert d. induction l as [|[m h] l IH]; intros d.
  { simpl. by rewrite with_asgi_handlers_id. }
  rewrite for_in_cons, run_set_handler_at by done.
  rewrite IH. done.
Qed.

Lemma lookup_install_list route hs (l : list (string * Handler)) k :
  NoDup l.*1 →
  install route hs l !! k
  = match (list_to_map l : gmap string Handler) !! k with
    | Some h => Some (build_route_middleware_stack route h)
    | None => hs !! k
    end.
Proof.
  revert hs. induction l as [|[m h] l IH]; intros hs Hnd; [done|].
  apply NoDup_cons in Hnd as [Hm Hnd].
  unfold install in *. simpl. rewrite IH by done.
  destruct (decide (m = k)) as [->|Hne].
  - rewrite lookup_insert_eq.
    rewrite (not_elem_of_list_to_map_1 l k Hm). by rewrite lookup_insert_eq.
  - rewrite !lookup_insert_ne by done. done.
Qed.

Lemma lookup_install route hs (rhm : gmap string Handler) k :
  install route hs (map_to_list rhm) !! k
  = match rhm !! k with
    | Some h => Some (build_route_middleware_stack route h)
    | None => hs !! k
    end.
Proof.
  rewrite lookup_install_list by apply NoDup_fst_map_to_list.
  by rewrite list_to_map_to_list.
Qed.

End Registration.

Section StoreRoute.
Context `{Collaborators}.
Implicit Types (rm : PythonRouteMap) (cur a b : ref) (n : _RouteMapTree).
Implicit Types (d : _RouteMapLeafData) (route : BaseRoute Handler ParamKind).

Lemma stored_leaf_path_parameters app route path d0 :
  path_parameters (stored_leaf app route path d0) = route_path_parameters route.
Proof.
  unfold stored_leaf. destruct (route_kind route), (bool_decide _); done.
Qed.

Lemma stored_leaf_handlers app route path d0 k :
  asgi_handlers (stored_leaf app route path d0) !! k
  = handler_after route (asgi_handlers d0) k.
Proof.
  unfold stored_leaf, handler_after.
  destruct (route_kind route) as [rhm|h|h|t]; simpl.
  - rewrite lookup_install. by destruct (bool_decide _).
  - destruct (decide (k = ScopeType_WEBSOCKET)) as [->|Hne].
    + by rewrite lookup_insert_eq.
    + rewrite lookup_insert_ne by done. by destruct (bool_decide _).
  - destruct (decide (k = ScopeType_ASGI)) as [->|Hne].
    + by rewrite lookup_insert_eq.
    + rewrite lookup_insert_ne by done. by destruct (bool_decide _).
  - by destruct (bool_decide _).
Qed.

Lemma stored_leaf_is_asgi app route path d0 :
  is_asgi (stored_leaf app route path d0)
  = is_asgi d0 || bool_decide (path ∈ static_paths app) || is_asgi_route route.
Proof.
  unfold stored_leaf, is_asgi_route.
  destruct (route_kind route), (bool_decide _); simpl;
    destruct (is_asgi d0); done.
Qed.

Lemma stored_leaf_static_path app route path d0 :
  static_path (stored_leaf app route path d0)
  = if bool_decide (path ∈ static_paths app) then path else static_path d0.
Proof.
  unfold stored_leaf. destruct (route_kind route), (bool_decide _); done.
Qed.

(** [store_route] on a leaf that exists. *)
Lemma store_route_some app route cur path rm n d0 :
  objects rm !! cur = Some n → data n = Some d0 →
  store_route app route cur path rm
  = if bool_decide (path_parameters d0 ≠ [])
       && bool_decide (path_parameters d0 ≠ route_path_parameters route)
    then (Raise (Exn ImproperlyConfiguredException
                     ["Routes with conflicting path parameters"]), rm)
    else
      (match route_kind route with
       | OtherRoute type_repr =>
           Raise (Exn ImproperlyConfiguredException
                      ["Unknown route type " +:+ type_repr +:+ ")"])
       | _ => Return tt
       end,
       store_set cur (with_data (Some (stored_leaf app route path d0)) n) rm).
Proof.
  intros Hn Hd. unfold store_route.
  erewrite bind_Return by (by apply run_get_data_store). rewrite Hd.
  erewrite bind_Return by reflexivity.
  erewrite bind_Return by (by apply run_get_data_store). rewrite Hd.
  destruct (_ && _); [done|].
  rewrite (store_at_leaf cur rm n d0 Hn Hd) at 1.
  erewrite bind_Return by (by apply run_update_data_at).
  unfold stored_leaf.
  destruct (bool_decide (path ∈ static_paths app)).
  - erewrite bind_Return.
    2:{ erewrite bind_Return by (by apply run_update_data_at).
        by apply run_update_data_at. }
    destruct (route_kind route) as [rhm|h|h|t].
    + by rewrite run_install_loop.
    + by rewrite run_set_handler_at.
    + erewrite bind_Return by (by apply run_set_handler_at).
      by rewrite run_update_data_at.
    + done.
  - erewrite bind_Return by reflexivity.
    destruct (route_kind route) as [rhm|h|h|t].
    + by rewrite run_install_loop.
    + by rewrite run_set_handler_at.
    + erewrite bind_Return by (by apply run_set_handler_at).
      by rewrite run_update_data_at.
    + done.
Qed.

(** [store_route] on a tree object without leaf data first gives it a
    fresh leaf. *)
Lemma store_route_none app route cur path rm n :
  objects rm !! cur = Some n → data n = None →
  store_route app route cur path rm
  = store_route app route cur path
      (store_set cur (with_data (Some new_leaf_data) n) rm).
Proof.
  intros Hn Hd.
  assert (objects (store_set cur (with_data (Some new_leaf_data) n) rm) !! cur
          = Some (with_data (Some new_leaf_data) n)) as Hn'.
  { by eapply lookup_store_set. }
  unfold store_route.
  erewrite bind_Return by (by apply run_get_data_store). rewrite Hd.
  erewrite bind_Return by (by apply run_set_data).
  symmetry.
  erewrite bind_Return by (by apply run_get_data_store). simpl.
  erewrite bind_Return by reflexivity. done.
Qed.

Lemma store_route_dangling app route cur path rm :
  objects rm !! cur = None →
  store_route app route cur path rm = (Fault, rm).
Proof.
  intros Hn. unfold store_route, get_data.
  erewrite bind_Fault; [done|]. erewrite bind_Fault; [done|].
  unfold deref. by rewrite Hn.
Qed.

Lemma store_route_eq app route cur path rm n :
  objects rm !! cur = Some n →
  store_route app route cur path rm
  = if bool_decide (path_parameters (found_leaf n) ≠ [])
       && bool_decide (path_parameters (found_leaf n)
                       ≠ route_path_parameters route)
    then (Raise (Exn ImproperlyConfiguredException
                     ["Routes with conflicting path parameters"]), rm)
    else
      (match route_kind route with
       | OtherRoute type_repr =>
           Raise (Exn ImproperlyConfiguredException
                      ["Unknown route type " +:+ type_repr +:+ ")"])
       | _ => Return tt
       end,
       store_set cur
         (with_data (Some (stored_leaf app route path (found_leaf n))) n) rm).
Proof.
  intros Hn. unfold found_leaf. destruct (data n) as [d0|] eqn:Hd; simpl.
  { by apply store_route_some. }
  rewrite (store_route_none _ _ _ _ _ _ Hn Hd).
  erewrite store_route_some; [|by eapply lookup_store_set|done].
  simpl. by rewrite store_set_twice.
Qed.

End StoreRoute.

(** ** Locating the tree object of a route *)

Section Locate.
Context `{Collaborators}.
Implicit Types (rm : PythonRouteMap) (cur a b : ref) (n : _RouteMapTree).
Implicit Types (d : _RouteMapLeafData) (route : BaseRoute Handler ParamKind).

Lemma run_plain_routes_getitem_store p rm b :
  _plain_routes rm !! p = Some b → plain_routes_getitem p rm = (Return b, rm).
Proof.
  intros Hp. unfold plain_routes_getitem.
  erewrite bind_Return by reflexivity. by rewrite Hp.
Qed.

Lemma plain_routes_getitem_inv p rm o rm' :
  plain_routes_getitem p rm = (o, rm') →
  extends rm rm'
  ∧ ∃ b, o = Return b ∧ _plain_routes rm' !! p = Some b
         ∧ (_plain_routes rm !! p = Some b ∧ rm' = rm
            ∨ _plain_routes rm !! p = None
              ∧ objects rm' !! b = Some empty_tree).
Proof.
  unfold plain_routes_getitem. erewrite bind_Return by reflexivity.
  destruct (_plain_routes rm !! p) as [b|] eqn:Hp.
  { intros [= <- <-]. split; [apply extends_refl|]. exists b. auto. }
  erewrite bind_Return by reflexivity.
  erewrite bind_Return by reflexivity.
  erewrite bind_Return by reflexivity.
  intros [= <- <-]. split.
  - split; [done|]. split.
    + simpl. by apply insert_subseteq.
    + intros a n Ha. exists n. split; [|done]. simpl.
      by apply lookup_app_l_Some.
  - exists (length (objects rm)). split; [done|]. split.
    + simpl. by rewrite lookup_insert_eq.
    + right. split; [done|]. apply lookup_new_tree.
Qed.

Lemma locate_node_eq app route rm :
  locate_node app route rm
  = match position app route with
    | inl cs =>
        match descend cs (_tree rm) rm with
        | (Return cur, rm') => (Return (cur, stored_path app route), rm')
        | (Raise e, rm') => (Raise e, rm')
        | (Fault, rm') => (Fault, rm')
        end
    | inr p =>
        match plain_routes_getitem p rm with
        | (Return cur, rm') => (Return (cur, stored_path app route), rm')
        | (Raise e, rm') => (Raise e, rm')
        | (Fault, rm') => (Fault, rm')
        end
    end.
Proof.
  unfold locate_node, position, stored_path.
  destruct (_ || _).
  - erewrite bind_Return by reflexivity. fold (wildcard_path route).
    unfold bind, descend.
    by destruct (for_in _ _ _ _) as [[?|?|] ?].
  - unfold bind. by destruct (plain_routes_getitem _ _) as [[?|?|] ?].
Qed.

Lemma locate_node_extends app route rm o rm' :
  locate_node app route rm = (o, rm') → extends rm rm'.
Proof.
  rewrite locate_node_eq. destruct (position app route) as [cs|p].
  - destruct (descend cs (_tree rm) rm) as [o1 rm1] eqn:Hd.
    apply descend_extends in Hd. by destruct o1; intros [= <- <-].
  - destruct (plain_routes_getitem p rm) as [o1 rm1] eqn:Hg.
    apply plain_routes_getitem_inv in Hg as [Hext _].
    by destruct o1; intros [= <- <-].
Qed.

(** Two routes with the same position are stored at the same tree
    object, and locating the second one creates nothing. *)
Lemma locate_node_stable app route route' rm cur p rm' rm'' :
  locate_node app route rm = (Return (cur, p), rm') →
  position app route' = position app route →
  extends rm' rm'' →
  locate_node app route' rm'' = (Return (cur, stored_path app route'), rm'').
Proof.
  rewrite !locate_node_eq. intros Hloc -> Hext.
  destruct (position app route) as [cs|q].
  - destruct (descend cs (_tree rm) rm) as [[b|e|] rm1] eqn:Hd; [|done..].
    injection Hloc as <- _ <-.
    assert (_tree rm'' = _tree rm) as ->.
    { destruct Hext as [-> _]. apply descend_extends in Hd. by destruct Hd. }
    by rewrite (descend_stable _ _ _ _ _ _ Hd Hext).
  - destruct (plain_routes_getitem q rm) as [o1 rm1] eqn:Hg.
    apply plain_routes_getitem_inv in Hg as [_ (b & -> & Hb & _)].
    injection Hloc as <- _ <-.
    rewrite (run_plain_routes_getitem_store q rm'' b); [done|].
    destruct Hext as (_ & Hp & _). by eapply lookup_weaken.
Qed.

(** *** [add_route] and [add_routes] *)

Lemma add_routes_cons app route routes rm :
  add_routes app (route :: routes) rm
  = match add_route app route rm with
    | (Return _, rm') => add_routes app routes rm'
    | (Raise e, rm') => (Raise e, rm')
    | (Fault, rm') => (Fault, rm')
    end.
Proof.
  unfold add_routes. rewrite for_in_cons.
  by destruct (add_route app route rm) as [[[]|?|] ?].
Qed.

Lemma add_routes_one app route rm :
  add_routes app [route] rm = add_route app route rm.
Proof.
  rewrite add_routes_cons.
  by destruct (add_route app route rm) as [[[]|?|] ?].
Qed.

Lemma add_route_eq app route rm :
  add_route app route rm
  = match locate_node app route rm with
    | (Return (cur, path), rm0) => store_route app route cur path rm0
    | (Raise e, rm0) => (Raise e, rm0)
    | (Fault, rm0) => (Fault, rm0)
    end.
Proof.
  unfold add_route, bind.
  by destruct (locate_node app route rm) as [[[? ?]|?|] ?].
Qed.

(** What a successful [add_route] did. *)
Lemma add_route_inv app route rm rm1 :
  add_route app route rm = (Return tt, rm1) →
  ∃ cur rm0 n0,
    locate_node app route rm = (Return (cur, stored_path app route), rm0)
    ∧ objects rm0 !! cur = Some n0
    ∧ (path_parameters (found_leaf n0) = []
       ∨ path_parameters (found_leaf n0) = route_path_parameters route)
    ∧ is_known_route route
    ∧ rm1 = store_set cur
              (with_data
                 (Some (stored_leaf app route (stored_path app route)
                          (found_leaf n0))) n0) rm0.
Proof.
  rewrite add_route_eq.
  destruct (locate_node app route rm) as [[[cur path]|e|] rm0] eqn:Hloc;
    [|done..].
  assert (path = stored_path app route) as ->.
  { rewrite locate_node_eq in Hloc.
    destruct (position app route).
    - by destruct (descend _ _ _) as [[?|?|] ?]; simplify_eq.
    - by destruct (plain_routes_getitem _ _) as [[?|?|] ?]; simplify_eq. }
  destruct (objects rm0 !! cur) as [n0|] eqn:Hn.
  2:{ by rewrite store_route_dangling. }
  rewrite (store_route_eq _ _ _ _ _ _ Hn).
  destruct (bool_decide (path_parameters (found_leaf n0) ≠ [])) eqn:He;
    [destruct (bool_decide (path_parameters (found_leaf n0)
                            ≠ route_path_parameters route)) eqn:Hc|];
    simpl; [done| |].
  - apply bool_decide_eq_false_1 in Hc. apply dec_stable in Hc.
    unfold is_known_route.
    destruct (route_kind route); intros [= <-]; by eauto 10.
  - apply bool_decide_eq_false_1 in He. apply dec_stable in He.
    unfold is_known_route.
    destruct (route_kind route); intros [= <-]; by eauto 10.
Qed.

End Locate.

(** ** A second registration at the position of a first *)

Section Pairs.
Context `{Collaborators}.
Implicit Types (rm : PythonRouteMap) (cur a b : ref) (n : _RouteMapTree).
Implicit Types (d : _RouteMapLeafData) (route : BaseRoute Handler ParamKind).

Lemma registers_handler_after route k h hs :
  registers route k h →
  handler_after route hs k = Some (build_route_middleware_stack route h).
Proof.
  unfold registers, handler_after. destruct (route_kind route); [| | |done].
  - by intros ->.
  - intros [-> ->]. by rewrite decide_True.
  - intros [-> ->]. by rewrite decide_True.
Qed.


Lemma leaf_store_set cur n rm n0 :
  objects rm !! cur = Some n0 → leaf (store_set cur n rm) cur = data n.
Proof. intros Hn. unfold leaf. by erewrite lookup_store_set. Qed.

(** After a first route was stored, a second route with the same
    position is stored at the same tree object, on the leaf the first
    one left there. *)
Lemma second_registration app r1 r2 rm rm1 :
  position app r2 = position app r1 →
  add_route app r1 rm = (Return tt, rm1) →
  ∃ cur n1 d1,
    objects rm1 !! cur = Some n1 ∧ data n1 = Some d1
    ∧ path_parameters d1 = route_path_parameters r1
    ∧ (∀ k, ∃ hs, asgi_handlers d1 !! k = handler_after r1 hs k)
    ∧ add_route app r2 rm1
      = store_route app r2 cur (stored_path app r2) rm1.
Proof.
  intros Hpos Hadd.
  apply add_route_inv in Hadd as (cur & rm0 & n0 & Hloc & Hn0 & _ & _ & ->).
  eexists cur, _, _. split; [by eapply lookup_store_set|].
  split; [done|]. split; [apply stored_leaf_path_parameters|]. split.
  { intros k. eexists. apply stored_leaf_handlers. }
  rewrite add_route_eq.
  erewrite locate_node_stable; [done|exact Hloc|done|].
  by eapply extends_store_set.
Qed.


End Pairs.

(** ** Mounts *)

Section Mount.
Context `{Collaborators}.
Implicit Types (w : World) (rm : PythonRouteMap) (cur a b : ref).




End Mount.

(** ** Properties of resolution *)

Section ResolutionClaims.
Context `{Collaborators}.
Implicit Types (w : World) (rm : PythonRouteMap) (cur : ref).

(** C6: [resolve_route] and [_traverse_route_map] leave the route map
    as they found it, whatever the outcome: the store of tree objects
    (children and leaf data), the plain-route map and the root are the
    same after the call, so no child is created by a [defaultdict] read
    and no leaf data is written. *)
Theorem resolution_leaves_route_map_unchanged w path :
  self (resolve_route w).2 = self w
  ∧ self (_traverse_route_map path w).2 = self w.
Proof.
  split; [apply resolve_route_frame | apply traverse_route_map_frame].
Qed.

(** C3 (amended): the lookup path is the white-space-stripped request
    path with every trailing slash removed, unless that stripped path
    is exactly the root; so a path [p] (not empty, not the root, no
    surrounding white space) followed by any number of slashes
    resolves exactly as [p] does. *)
Theorem trailing_slashes_resolve_alike w p k :
  PyStr.strip p = p → p ≠ "" → p ≠ "/" →
  normalized_path (p +:+ PyStr.repeat "/" k) = PyStr.rstrip p "/"
  ∧ normalized_path "/" = "/"
  ∧ observed (resolve_route (set_scope_path (p +:+ PyStr.repeat "/" k) w))
    = observed (resolve_route (set_scope_path p w)).
Proof.
  intros Hs Hne Hroot. split; [by apply normalized_path_trailing_slashes|].
  split; [done|].
  apply resolve_route_agree; [done|]. simpl.
  rewrite normalized_path_trailing_slashes by done.
  rewrite <- (normalized_path_trailing_slashes p 0) by done.
  simpl. by rewrite append_nil_r.
Qed.

(** C9: surrounding white space is stripped from [scope["path"]]
    before anything else: a path wrapped in white space has the lookup
    path of the bare path and resolves exactly as it does; and the
    slashes that end the path once the white space is gone are
    stripped too. *)
Theorem surrounding_whitespace_is_stripped_first w ws1 p ws2 :
  PyStr.all_space ws1 = true → PyStr.all_space ws2 = true →
  normalized_path (ws1 +:+ p +:+ ws2) = normalized_path p
  ∧ observed (resolve_route (set_scope_path (ws1 +:+ p +:+ ws2) w))
    = observed (resolve_route (set_scope_path p w))
  ∧ (∀ k, PyStr.strip p = p → p ≠ "" → p ≠ "/" →
       normalized_path (ws1 +:+ (p +:+ PyStr.repeat "/" k) +:+ ws2)
       = PyStr.rstrip p "/").
Proof.
  intros H1 H2.
  assert (∀ q, normalized_path (ws1 +:+ q +:+ ws2) = normalized_path q) as Hn.
  { intros q. unfold normalized_path. by rewrite strip_surrounded. }
  split; [apply Hn|]. split.
  - apply resolve_route_agree; [done|]. simpl. apply Hn.
  - intros k Hs Hne Hroot. rewrite Hn.
    by apply normalized_path_trailing_slashes.
Qed.

(** C4 (amended): at a leaf that is not a mount, for an HTTP scope
    with a method, the path parameters are parsed before the method is
    looked at.  When the parser raises, [resolve_route] raises the
    parser's exception, whatever the method (a [KeyError] as
    [NotFoundException]).  When the parser returns, a method the leaf
    holds no handler for makes [resolve_route] raise
    [MethodNotAllowedException], constructed without arguments (it
    carries no list of allowed methods), and a method the leaf holds a
    handler for makes it return that handler. *)
Theorem http_method_dispatch w cur pp w1 n d m :
  find_node (normalized_path (scope_path (scope w))) w = (Return (cur, pp), w1) →
  objects (self w1) !! cur = Some n → data n = Some d →
  is_asgi d = false →
  scope_type (scope w) = ScopeType_HTTP →
  scope_method (scope w) = Some m →
  (resolve_route w).1
  = match parse_path_params (path_parameters d) pp with
    | inl e =>
        Raise (if decide (exn_cls e = KeyError)
               then Exn NotFoundException [] else e)
    | inr _ =>
        match asgi_handlers d !! m with
        | Some app => Return app
        | None => Raise (Exn MethodNotAllowedException [])
        end
    end.
Proof.
  intros Hfind Hn Hd Hasgi Hty Hm.
  rewrite resolve_route_eq, Hfind, Hn, Hd.
  destruct (parse_path_params (path_parameters d) pp) as [e|v]; simpl.
  { by destruct (decide _). }
  destruct (find_node_shape (normalized_path (scope_path (scope w))) (self w))
    as (o & f & _ & Hf).
  rewrite (Hf w eq_refl) in Hfind. injection Hfind as _ <-. simpl.
  unfold dispatch. rewrite Hasgi, Hty, Hm.
  rewrite bool_decide_eq_true_2 by done.
  by destruct (asgi_handlers d !! m).
Qed.

(** C10: at a leaf found for the path, a failed lookup of the [ASGI]
    key (mount without [ASGI] handler) or of the [WEBSOCKET] key
    (websocket scope, no websocket handler) ends in
    [NotFoundException]; and [MethodNotAllowedException] comes out of
    [resolve_route] only for an HTTP scope whose method is missing at
    a leaf that is not a mount (given a parser that does not raise it
    itself). *)
Theorem key_lookup_failures w :
  (∀ cur pp w1 n d v,
     find_node (normalized_path (scope_path (scope w))) w
     = (Return (cur, pp), w1) →
     objects (self w1) !! cur = Some n → data n = Some d →
     parse_path_params (path_parameters d) pp = inr v →
     (is_asgi d = true → asgi_handlers d !! ScopeType_ASGI = None →
      (resolve_route w).1 = Raise (Exn NotFoundException []))
     ∧ (is_asgi d = false →
        scope_type (scope w) = ScopeType_WEBSOCKET →
        ScopeType_WEBSOCKET ≠ ScopeType_HTTP →
        asgi_handlers d !! ScopeType_WEBSOCKET = None →
        (resolve_route w).1 = Raise (Exn NotFoundException [])))
  ∧ (∀ e,
       (∀ defs raw e', parse_path_params defs raw = inl e' →
                       exn_cls e' ≠ MethodNotAllowedException) →
       (resolve_route w).1 = Raise e →
       exn_cls e = MethodNotAllowedException →
       ∃ cur pp w1 n d m,
         find_node (normalized_path (scope_path (scope w))) w
         = (Return (cur, pp), w1)
         ∧ objects (self w1) !! cur = Some n ∧ data n = Some d
         ∧ is_asgi d = false
         ∧ scope_type (scope w) = ScopeType_HTTP
         ∧ scope_method (scope w) = Some m
         ∧ asgi_handlers d !! m = None).
Proof.
  destruct (find_node_shape (normalized_path (scope_path (scope w))) (self w))
    as (o & f & Ho & Hf).
  specialize (Hf w eq_refl). split.
  - intros cur pp w1 n d v Hfind Hn Hd Hparse.
    rewrite resolve_route_eq, Hfind, Hn, Hd, Hparse. simpl.
    rewrite Hf in Hfind. injection Hfind as _ <-. simpl.
    unfold dispatch. split.
    + intros -> ->. done.
    + intros -> -> Hne ->.
      rewrite bool_decide_eq_false_2 by done. done.
  - intros e Hparser. rewrite resolve_route_eq, Hf.
    destruct o as [[cur pp]|e0|]; simpl.
    2:{ intros [= <-]. by rewrite (Ho e0 eq_refl). }
    2:{ done. }
    destruct (objects (self w) !! cur) as [n|] eqn:Hn; simpl; [|done].
    destruct (data n) as [d|] eqn:Hd; simpl.
    2:{ by intros [= <-]. }
    destruct (parse_path_params _ _) as [e'|v] eqn:Hparse; simpl.
    { destruct (decide _); intros [= <-]; [done|].
      intros Hcls. by apply Hparser in Hparse. }
    unfold dispatch.
    destruct (is_asgi d) eqn:Hasgi.
    { destruct (asgi_handlers d !! ScopeType_ASGI); simpl; [done|].
      by intros [= <-]. }
    destruct (bool_decide (scope_type (scope w) = ScopeType_HTTP)) eqn:Hty.
    2:{ destruct (asgi_handlers d !! ScopeType_WEBSOCKET); simpl; [done|].
        by intros [= <-]. }
    apply bool_decide_eq_true_1 in Hty.
    destruct (scope_method (scope w)) as [m|] eqn:Hm; simpl.
    2:{ by intros [= <-]. }
    destruct (asgi_handlers d !! m) eqn:Hh; simpl; [done|].
    intros _ _. by exists cur, pp, (set_scope_path (f (scope_path (scope w))) w), n, d, m.
Qed.

(** C5: the descent only moves forward, and the resolver takes its
    result as it is.  When the loop of [_traverse_route_map] has walked
    the components [pre] of the path and stands at a node, the next
    component [c] decides alone where the walk goes on: to the child
    named [c] if there is one, whatever else the node holds; failing
    that, to the wildcard child, with [c] appended to the wildcard
    values; failing that, a mount absorbs [c].  The result of
    [_traverse_route_map] is the result of walking the remaining
    components from there, a failure included, and for a path that is no
    plain route [resolve_route] answers from that result: a failed walk,
    or a walk that ends at a node without leaf data, is
    [NotFoundException], and no sibling of a branch taken is tried. *)
Theorem descent_is_forward_only w path pre c rest cur pp w1 n :
  components_of path = (pre ++ c :: rest)%list →
  for_in pre traverse_step (_tree (self w), []) w = (Return (cur, pp), w1) →
  objects (self w) !! cur = Some n →
  (∀ b, children n !! c = Some b →
     _traverse_route_map path w = for_in rest traverse_step (b, pp) w1)
  ∧ (∀ b, children n !! c = None → children n !! "*" = Some b →
       _traverse_route_map path w
       = for_in rest traverse_step (b, (pp ++ [c])%list) w1)
  ∧ (∀ d, children n !! c = None → children n !! "*" = None →
       data n = Some d → PyStr.truthy (static_path d) = true →
       _traverse_route_map path w
       = for_in rest traverse_step (cur, pp)
           (if bool_decide (static_path d ≠ "/")
            then set_scope_path
                   (PyStr.replace (scope_path (scope w1)) (static_path d) "")
                   w1
            else w1))
  ∧ (children n !! c = None → children n !! "*" = None →
     (∀ d, data n = Some d → PyStr.truthy (static_path d) = false) →
     _traverse_route_map path w = (Raise (Exn NotFoundException []), w1))
  ∧ (path = normalized_path (scope_path (scope w)) →
     _plain_routes (self w) !! path = None →
     resolve_route w = answer_at (_traverse_route_map path w)
     ∧ (∀ e w', _traverse_route_map path w = (Raise e, w') →
          resolve_route w = (Raise (Exn NotFoundException []), w'))
     ∧ (∀ cur' pp' w' n',
          _traverse_route_map path w = (Return (cur', pp'), w') →
          objects (self w) !! cur' = Some n' → data n' = None →
          resolve_route w = (Raise (Exn NotFoundException []), w'))).
Proof.
  intros Hcs Hpre Hn.
  assert (self w1 = self w) as Hself.
  { destruct (traverse_loop_shape pre (_tree (self w), []) (self w))
      as (o & f & _ & Hf).
    rewrite (Hf w eq_refl) in Hpre. by injection Hpre as _ <-. }
  assert (∀ l w2, traverse_step (cur, pp) c w1 = (Return l, w2) →
            _traverse_route_map path w = for_in rest traverse_step l w2) as Hgo.
  { intros l w2 Hstep. unfold _traverse_route_map.
    erewrite bind_Return by reflexivity.
    rewrite Hcs, for_in_app. erewrite bind_Return by exact Hpre.
    by rewrite for_in_cons, Hstep. }
  rewrite <- Hself in Hn.
  split; [|split; [|split; [|split]]].
  - intros b Hc. apply Hgo. by eapply traverse_step_exact.
  - intros b Hc Hs. apply Hgo. by eapply traverse_step_wildcard.
  - intros d Hc Hs Hd Ht. apply Hgo. by eapply traverse_step_mount.
  - intros Hc Hs Hd. unfold _traverse_route_map.
    erewrite bind_Return by reflexivity.
    rewrite Hcs, for_in_app. erewrite bind_Return by exact Hpre.
    by rewrite for_in_cons, (traverse_step_not_found _ _ _ _ _ Hn Hc Hs Hd).
  - intros -> Hplain.
    assert (resolve_route w
            = answer_at (_traverse_route_map
                           (normalized_path (scope_path (scope w))) w)) as Heq.
    { rewrite resolve_route_eq. unfold find_node.
      erewrite bind_Return by apply run_plain_routes_contains.
      rewrite (dict_contains_None _ _ Hplain).
      destruct (find_node_shape (normalized_path (scope_path (scope w)))
                  (self w)) as (o & f & Ho & Hf).
      specialize (Hf w eq_refl). unfold find_node in Hf.
      erewrite bind_Return in Hf by apply run_plain_routes_contains.
      rewrite (dict_contains_None _ _ Hplain) in Hf. rewrite Hf.
      destruct o as [[cur' pp']|e|]; [done| |done].
      by rewrite (Ho e eq_refl). }
    split; [done|]. split.
    + intros e w' Hwalk. rewrite Heq, Hwalk.
      destruct (find_node_shape (normalized_path (scope_path (scope w)))
                  (self w)) as (o & f & Ho & Hf).
      specialize (Hf w eq_refl). unfold find_node in Hf.
      erewrite bind_Return in Hf by apply run_plain_routes_contains.
      rewrite (dict_contains_None _ _ Hplain) in Hf.
      rewrite Hf in Hwalk. injection Hwalk as -> _.
      by rewrite (Ho e eq_refl).
    + intros cur' pp' w' n' Hwalk Hn' Hd'. rewrite Heq, Hwalk.
      pose proof (traverse_route_map_frame
                    (normalized_path (scope_path (scope w))) w) as Hfr.
      rewrite Hwalk in Hfr. simpl in Hfr. simpl. by rewrite Hfr, Hn', Hd'.
Qed.

End ResolutionClaims.

(** ** The resolution properties on the concrete application *)

Section ResolutionExamples.
Import Example ExampleObjects.

(** Counterexample to C3 as stated: on [/items//] the lookup path is
    [/items], not the [/items/] that stripping a single slash leaves,
    and the request is served by the handler of [/items]. *)
Lemma single_slash_strip_refuted :
  normalized_path "/items//" = "/items"
  ∧ strip_single_trailing_slash "/items//" = "/items/"
  ∧ normalized_path "/items//" ≠ strip_single_trailing_slash "/items//"
  ∧ (resolve_route (request (http "/items//" "GET"))).1
    = Return ("/items", "list_items").
Proof. vm_compute. repeat split; discriminate. Qed.

Lemma trailing_slashes_resolve_alike_witness :
  PyStr.strip "/items" = "/items"
  ∧ observed (resolve_route
                (set_scope_path ("/items" +:+ PyStr.repeat "/" 2)
                   (request (http "" "GET"))))
    = observed (resolve_route
                  (set_scope_path "/items" (request (http "" "GET")))).
Proof.
  split; [reflexivity|].
  exact (proj2 (proj2 (trailing_slashes_resolve_alike
                         (request (http "" "GET")) "/items" 2
                         eq_refl ltac:(discriminate) ltac:(discriminate)))).
Defined.

Lemma surrounding_whitespace_is_stripped_first_witness :
  PyStr.all_space " " = true
  ∧ observed (resolve_route
                (set_scope_path (" " +:+ "/items" +:+ " ")
                   (request (http "" "GET"))))
    = observed (resolve_route
                  (set_scope_path "/items" (request (http "" "GET")))).
Proof.
  split; [reflexivity|].
  exact (proj1 (proj2 (surrounding_whitespace_is_stripped_first
                         (request (http "" "GET")) " " "/items" " "
                         eq_refl eq_refl))).
Defined.

(** Counterexample to C4 as stated: [POST /items] reaches a leaf whose
    only registered method is [GET], and the exception raised carries
    no arguments at all. *)
Lemma method_not_allowed_has_no_payload :
  (find_node "/items" (request (http "/items" "POST"))).1 = Return (3, [])
  ∧ registered_keys <$> leaf router 3 = Some ["GET"]
  ∧ (resolve_route (request (http "/items" "POST"))).1
    = Raise (Exn MethodNotAllowedException [])
  ∧ Some (exn_args (Exn MethodNotAllowedException []))
    ≠ registered_keys <$> leaf router 3.
Proof. vm_compute. repeat split; discriminate. Qed.

Lemma http_method_dispatch_witness :
  (resolve_route (request (http "/items" "POST"))).1
  = Raise (Exn MethodNotAllowedException [])
  ∧ (resolve_route (request (http "/items" "GET"))).1
    = Return ("/items", "list_items").
Proof.
  split.
  - exact (http_method_dispatch
             (request (http "/items" "POST")) 3 []
             (request (http "/items" "POST")) items_node items_leaf "POST"
             ltac:(vm_compute; reflexivity) ltac:(vm_compute; reflexivity)
             eq_refl eq_refl eq_refl eq_refl).
  - exact (http_method_dispatch
             (request (http "/items" "GET")) 3 []
             (request (http "/items" "GET")) items_node items_leaf "GET"
             ltac:(vm_compute; reflexivity) ltac:(vm_compute; reflexivity)
             eq_refl eq_refl eq_refl eq_refl).
Defined.

Lemma example_parser_raises_validation_only defs raw e :
  parse_path_params defs raw = inl e →
  exn_cls e ≠ MethodNotAllowedException.
Proof.
  simpl. destruct (bool_decide _); [done|]. by intros [= <-].
Qed.

Lemma key_lookup_failures_witness :
  (resolve_route {| self := pageless_router; scope := http "/static" "GET" |}).1
  = Raise (Exn NotFoundException [])
  ∧ (resolve_route (request (websocket "/items"))).1
    = Raise (Exn NotFoundException [])
  ∧ ∃ cur pp w1 n d m,
      find_node (normalized_path "/items") (request (http "/items" "POST"))
      = (Return (cur, pp), w1)
      ∧ objects (self w1) !! cur = Some n ∧ data n = Some d
      ∧ is_asgi d = false
      ∧ scope_type (http "/items" "POST") = ScopeType_HTTP
      ∧ scope_method (http "/items" "POST") = Some m
      ∧ asgi_handlers d !! m = None.
Proof.
  split; [|split].
  - exact (proj1 (proj1 (key_lookup_failures
                           {| self := pageless_router;
                              scope := http "/static" "GET" |})
                    2 [] {| self := pageless_router;
                            scope := http "/static" "GET" |}
                    static_page_node static_page_leaf []
                    ltac:(vm_compute; reflexivity)
                    ltac:(vm_compute; reflexivity) eq_refl eq_refl)
                 eq_refl ltac:(vm_compute; reflexivity)).
  - exact (proj2 (proj1 (key_lookup_failures (request (websocket "/items")))
                    3 [] (request (websocket "/items"))
                    items_node items_leaf []
                    ltac:(vm_compute; reflexivity)
                    ltac:(vm_compute; reflexivity) eq_refl eq_refl)
                 eq_refl eq_refl ltac:(discriminate)
                 ltac:(vm_compute; reflexivity)).
  - exact (proj2 (key_lookup_failures (request (http "/items" "POST")))
             (Exn MethodNotAllowedException [])
             example_parser_raises_validation_only
             ltac:(vm_compute; reflexivity) eq_refl).
Defined.

Lemma descent_is_forward_only_witness :
  _traverse_route_map "/a/b"
    {| self := ambiguous_router; scope := http "/a/b" "GET" |}
  = for_in ["b"] traverse_step (2, [])
      {| self := ambiguous_router; scope := http "/a/b" "GET" |}
  ∧ _traverse_route_map "/a/b"
      {| self := ambiguous_router; scope := http "/a/b" "GET" |}
    = (Return (3, ["b"]),
       {| self := ambiguous_router; scope := http "/a/b" "GET" |})
  ∧ leaf ambiguous_router 3 = None
  ∧ resolve_route {| self := ambiguous_router; scope := http "/a/b" "GET" |}
    = (Raise (Exn NotFoundException []),
       {| self := ambiguous_router; scope := http "/a/b" "GET" |})
  ∧ follow ambiguous_router 1 ["*"; "b"] = Some 6
  ∧ registered_keys <$> leaf ambiguous_router 6 = Some ["GET"].
Proof.
  split; [|split; [|split; [|split]]].
  - exact (proj1 (descent_is_forward_only
             {| self := ambiguous_router; scope := http "/a/b" "GET" |}
             "/a/b" ["/"] "a" ["b"] 1 []
             {| self := ambiguous_router; scope := http "/a/b" "GET" |}
             ambiguous_root_segment
             ltac:(vm_compute; reflexivity) ltac:(vm_compute; reflexivity)
             ltac:(vm_compute; reflexivity))
             2 ltac:(vm_compute; reflexivity)).
  - vm_compute. reflexivity.
  - vm_compute. reflexivity.
  - exact (proj2 (proj2 (proj2 (proj2 (proj2 (proj2 (descent_is_forward_only
             {| self := ambiguous_router; scope := http "/a/b" "GET" |}
             "/a/b" ["/"] "a" ["b"] 1 []
             {| self := ambiguous_router; scope := http "/a/b" "GET" |}
             ambiguous_root_segment
             ltac:(vm_compute; reflexivity) ltac:(vm_compute; reflexivity)
             ltac:(vm_compute; reflexivity)))))
             ltac:(vm_compute; reflexivity) ltac:(vm_compute; reflexivity)))
             3 ["b"]
             {| self := ambiguous_router; scope := http "/a/b" "GET" |}
             {| children := {["c" := 4]}; data := None |}
             ltac:(vm_compute; reflexivity) ltac:(vm_compute; reflexivity)
             eq_refl).
  - vm_compute. done.
Defined.

End ResolutionExamples.

(** ** Properties of registration *)

Section RegistrationClaims.
Context `{Collaborators}.
Implicit Types (rm : PythonRouteMap) (cur a b : ref) (n : _RouteMapTree).
Implicit Types (d : _RouteMapLeafData).

(** C2 (amended): of two routes registered at the same position, the
    second makes [add_routes] raise [ImproperlyConfiguredException]
    ("Routes with conflicting path parameters") when the first carried a
    non-empty parameter list and the second carries a different one; the
    route map is then as the first registration left it.  A second route
    with the same list is accepted, and so is any list after a first
    route that carried no parameters. *)
Theorem conflicting_path_parameters_fail app rm r1 r2 rm1 :
  position app r2 = position app r1 →
  add_routes app [r1] rm = (Return tt, rm1) →
  (route_path_parameters r1 ≠ [] →
   route_path_parameters r2 ≠ route_path_parameters r1 →
   add_routes app [r1; r2] rm
   = (Raise (Exn ImproperlyConfiguredException
                 ["Routes with conflicting path parameters"]), rm1))
  ∧ (route_path_parameters r2 = route_path_parameters r1 →
     is_known_route r2 →
     ∃ rm2, add_routes app [r1; r2] rm = (Return tt, rm2))
  ∧ (route_path_parameters r1 = [] → is_known_route r2 →
     ∃ rm2, add_routes app [r1; r2] rm = (Return tt, rm2)).
Proof.
  intros Hpos Hadd. rewrite add_routes_one in Hadd.
  rewrite add_routes_cons, Hadd, add_routes_one.
  destruct (second_registration _ _ _ _ _ Hpos Hadd)
    as (cur & n1 & d1 & Hn1 & Hd1 & Hps & _ & ->).
  rewrite (store_route_some _ _ _ _ _ _ _ Hn1 Hd1), Hps.
  split; [|split].
  - intros Hne Hdiff.
    by rewrite !bool_decide_eq_true_2 by done.
  - intros Heq Hknown.
    rewrite (bool_decide_eq_false_2 (_ ≠ route_path_parameters r2))
      by (intros ?; congruence).
    rewrite andb_false_r. unfold is_known_route in Hknown.
    destruct (route_kind r2); by eauto.
  - intros Hnil Hknown.
    rewrite (bool_decide_eq_false_2 (_ ≠ [])) by (intros ?; congruence).
    simpl. unfold is_known_route in Hknown.
    destruct (route_kind r2); by eauto.
Qed.


(** C7 (amended): on a route map without routes no path is found, the
    root path [/] included.  Once a parameter-free HTTP route at [/]
    with a [GET] handler was added to a route map, a [GET] request whose
    path normalizes to [/] is answered with that handler, taken from the
    leaf stored for [/] in the plain-route map, provided [/] is no
    static path of the application and the plain root entry of the route
    map, if it had one, was no ASGI or mount leaf; and on the empty
    route map this registration succeeds. *)
Theorem root_path_resolution app rm rm' r rhm h sc v :
  route_path r = "/" → route_path_parameters r = [] →
  route_kind r = HTTPRoute rhm → rhm !! "GET" = Some h →
  "/" ∉ static_paths app →
  (∀ b d, _plain_routes rm !! "/" = Some b → leaf rm b = Some d →
          is_asgi d = false) →
  add_routes app [r] rm = (Return tt, rm') →
  normalized_path (scope_path sc) = "/" →
  scope_type sc = ScopeType_HTTP → scope_method sc = Some "GET" →
  parse_path_params [] [] = inr v →
  (∀ sc0, (resolve_route {| self := __init__; scope := sc0 |}).1
          = Raise (Exn NotFoundException []))
  ∧ (resolve_route {| self := rm'; scope := sc |}).1
    = Return (build_route_middleware_stack r h)
  ∧ ∃ rm1, add_routes app [r] __init__ = (Return tt, rm1).
Proof.
  intros Hpath Hps Hkind Hget Hstatic Hroot Hadd Hsp Hty Hm Hparse.
  assert (position app r = inr "/") as Hpos.
  { unfold position. rewrite Hps, Hpath.
    rewrite bool_decide_eq_false_2 by (by intros ?).
    by rewrite bool_decide_eq_false_2. }
  assert (stored_path app r = "/") as Hsp'.
  { unfold stored_path. rewrite Hps, Hpath.
    rewrite bool_decide_eq_false_2 by (by intros ?).
    by rewrite bool_decide_eq_false_2. }
  split; [|split].
  - intros sc0. rewrite resolve_route_eq. simpl.
    unfold find_node.
    erewrite bind_Return by apply run_plain_routes_contains.
    simpl. rewrite (dict_contains_None (V:=nat) ∅ _) by apply lookup_empty.
    unfold _traverse_route_map. erewrite bind_Return by reflexivity.
    unfold components_of. rewrite for_in_cons.
    erewrite traverse_step_not_found; [done|reflexivity|done..].
  - rewrite add_routes_one in Hadd.
    apply add_route_inv in Hadd as (cur & rm0 & n0 & Hloc & Hn0 & _ & _ & ->).
    rewrite locate_node_eq, Hpos in Hloc.
    destruct (plain_routes_getitem "/" rm) as [o1 rm1] eqn:Hg.
    apply plain_routes_getitem_inv in Hg as [_ (b & -> & Hb & Hcase)].
    injection Hloc as <- <-.
    set (d1 := stored_leaf _ _ _ _).
    assert (is_asgi d1 = false) as Hasgi.
    { unfold d1. rewrite stored_leaf_is_asgi, Hsp'.
      rewrite (bool_decide_eq_false_2 _ Hstatic).
      unfold is_asgi_route. rewrite Hkind, !orb_false_r.
      unfold found_leaf. destruct Hcase as [[Hb0 ->]|[_ Hnew]].
      - destruct (data n0) as [d0|] eqn:Hd0; [|done]. simpl.
        apply (Hroot b d0 Hb0). unfold leaf. by rewrite Hn0.
      - by replace n0 with empty_tree by congruence. }
    rewrite resolve_route_eq. simpl. rewrite Hsp.
    unfold find_node.
    erewrite bind_Return by apply run_plain_routes_contains.
    simpl. rewrite (dict_contains_Some _ _ _ Hb).
    erewrite bind_Return by (by apply run_plain_routes_getitem).
    simpl. erewrite list_lookup_insert_eq by (by eapply lookup_lt_Some).
    simpl. fold d1.
    assert (path_parameters d1 = []) as ->.
    { unfold d1. by rewrite stored_leaf_path_parameters. }
    rewrite Hparse. unfold dispatch. rewrite Hasgi, Hty, Hm.
    rewrite bool_decide_eq_true_2 by done.
    assert (asgi_handlers d1 !! "GET"
            = Some (build_route_middleware_stack r h)) as ->; [|done].
    unfold d1. rewrite stored_leaf_handlers. unfold handler_after.
    by rewrite Hkind, Hget.
  - rewrite add_routes_one, add_route_eq, locate_node_eq, Hpos.
    unfold plain_routes_getitem.
    erewrite bind_Return by reflexivity.
    change (_plain_routes __init__ !! "/") with ((∅ : gmap string nat) !! "/").
    rewrite lookup_empty.
    erewrite bind_Return by reflexivity.
    erewrite bind_Return by reflexivity.
    erewrite bind_Return by reflexivity.
    unfold ret. erewrite (store_route_eq _ _ 1 _ _ empty_tree) by reflexivity.
    simpl. rewrite Hkind. eauto.
Qed.

End RegistrationClaims.

(** ** The registration properties on the concrete application *)

Section RegistrationExamples.
Import Example ExampleObjects MoreExamples.

(** Counterexample to C2 as stated: the static mount [/a/*] stores an
    empty parameter list at the position [/], [a], [*]; the route
    [/a/{x:int}] lands at the same position with a different list, and
    [add_routes] accepts it. *)
Lemma empty_stored_parameters_accept_any :
  position star_app a_x = position star_app star_files
  ∧ route_path_parameters a_x ≠ route_path_parameters star_files
  ∧ (add_routes star_app [star_files; a_x] __init__).1 = Return tt
  ∧ path_parameters
      <$> leaf (add_routes star_app [star_files] __init__).2 3 = Some []
  ∧ path_parameters
      <$> leaf (add_routes star_app [star_files; a_x] __init__).2 3
    = Some (route_path_parameters a_x).
Proof. vm_compute. repeat split; discriminate. Qed.

Lemma conflicting_path_parameters_fail_witness :
  position app a_y = position app a_x
  ∧ add_routes app [a_x; a_y] __init__
    = (Raise (Exn ImproperlyConfiguredException
                  ["Routes with conflicting path parameters"]),
       (add_routes app [a_x] __init__).2)
  ∧ add_routes app [a_x; a_x_str] __init__
    = (Raise (Exn ImproperlyConfiguredException
                  ["Routes with conflicting path parameters"]),
       (add_routes app [a_x] __init__).2).
Proof.
  split; [reflexivity|]. split.
  - exact (proj1 (conflicting_path_parameters_fail app __init__ a_x a_y
                    (add_routes app [a_x] __init__).2
                    ltac:(vm_compute; reflexivity)
                    ltac:(vm_compute; reflexivity))
                 ltac:(discriminate) ltac:(discriminate)).
  - exact (proj1 (conflicting_path_parameters_fail app __init__ a_x a_x_str
                    (add_routes app [a_x] __init__).2
                    ltac:(vm_compute; reflexivity)
                    ltac:(vm_compute; reflexivity))
                 ltac:(discriminate) ltac:(discriminate)).
Defined.


(** Counterexample to C7 as stated: a root route with a [GET] handler
    is registered and returns, yet [GET /] does not get that handler.
    When [/] is a static path of the application, the route is stored
    in the tree as a mount leaf, which holds no [ASGI] handler, and the
    request fails with [NotFoundException]; when an ASGI route was
    registered at [/] before, the leaf of [/] is an ASGI leaf and the
    request gets the ASGI handler. *)
Lemma root_route_behind_a_mount_is_not_served :
  (add_routes root_app [index] __init__).1 = Return tt
  ∧ (resolve_route {| self := (add_routes root_app [index] __init__).2;
                      scope := http "/" "GET" |}).1
    = Raise (Exn NotFoundException [])
  ∧ (add_routes app [site; index] __init__).1 = Return tt
  ∧ (resolve_route {| self := (add_routes app [site; index] __init__).2;
                      scope := http "/" "GET" |}).1
    = Return ("/", "site")
  ∧ (resolve_route {| self := (add_routes app [site; index] __init__).2;
                      scope := http "/" "GET" |}).1
    ≠ Return ("/", "index").
Proof. vm_compute. repeat split; discriminate. Qed.

Lemma root_path_resolution_witness :
  (∀ sc0, (resolve_route {| self := __init__; scope := sc0 |}).1
          = Raise (Exn NotFoundException []))
  ∧ (resolve_route
       {| self := (add_routes app [index] __init__).2;
          scope := http "/" "GET" |}).1
    = Return ("/", "index")
  ∧ ∃ rm1, add_routes app [index] __init__ = (Return tt, rm1).
Proof.
  exact (root_path_resolution app __init__ (add_routes app [index] __init__).2
           index {["GET" := "index"]} "index" (http "/" "GET") []
           eq_refl eq_refl eq_refl ltac:(vm_compute; reflexivity)
           ltac:(vm_compute; intros Hin; discriminate Hin)
           ltac:(intros b d Hb; vm_compute in Hb; discriminate Hb)
           ltac:(vm_compute; reflexivity)
           eq_refl eq_refl eq_refl eq_refl).
Defined.

(** C1, at the input on which the code departs from it: with static
    files mounted at [/static], a request for [/static/static/app.css]
    is answered by the mount's handler, but [scope["path"]] is left as
    [/app.css]: [str.replace] removed both occurrences of [/static],
    where removing the mount prefix leaves [/static/app.css]. *)
Theorem mount_rewrite_removes_every_occurrence :
  (resolve_route (request (http "/static/static/app.css" "GET"))).1
  = Return ("/static", "static_files")
  ∧ scope_path
      (scope (resolve_route (request (http "/static/static/app.css" "GET"))).2)
    = "/app.css"
  ∧ remove_prefix "/static" "/static/static/app.css" = "/static/app.css"
  ∧ (resolve_route (request (http "/static/css/app.css" "GET"))).1
    = Return ("/static", "static_files")
  ∧ scope_path
      (scope (resolve_route (request (http "/static/css/app.css" "GET"))).2)
    = remove_prefix "/static" "/static/css/app.css".
Proof. vm_compute. repeat split. Qed.

End RegistrationExamples.

(** ** Further properties of resolution *)

Section ResolveMore.
Context `{Collaborators}.
Implicit Types (w : World) (rm : PythonRouteMap) (cur : ref).

(** [find_node] changes nothing of the world but [scope["path"]]. *)
Lemma find_node_world path w o w1 :
  find_node path w = (o, w1) →
  ∃ p, w1 = set_scope_path p w.
Proof.
  destruct (find_node_shape path (self w)) as (o' & f & _ & Hf).
  rewrite (Hf w eq_refl). intros [= _ <-]. eauto.
Qed.

(** X1: once the leaf of the path is found, a parser that raises makes
    [resolve_route] raise the same exception, a [KeyError] excepted,
    which becomes [NotFoundException]; nothing is written to the scope
    then.  When the parser returns, its result is written to
    [scope["path_params"]] before the handler is looked up and stays
    there when the lookup fails; an HTTP scope without a ["method"] key
    fails with [NotFoundException] at a leaf that is not a mount. *)
Theorem failures_after_the_leaf_is_found w cur pp w1 n d :
  find_node (normalized_path (scope_path (scope w))) w = (Return (cur, pp), w1) →
  objects (self w1) !! cur = Some n → data n = Some d →
  (∀ e, parse_path_params (path_parameters d) pp = inl e →
     resolve_route w
     = (Raise (if decide (exn_cls e = KeyError)
               then Exn NotFoundException [] else e), w1))
  ∧ (∀ v, parse_path_params (path_parameters d) pp = inr v →
       (resolve_route w).2 = set_scope_path_params v w1)
  ∧ (∀ v, parse_path_params (path_parameters d) pp = inr v →
       is_asgi d = false → scope_type (scope w) = ScopeType_HTTP →
       scope_method (scope w) = None →
       resolve_route w
       = (Raise (Exn NotFoundException []), set_scope_path_params v w1)).
Proof.
  intros Hfind Hn Hd.
  destruct (find_node_world _ _ _ _ Hfind) as [p ->].
  split; [|split].
  - intros e He. rewrite resolve_route_eq, Hfind, Hn, Hd, He. simpl.
    by destruct (decide _).
  - intros v Hv. by rewrite resolve_route_eq, Hfind, Hn, Hd, Hv.
  - intros v Hv Hasgi Hty Hm.
    rewrite resolve_route_eq, Hfind, Hn, Hd, Hv. simpl.
    unfold dispatch. rewrite Hasgi, Hty, Hm.
    by rewrite bool_decide_eq_true_2.
Qed.

(** X2: a second [resolve_route] on the scope the first one left
    behind gives the same outcome and leaves the same scope, provided
    the first call did not rewrite [scope["path"]] (as it does below a
    mount). *)
Theorem resolve_route_again w :
  scope_path (scope (resolve_route w).2) = scope_path (scope w) →
  resolve_route (resolve_route w).2 = resolve_route w.
Proof.
  destruct (find_node_shape (normalized_path (scope_path (scope w))) (self w))
    as (o & f & _ & Hf).
  intros Hpath. pose proof (Hf w eq_refl) as Hw.
  rewrite resolve_route_eq, Hw in Hpath.
  assert (f (scope_path (scope w)) = scope_path (scope w)) as Hp'.
  { destruct o as [[cur pp]|e|]; simpl in Hpath; [|done..].
    destruct (objects (self w) !! cur) as [n|]; [|done].
    destruct (data n) as [d|]; [|done].
    by destruct (parse_path_params (path_parameters d) pp). }
  rewrite Hp', set_scope_path_id in Hw. clear Hpath.
  rewrite (resolve_route_eq w), Hw.
  destruct o as [[cur pp]|e|]; simpl.
  2,3: by rewrite resolve_route_eq, Hw.
  destruct (objects (self w) !! cur) as [n|] eqn:Hn; simpl.
  2:{ by rewrite resolve_route_eq, Hw, Hn. }
  destruct (data n) as [d|] eqn:Hd; simpl.
  2:{ by rewrite resolve_route_eq, Hw, Hn, Hd. }
  destruct (parse_path_params (path_parameters d) pp) as [e|v] eqn:Hp; simpl.
  { by rewrite resolve_route_eq, Hw, Hn, Hd, Hp. }
  rewrite resolve_route_eq. simpl.
  rewrite (Hf (set_scope_path_params v w) eq_refl). simpl.
  rewrite Hp'. unfold set_scope_path. simpl.
  by rewrite Hn, Hd, Hp.
Qed.

End ResolveMore.

(** ** Registration only adds *)

Section Growth.
Context `{Collaborators}.
Implicit Types (rm : PythonRouteMap) (cur a b : ref) (n : _RouteMapTree).
Implicit Types (d : _RouteMapLeafData) (route : BaseRoute Handler ParamKind).

Lemma leaf_grows_refl d : leaf_grows d d.
Proof. by repeat split. Qed.

Lemma leaf_grows_trans d1 d2 d3 :
  leaf_grows d1 d2 → leaf_grows d2 d3 → leaf_grows d1 d3.
Proof.
  intros (Hk1 & Ha1 & Hp1) (Hk2 & Ha2 & Hp2). split; [by etrans|].
  split; [auto|]. intros Hne. rewrite Hp2; [by apply Hp1|].
  by rewrite Hp1.
Qed.

Lemma grows_refl rm : grows rm rm.
Proof.
  split; [done|]. split; [done|]. intros a n Ha. exists n.
  split; [done|]. split; [done|]. intros d Hd. exists d.
  split; [done|]. apply leaf_grows_refl.
Qed.

Lemma grows_trans rm1 rm2 rm3 : grows rm1 rm2 → grows rm2 rm3 → grows rm1 rm3.
Proof.
  intros (Ht1 & Hp1 & Ho1) (Ht2 & Hp2 & Ho2). split; [congruence|].
  split; [by etrans|]. intros a n Ha.
  destruct (Ho1 a n Ha) as (n' & Ha' & Hc & Hd).
  destruct (Ho2 a n' Ha') as (n'' & Ha'' & Hc' & Hd').
  exists n''. split; [done|]. split; [by etrans|]. intros d Hdn.
  destruct (Hd d Hdn) as (d' & Hdn' & Hg).
  destruct (Hd' d' Hdn') as (d'' & Hdn'' & Hg').
  exists d''. split; [done|]. by eapply leaf_grows_trans.
Qed.

Lemma keeps_leaves_refl rm : keeps_leaves rm rm.
Proof. split; [done|]. split; [done|]. intros a n Ha. by exists n. Qed.

Lemma keeps_leaves_trans rm1 rm2 rm3 :
  keeps_leaves rm1 rm2 → keeps_leaves rm2 rm3 → keeps_leaves rm1 rm3.
Proof.
  intros (Ht1 & Hp1 & Ho1) (Ht2 & Hp2 & Ho2). split; [congruence|].
  split; [by etrans|]. intros a n Ha.
  destruct (Ho1 a n Ha) as (n' & Ha' & Hc & Hd).
  destruct (Ho2 a n' Ha') as (n'' & Ha'' & Hc' & Hd').
  exists n''. split; [done|]. split; [by etrans|]. congruence.
Qed.

Lemma keeps_leaves_grows rm rm' : keeps_leaves rm rm' → grows rm rm'.
Proof.
  intros (Ht & Hp & Ho). split; [done|]. split; [done|]. intros a n Ha.
  destruct (Ho a n Ha) as (n' & Ha' & Hc & Hd). exists n'.
  split; [done|]. split; [done|]. intros d Hdn. exists d.
  split; [congruence|]. apply leaf_grows_refl.
Qed.

Lemma keeps_leaves_new_tree rm : keeps_leaves rm (new_tree rm).2.
Proof.
  split; [done|]. split; [done|]. intros a n Ha. exists n.
  split; [|done]. simpl. by apply lookup_app_l_Some.
Qed.

Lemma keeps_leaves_store_set a n n' rm :
  objects rm !! a = Some n → children n ⊆ children n' → data n' = data n →
  keeps_leaves rm (store_set a n' rm).
Proof.
  intros Ha Hc Hd. split; [done|]. split; [done|]. intros b nb Hb.
  destruct (decide (a = b)) as [<-|Hne].
  - exists n'. rewrite (lookup_store_set _ _ _ _ Ha).
    by replace nb with n by congruence.
  - exists nb. by rewrite lookup_store_set_ne.
Qed.

Lemma children_getitem_keeps_leaves cur k rm o rm' :
  children_getitem cur k rm = (o, rm') → keeps_leaves rm rm'.
Proof.
  unfold children_getitem, bind at 1, deref.
  destruct (objects rm !! cur) as [n|] eqn:Hn.
  2:{ intros [= <- <-]. apply keeps_leaves_refl. }
  destruct (children n !! k) as [b|] eqn:Hk.
  { intros [= <- <-]. apply keeps_leaves_refl. }
  erewrite bind_Return by reflexivity.
  assert (objects (new_tree rm).2 !! cur = Some n) as Hn'.
  { simpl. by apply lookup_app_l_Some. }
  erewrite bind_Return by (by eapply run_assign). intros [= <- <-].
  eapply keeps_leaves_trans; [apply keeps_leaves_new_tree|].
  eapply keeps_leaves_store_set; [done| |done]. simpl.
  by apply insert_subseteq.
Qed.

Lemma descend_keeps_leaves cs cur rm o rm' :
  descend cs cur rm = (o, rm') → keeps_leaves rm rm'.
Proof.
  revert cur rm. induction cs as [|c cs IH]; intros cur rm.
  { intros [= <- <-]. apply keeps_leaves_refl. }
  rewrite descend_cons.
  destruct (children_getitem cur c rm) as [o1 rm1] eqn:Hget.
  apply children_getitem_keeps_leaves in Hget.
  destruct o1 as [b|e|].
  - intros Hd. eapply keeps_leaves_trans; [done|]. by eapply IH.
  - by intros [= <- <-].
  - by intros [= <- <-].
Qed.

Lemma plain_routes_getitem_keeps_leaves p rm o rm' :
  plain_routes_getitem p rm = (o, rm') → keeps_leaves rm rm'.
Proof.
  unfold plain_routes_getitem. erewrite bind_Return by reflexivity.
  destruct (_plain_routes rm !! p) as [b|] eqn:Hp.
  { intros [= <- <-]. apply keeps_leaves_refl. }
  erewrite bind_Return by reflexivity.
  erewrite bind_Return by reflexivity.
  erewrite bind_Return by reflexivity.
  intros [= <- <-]. split; [done|]. split.
  - simpl. by apply insert_subseteq.
  - intros a n Ha. exists n. split; [|done]. simpl.
    by apply lookup_app_l_Some.
Qed.

Lemma locate_node_keeps_leaves app route rm o rm' :
  locate_node app route rm = (o, rm') → keeps_leaves rm rm'.
Proof.
  rewrite locate_node_eq. destruct (position app route) as [cs|p].
  - destruct (descend cs (_tree rm) rm) as [o1 rm1] eqn:Hd.
    apply descend_keeps_leaves in Hd. by destruct o1; intros [= <- <-].
  - destruct (plain_routes_getitem p rm) as [o1 rm1] eqn:Hg.
    apply plain_routes_getitem_keeps_leaves in Hg.
    by destruct o1; intros [= <- <-].
Qed.

Lemma stored_leaf_grows app route path d0 :
  path_parameters d0 = []
  ∨ path_parameters d0 = route_path_parameters route →
  leaf_grows d0 (stored_leaf app route path d0).
Proof.
  intros Hps. split; [|split].
  - intros k [v Hk]%elem_of_dom. apply elem_of_dom.
    rewrite stored_leaf_handlers. unfold handler_after.
    destruct (route_kind route) as [rhm|h|h|t].
    + destruct (rhm !! k); eauto.
    + destruct (decide _); eauto.
    + destruct (decide _); eauto.
    + eauto.
  - rewrite stored_leaf_is_asgi. by intros ->.
  - rewrite stored_leaf_path_parameters. by destruct Hps.
Qed.

Lemma store_route_grows app route cur path rm o rm' :
  store_route app route cur path rm = (o, rm') → grows rm rm'.
Proof.
  destruct (objects rm !! cur) as [n|] eqn:Hn.
  2:{ rewrite store_route_dangling by done. intros [= <- <-].
      apply grows_refl. }
  rewrite (store_route_eq _ _ _ _ _ _ Hn).
  destruct (bool_decide (path_parameters (found_leaf n) ≠ [])
            && bool_decide (path_parameters (found_leaf n)
                            ≠ route_path_parameters route)) eqn:Hc.
  { intros [= <- <-]. apply grows_refl. }
  intros [= <- <-].
  assert (path_parameters (found_leaf n) = []
          ∨ path_parameters (found_leaf n) = route_path_parameters route)
    as Hps.
  { apply andb_false_iff in Hc as [Hc|Hc];
      apply bool_decide_eq_false_1, dec_stable in Hc; auto. }
  split; [done|]. split; [done|]. intros a na Ha.
  destruct (decide (cur = a)) as [<-|Hne].
  - eexists. rewrite (lookup_store_set _ _ _ _ Hn). split; [done|].
    replace na with n by congruence. split; [done|]. simpl.
    intros d Hd. eexists. split; [done|].
    unfold found_leaf in *. rewrite Hd in *. simpl in *.
    by apply stored_leaf_grows.
  - exists na. rewrite lookup_store_set_ne by done. split; [done|].
    split; [done|]. intros d Hd. exists d. split; [done|].
    apply leaf_grows_refl.
Qed.

Lemma add_route_grows app route rm o rm' :
  add_route app route rm = (o, rm') → grows rm rm'.
Proof.
  rewrite add_route_eq.
  destruct (locate_node app route rm) as [o1 rm0] eqn:Hloc.
  apply locate_node_keeps_leaves, keeps_leaves_grows in Hloc.
  destruct o1 as [[cur path]|e|].
  - intros Hs. eapply grows_trans; [done|]. by eapply store_route_grows.
  - by intros [= <- <-].
  - by intros [= <- <-].
Qed.

(** X3: whatever [add_routes] does, and whether it returns or raises, it
    only adds to the route map: the root is the same, every plain route
    and every child is still there, every leaf still has a handler for
    each dispatch key it had one for, a mount stays a mount, and a
    non-empty stored parameter list is unchanged. *)
Theorem add_routes_only_adds app routes rm o rm' :
  add_routes app routes rm = (o, rm') → grows rm rm'.
Proof.
  revert rm. induction routes as [|route routes IH]; intros rm.
  { intros [= <- <-]. apply grows_refl. }
  rewrite add_routes_cons.
  destruct (add_route app route rm) as [o1 rm1] eqn:Hadd.
  apply add_route_grows in Hadd.
  destruct o1 as [[]|e|].
  - intros Hrest. eapply grows_trans; [done|]. by eapply IH.
  - by intros [= <- <-].
  - by intros [= <- <-].
Qed.

End Growth.

(** ** No reference dangles *)

Section WellFormed.
Context `{Collaborators}.
Implicit Types (rm : PythonRouteMap) (cur a b : ref) (n : _RouteMapTree).
Implicit Types (d : _RouteMapLeafData) (route : BaseRoute Handler ParamKind).
Implicit Types (w : World).

Lemma well_formed_init : well_formed __init__.
Proof.
  split; [simpl; lia|]. split.
  - intros a n k b Ha Hk. destruct a as [|a]; [|done].
    injection Ha as <-. done.
  - intros p b Hp. done.
Qed.

Lemma well_formed_new_tree rm : well_formed rm → well_formed (new_tree rm).2.
Proof.
  intros (Ht & Hc & Hp). unfold well_formed. simpl.
  rewrite length_app. simpl. split; [lia|]. split.
  - intros a n k b Ha Hk.
    apply lookup_app_Some in Ha as [Ha|[_ Ha]].
    + specialize (Hc a n k b Ha Hk). lia.
    + destruct (a - length (objects rm)) as [|i]; [|done].
      injection Ha as <-. done.
  - intros p b Hb. specialize (Hp p b Hb). lia.
Qed.

Lemma well_formed_store_set a n n' rm :
  well_formed rm → objects rm !! a = Some n →
  (∀ k b, children n' !! k = Some b → b < length (objects rm)) →
  well_formed (store_set a n' rm).
Proof.
  intros (Ht & Hc & Hp) Ha Hn'. unfold well_formed. simpl.
  rewrite length_insert. split; [done|]. split; [|done].
  intros c nc k b Hcn Hk. destruct (decide (a = c)) as [<-|Hne].
  - rewrite list_lookup_insert_eq in Hcn by (by eapply lookup_lt_Some).
    injection Hcn as <-. eauto.
  - rewrite list_lookup_insert_ne in Hcn by done. eauto.
Qed.

Lemma children_getitem_well_formed cur k rm :
  well_formed rm → cur < length (objects rm) →
  ∃ b rm', children_getitem cur k rm = (Return b, rm')
           ∧ well_formed rm' ∧ b < length (objects rm').
Proof.
  intros Hwf Hcur.
  destruct (lookup_lt_is_Some_2 _ _ Hcur) as [n Hn].
  unfold children_getitem. erewrite bind_Return by (by apply run_deref).
  destruct (children n !! k) as [b|] eqn:Hk.
  { exists b, rm. split; [done|]. split; [done|].
    destruct Hwf as (_ & Hc & _). eauto. }
  erewrite bind_Return by reflexivity.
  assert (objects (new_tree rm).2 !! cur = Some n) as Hn'.
  { simpl. by apply lookup_app_l_Some. }
  erewrite bind_Return by (by eapply run_assign).
  eexists _, _. split; [reflexivity|]. split.
  - eapply well_formed_store_set; [by apply well_formed_new_tree|done|].
    simpl. rewrite length_app. simpl. intros k' b'.
    destruct (decide (k = k')) as [<-|Hne].
    + rewrite lookup_insert_eq. intros [= <-]. lia.
    + rewrite lookup_insert_ne by done. intros Hk'.
      destruct Hwf as (_ & Hc & _). specialize (Hc _ _ _ _ Hn Hk'). lia.
  - simpl. rewrite length_insert, length_app. simpl. lia.
Qed.

Lemma descend_well_formed cs cur rm :
  well_formed rm → cur < length (objects rm) →
  ∃ b rm', descend cs cur rm = (Return b, rm')
           ∧ well_formed rm' ∧ b < length (objects rm').
Proof.
  revert cur rm. induction cs as [|c cs IH]; intros cur rm Hwf Hcur.
  { by exists cur, rm. }
  rewrite descend_cons.
  destruct (children_getitem_well_formed cur c rm Hwf Hcur)
    as (b1 & rm1 & -> & Hwf1 & Hb1).
  by apply IH.
Qed.

Lemma plain_routes_getitem_well_formed p rm :
  well_formed rm →
  ∃ b rm', plain_routes_getitem p rm = (Return b, rm')
           ∧ well_formed rm' ∧ b < length (objects rm').
Proof.
  intros Hwf. unfold plain_routes_getitem.
  erewrite bind_Return by reflexivity.
  destruct (_plain_routes rm !! p) as [b|] eqn:Hp.
  { exists b, rm. split; [done|]. split; [done|].
    destruct Hwf as (_ & _ & Hpl). eauto. }
  erewrite bind_Return by reflexivity.
  erewrite bind_Return by reflexivity.
  erewrite bind_Return by reflexivity.
  eexists _, _. split; [reflexivity|].
  destruct (well_formed_new_tree rm Hwf) as (Ht & Hc & Hpl).
  unfold well_formed. simpl in *. rewrite length_app in *. simpl in *.
  split; [|lia]. split; [done|]. split; [done|].
  intros q b. destruct (decide (p = q)) as [<-|Hne].
  - rewrite lookup_insert_eq. intros [= <-]. lia.
  - rewrite lookup_insert_ne by done. apply Hpl.
Qed.

Lemma locate_node_well_formed app route rm :
  well_formed rm →
  ∃ cur rm', locate_node app route rm
             = (Return (cur, stored_path app route), rm')
             ∧ well_formed rm' ∧ cur < length (objects rm').
Proof.
  intros Hwf. rewrite locate_node_eq. destruct (position app route) as [cs|p].
  - destruct (descend_well_formed cs (_tree rm) rm Hwf)
      as (b & rm' & -> & Hwf' & Hb); [by destruct Hwf|].
    by exists b, rm'.
  - destruct (plain_routes_getitem_well_formed p rm Hwf)
      as (b & rm' & -> & Hwf' & Hb).
    by exists b, rm'.
Qed.

Lemma store_route_well_formed app route cur path rm o rm' :
  well_formed rm → cur < length (objects rm) →
  store_route app route cur path rm = (o, rm') →
  well_formed rm' ∧ o ≠ Fault.
Proof.
  intros Hwf Hcur.
  destruct (lookup_lt_is_Some_2 _ _ Hcur) as [n Hn].
  rewrite (store_route_eq _ _ _ _ _ _ Hn).
  destruct (_ && _).
  { by intros [= <- <-]. }
  intros [= <- <-]. split.
  - eapply well_formed_store_set; [done..|]. simpl.
    destruct Hwf as (_ & Hc & _). eauto.
  - by destruct (route_kind route).
Qed.

Lemma add_route_well_formed app route rm o rm' :
  well_formed rm → add_route app route rm = (o, rm') →
  well_formed rm' ∧ o ≠ Fault.
Proof.
  intros Hwf. rewrite add_route_eq.
  destruct (locate_node_well_formed app route rm Hwf)
    as (cur & rm0 & -> & Hwf0 & Hcur).
  by apply store_route_well_formed.
Qed.

Lemma add_routes_well_formed app routes rm o rm' :
  well_formed rm → add_routes app routes rm = (o, rm') →
  well_formed rm' ∧ o ≠ Fault.
Proof.
  revert rm. induction routes as [|route routes IH]; intros rm Hwf.
  { by intros [= <- <-]. }
  rewrite add_routes_cons.
  destruct (add_route app route rm) as [o1 rm1] eqn:Hadd.
  apply add_route_well_formed in Hadd as [Hwf1 Ho1]; [|done].
  destruct o1 as [[]|e|]; [by apply IH| |done].
  by intros [= <- <-].
Qed.

Lemma built_well_formed rm : built rm → well_formed rm.
Proof.
  induction 1 as [|app routes rm o rm' _ IH Hadd].
  - apply well_formed_init.
  - by apply (add_routes_well_formed _ _ _ _ _ IH Hadd).
Qed.

Lemma traverse_loop_well_formed cs cur pp w o w' :
  well_formed (self w) → cur < length (objects (self w)) →
  for_in cs traverse_step (cur, pp) w = (o, w') →
  match o with
  | Return (b, _) => b < length (objects (self w))
  | Raise _ => True
  | Fault => False
  end.
Proof.
  intros Hwf. revert cur pp w'. revert w Hwf.
  induction cs as [|c cs IH]; intros w Hwf cur pp w' Hcur.
  { by intros [= <- <-]. }
  rewrite for_in_cons.
  destruct (lookup_lt_is_Some_2 _ _ Hcur) as [n Hn].
  destruct (children n !! c) as [b|] eqn:Hc.
  { rewrite (traverse_step_exact _ _ _ _ _ _ Hn Hc).
    apply IH; [done|]. destruct Hwf as (_ & Hch & _). eauto. }
  destruct (children n !! "*") as [b|] eqn:Hs.
  { rewrite (traverse_step_wildcard _ _ _ _ _ _ Hn Hc Hs).
    apply IH; [done|]. destruct Hwf as (_ & Hch & _). eauto. }
  destruct (data n) as [d|] eqn:Hd.
  2:{ rewrite (traverse_step_not_found _ _ _ _ _ Hn Hc Hs) by congruence.
      by intros [= <- <-]. }
  destruct (PyStr.truthy (static_path d)) eqn:Ht.
  2:{ rewrite (traverse_step_not_found _ _ _ _ _ Hn Hc Hs) by congruence.
      by intros [= <- <-]. }
  rewrite (traverse_step_mount _ _ _ _ _ _ Hn Hc Hs Hd Ht).
  destruct (bool_decide _); [|by apply IH].
  intros Hrest.
  by apply (IH (set_scope_path _ w) Hwf cur pp w' Hcur) in Hrest.
Qed.

Lemma resolve_route_well_formed w :
  well_formed (self w) → (resolve_route w).1 ≠ Fault.
Proof.
  intros Hwf. rewrite resolve_route_eq.
  destruct (find_node _ w) as [o w1] eqn:Hfind.
  assert (match o with
          | Return (b, _) => b < length (objects (self w1))
          | Raise _ => True
          | Fault => False
          end) as Ho.
  { pose proof (find_node_frame (normalized_path (scope_path (scope w))) w)
      as Hframe.
    rewrite Hfind in Hframe. simpl in Hframe. rewrite Hframe.
    unfold find_node in Hfind.
    erewrite bind_Return in Hfind by apply run_plain_routes_contains.
    destruct (_plain_routes (self w) !! normalized_path (scope_path (scope w)))
      as [b|] eqn:Hp.
    - rewrite (dict_contains_Some _ _ _ Hp) in Hfind.
      erewrite bind_Return in Hfind by (by apply run_plain_routes_getitem).
      injection Hfind as <- <-. destruct Hwf as (_ & _ & Hpl). eauto.
    - rewrite (dict_contains_None _ _ Hp) in Hfind.
      unfold _traverse_route_map in Hfind.
      erewrite bind_Return in Hfind by reflexivity.
      eapply traverse_loop_well_formed; [done| |done]. by destruct Hwf. }
  destruct o as [[cur pp]|e|]; [|done..].
  destruct (lookup_lt_is_Some_2 _ _ Ho) as [n ->].
  destruct (data n) as [d|]; [|done].
  unfold dispatch, except_KeyError.
  repeat case_match; simpl; congruence.
Qed.

(** X4: in a route map that calls of [add_routes] built from a new one,
    the root, every child and every plain route refer to a tree object
    of the store; [add_routes] and [resolve_route] therefore end by
    returning or by raising, never in a dereference of a missing
    object. *)
Theorem built_route_maps_have_no_dangling_reference rm :
  built rm →
  well_formed rm
  ∧ (∀ app routes, (add_routes app routes rm).1 ≠ Fault)
  ∧ (∀ sc, (resolve_route {| self := rm; scope := sc |}).1 ≠ Fault).
Proof.
  intros Hwf%built_well_formed. split; [done|]. split.
  - intros app routes.
    destruct (add_routes app routes rm) as [o rm'] eqn:Hadd.
    by apply add_routes_well_formed in Hadd as [_ Ho].
  - intros sc. by apply resolve_route_well_formed.
Qed.

End WellFormed.

(** ** Plain routes, batches and unknown route types *)

Section PlainRoutes.
Context `{Collaborators}.
Implicit Types (rm : PythonRouteMap) (cur a b : ref) (n : _RouteMapTree).
Implicit Types (d : _RouteMapLeafData) (route : BaseRoute Handler ParamKind).

Lemma position_plain app route :
  route_path_parameters route = [] → route_path route ∉ static_paths app →
  position app route = inr (route_path route)
  ∧ stored_path app route = route_path route.
Proof.
  intros Hps Hst. unfold position, stored_path. rewrite Hps.
  rewrite bool_decide_eq_false_2 by (by intros ?).
  by rewrite bool_decide_eq_false_2.
Qed.

(** The leaf found for a path that is a plain route. *)
Lemma resolve_route_plain rm sc b n d v :
  _plain_routes rm !! normalized_path (scope_path sc) = Some b →
  objects rm !! b = Some n → data n = Some d →
  parse_path_params (path_parameters d) [] = inr v →
  resolve_route {| self := rm; scope := sc |}
  = (except_KeyError (dispatch d (scope_type sc) (scope_method sc)),
     set_scope_path_params v {| self := rm; scope := sc |}).
Proof.
  intros Hb Hn Hd Hv. rewrite resolve_route_eq. simpl.
  unfold find_node.
  erewrite bind_Return by apply run_plain_routes_contains.
  simpl. rewrite (dict_contains_Some _ _ _ Hb).
  erewrite bind_Return by (by apply run_plain_routes_getitem).
  simpl. by rewrite Hn, Hd, Hv.
Qed.

Lemma dispatch_answers route sc h d :
  answers route sc h →
  (∀ k h', registers route k h' →
           asgi_handlers d !! k = Some (build_route_middleware_stack route h')) →
  is_asgi d = is_asgi_route route →
  dispatch d (scope_type sc) (scope_method sc)
  = Return (build_route_middleware_stack route h).
Proof.
  unfold answers, dispatch, is_asgi_route, registers. intros Hans Hh ->.
  destruct (route_kind route) as [rhm|h'|h'|t] eqn:Hkind; [| | |done].
  - destruct Hans as (-> & m & -> & Hm).
    rewrite bool_decide_eq_true_2 by done. by rewrite (Hh m h Hm).
  - destruct Hans as [Hty ->].
    rewrite bool_decide_eq_false_2 by done.
    by rewrite (Hh ScopeType_WEBSOCKET h (conj eq_refl eq_refl)).
  - subst h'. by rewrite (Hh ScopeType_ASGI h (conj eq_refl eq_refl)).
Qed.

(** X5: a route without parameters whose path is no static path is
    stored in the plain-route map, and a later request whose normalized
    path is the route's path gets the handler the route registered for
    the request's dispatch key, with [scope["path"]] untouched.  For a
    route that is no ASGI route this needs that the plain entry of the
    path, if there was one, was not a mount. *)
Theorem plain_route_round_trip app rm rm' r h sc v :
  route_path_parameters r = [] → route_path r ∉ static_paths app →
  (is_asgi_route r = false →
   ∀ b d, _plain_routes rm !! route_path r = Some b → leaf rm b = Some d →
          is_asgi d = false) →
  add_routes app [r] rm = (Return tt, rm') →
  normalized_path (scope_path sc) = route_path r →
  answers r sc h →
  parse_path_params [] [] = inr v →
  resolve_route {| self := rm'; scope := sc |}
  = (Return (build_route_middleware_stack r h),
     set_scope_path_params v {| self := rm'; scope := sc |}).
Proof.
  intros Hps Hst Hmount Hadd Hpath Hans Hv.
  destruct (position_plain app r Hps Hst) as [Hpos Hsp].
  rewrite add_routes_one in Hadd.
  apply add_route_inv in Hadd as (cur & rm0 & n0 & Hloc & Hn0 & _ & _ & ->).
  rewrite locate_node_eq, Hpos in Hloc.
  destruct (plain_routes_getitem (route_path r) rm) as [o1 rm1] eqn:Hg.
  apply plain_routes_getitem_inv in Hg as [_ (b & -> & Hb & Hcase)].
  injection Hloc as <- <-.
  set (d1 := stored_leaf _ _ _ _).
  erewrite resolve_route_plain with (d := d1).
  - f_equal.
    assert (is_asgi d1 = is_asgi_route r) as Hasgi.
    { unfold d1. rewrite stored_leaf_is_asgi, Hsp.
      rewrite (bool_decide_eq_false_2 _ Hst), orb_false_r.
      destruct (is_asgi_route r) eqn:Hr; [apply orb_true_r|].
      rewrite orb_false_r. unfold found_leaf.
      destruct Hcase as [[Hb0 ->]|[_ Hnew]].
      - destruct (data n0) as [d0|] eqn:Hd0; [|done]. simpl.
        apply (Hmount eq_refl b d0 Hb0). unfold leaf. by rewrite Hn0.
      - by replace n0 with empty_tree by congruence. }
    rewrite (dispatch_answers r sc h d1 Hans); [done| |done].
    intros k h' Hreg. unfold d1. rewrite stored_leaf_handlers.
    by apply registers_handler_after.
  - simpl. by rewrite Hpath.
  - simpl. by apply list_lookup_insert_eq, lookup_lt_Some with n0.
  - done.
  - unfold d1. by rewrite stored_leaf_path_parameters, Hps.
Qed.

(** X6: registering a list of routes in one call of [add_routes] or in
    two calls, one per part of the list, is the same; when the first
    part raises, nothing of the second part is registered. *)
Theorem add_routes_in_batches app rs1 rs2 rm :
  add_routes app (rs1 ++ rs2)%list rm
  = match add_routes app rs1 rm with
    | (Return _, rm1) => add_routes app rs2 rm1
    | (Raise e, rm1) => (Raise e, rm1)
    | (Fault, rm1) => (Fault, rm1)
    end.
Proof.
  revert rm. induction rs1 as [|r rs1 IH]; intros rm; [done|].
  rewrite <- app_comm_cons, !add_routes_cons.
  destruct (add_route app r rm) as [[[]|e|] rm1]; [|done..].
  apply IH.
Qed.

(** X7: a route of a class [add_routes] does not know is rejected with
    [ImproperlyConfiguredException] only after its leaf was created: for
    a new parameter-free path the plain-route map holds the path
    afterwards, with a leaf without handlers, the routes listed after it
    are not registered, and an HTTP request for the path now fails with
    [MethodNotAllowedException]. *)
Theorem unknown_route_type_is_rejected_late app rm r t rest sc m v :
  route_kind r = OtherRoute t →
  route_path_parameters r = [] → route_path r ∉ static_paths app →
  _plain_routes rm !! route_path r = None →
  normalized_path (scope_path sc) = route_path r →
  scope_type sc = ScopeType_HTTP → scope_method sc = Some m →
  parse_path_params [] [] = inr v →
  ∃ rm' b,
    add_routes app (r :: rest) rm
    = (Raise (Exn ImproperlyConfiguredException
                  ["Unknown route type " +:+ t +:+ ")"]), rm')
    ∧ _plain_routes rm' = <[route_path r := b]> (_plain_routes rm)
    ∧ leaf rm' b = Some new_leaf_data
    ∧ (resolve_route {| self := rm'; scope := sc |}).1
      = Raise (Exn MethodNotAllowedException []).
Proof.
  intros Hkind Hps Hst Hnew Hpath Hty Hm Hv.
  destruct (position_plain app r Hps Hst) as [Hpos Hsp].
  rewrite add_routes_cons, add_route_eq, locate_node_eq, Hpos.
  unfold plain_routes_getitem.
  erewrite bind_Return by reflexivity. rewrite Hnew.
  erewrite bind_Return by reflexivity.
  erewrite bind_Return by reflexivity.
  erewrite bind_Return by reflexivity.
  unfold ret.
  set (b := length (objects rm)).
  set (rm0 := with_plain_routes _ _).
  assert (objects rm0 !! b = Some empty_tree) as Hb.
  { apply lookup_new_tree. }
  rewrite (store_route_eq _ _ _ _ _ _ Hb).
  change (found_leaf empty_tree) with new_leaf_data.
  change (path_parameters new_leaf_data) with (@nil (ParamDef ParamKind)).
  rewrite (bool_decide_eq_false_2 ([] ≠ [])) by (by intros ?).
  simpl. rewrite Hkind, Hsp.
  assert (stored_leaf app r (route_path r) new_leaf_data = new_leaf_data)
    as ->.
  { unfold stored_leaf. rewrite Hkind, Hps.
    by rewrite (bool_decide_eq_false_2 _ Hst). }
  eexists _, b. split; [done|]. split; [done|]. split.
  { by erewrite leaf_store_set. }
  erewrite resolve_route_plain with (d := new_leaf_data) (v := v).
  - simpl. unfold dispatch. simpl. rewrite Hty, Hm.
    rewrite bool_decide_eq_true_2 by done. by rewrite lookup_empty.
  - simpl. rewrite Hpath. by rewrite lookup_insert_eq.
  - by eapply lookup_store_set.
  - done.
  - done.
Qed.

End PlainRoutes.

(** ** One parameterized route on a new route map *)

Section SingleRoute.
Context `{Collaborators}.
Implicit Types (rm : PythonRouteMap) (cur a b : ref) (n : _RouteMapTree).
Implicit Types (d : _RouteMapLeafData) (route : BaseRoute Handler ParamKind).
Implicit Types (w : World).

Lemma run_children_getitem_fresh cur c rm :
  objects rm !! cur = Some empty_tree →
  children_getitem cur c rm
  = (Return (length (objects rm)),
     store_set cur
       {| children := {[c := length (objects rm)]}; data := None |}
       (new_tree rm).2).
Proof.
  intros Hn. unfold children_getitem.
  erewrite bind_Return by (by apply run_deref).
  change (children empty_tree !! c) with ((∅ : gmap string nat) !! c).
  rewrite lookup_empty.
  erewrite bind_Return by reflexivity.
  erewrite bind_Return.
  2:{ eapply run_assign. simpl. by apply lookup_app_l_Some. }
  unfold ret, with_children. simpl. by rewrite insert_empty.
Qed.

(** Descending from a tree object without children creates a chain. *)
Lemma descend_fresh cs cur rm :
  objects rm !! cur = Some empty_tree →
  ∃ b rm',
    descend cs cur rm = (Return b, rm')
    ∧ chain rm' cur cs b
    ∧ objects rm' !! b = Some empty_tree
    ∧ _plain_routes rm' = _plain_routes rm ∧ _tree rm' = _tree rm
    ∧ (length (objects rm) ≤ length (objects rm'))%nat
    ∧ ∀ a, a < length (objects rm) → a ≠ cur →
           objects rm' !! a = objects rm !! a.
Proof.
  revert cur rm. induction cs as [|c cs IH]; intros cur rm Hcur.
  { exists cur, rm. by repeat split. }
  rewrite descend_cons, (run_children_getitem_fresh _ _ _ Hcur).
  set (b0 := length (objects rm)).
  set (rm1 := store_set cur _ _).
  assert (cur < b0) as Hlt by (by eapply lookup_lt_Some).
  assert (length (objects rm1) = S b0) as Hlen.
  { unfold rm1. simpl. rewrite length_insert, length_app. simpl. lia. }
  assert (objects rm1 !! b0 = Some empty_tree) as Hb0.
  { unfold rm1. rewrite lookup_store_set_ne by lia. apply lookup_new_tree. }
  destruct (IH b0 rm1 Hb0) as (b & rm' & Hd & Hchain & Hb & Hp & Ht & Hle & Hfr).
  exists b, rm'. split; [done|]. split.
  { exists b0. split; [|done]. rewrite Hfr by lia.
    unfold rm1. eapply lookup_store_set. simpl. by apply lookup_app_l_Some. }
  split; [done|]. split; [by rewrite Hp|]. split; [by rewrite Ht|].
  split; [lia|]. intros a Ha Hne. rewrite Hfr by lia.
  unfold rm1. rewrite lookup_store_set_ne by done. simpl.
  by apply lookup_app_l.
Qed.

(** The descent of a request along a chain. *)
Lemma traverse_chain segs reqs a b pp w :
  chain (self w) a segs b → shape_matches segs reqs = true →
  for_in reqs traverse_step (a, pp) w
  = (Return (b, (pp ++ wildcard_values segs reqs)%list), w).
Proof.
  revert reqs a pp. induction segs as [|s segs IH]; intros reqs a pp.
  { destruct reqs; [|done]. simpl. intros -> _. by rewrite app_nil_r. }
  destruct reqs as [|r reqs]; [done|].
  intros (a' & Hn & Hchain) [Hr Hrest]%andb_prop.
  rewrite for_in_cons. cbn [wildcard_values].
  destruct (decide (r = s)) as [->|Hne].
  - rewrite (traverse_step_exact _ _ _ _ _ a' Hn)
      by (simpl; apply lookup_singleton_eq).
    rewrite bool_decide_eq_true_2 by done. simpl. by apply IH.
  - rewrite bool_decide_eq_false_2 in Hr |- * by done. simpl in Hr.
    apply bool_decide_eq_true_1 in Hr as ->.
    rewrite (traverse_step_wildcard _ _ _ _ _ a' Hn);
      [|simpl; by apply lookup_singleton_ne|simpl; apply lookup_singleton_eq].
    rewrite (IH reqs a' _ Hchain Hrest). by rewrite <- app_assoc.
Qed.

(** A request of another shape falls off the chain or stops inside
    it. *)
Lemma traverse_chain_mismatch segs reqs a b nb pp w :
  chain (self w) a segs b → objects (self w) !! b = Some nb →
  children nb = ∅ →
  (∀ d, data nb = Some d → PyStr.truthy (static_path d) = false) →
  shape_matches segs reqs = false →
  for_in reqs traverse_step (a, pp) w = (Raise (Exn NotFoundException []), w)
  ∨ ∃ a' pp' n', for_in reqs traverse_step (a, pp) w = (Return (a', pp'), w)
                 ∧ objects (self w) !! a' = Some n' ∧ data n' = None.
Proof.
  intros Hchain Hb Hnb Hstatic. revert reqs a pp Hchain.
  induction segs as [|s segs IH]; intros reqs a pp.
  { destruct reqs as [|r reqs]; [done|]. cbn [chain]. intros -> _. left.
    rewrite for_in_cons.
    erewrite traverse_step_not_found; [done..| | |done].
    - rewrite Hnb. apply lookup_empty.
    - rewrite Hnb. apply lookup_empty. }
  intros (a' & Hn & Hchain).
  destruct reqs as [|r reqs].
  { intros _. right. by eexists a, pp, _. }
  cbn [shape_matches]. intros Hshape. rewrite for_in_cons.
  destruct (decide (r = s)) as [->|Hne].
  - rewrite (traverse_step_exact _ _ _ _ _ a' Hn)
      by (simpl; apply lookup_singleton_eq).
    rewrite bool_decide_eq_true_2 in Hshape by done. by apply IH.
  - rewrite (bool_decide_eq_false_2 (r = s)) in Hshape by done.
    simpl in Hshape.
    destruct (decide (s = "*")) as [->|Hstar].
    + rewrite (traverse_step_wildcard _ _ _ _ _ a' Hn);
        [|simpl; by apply lookup_singleton_ne|simpl; apply lookup_singleton_eq].
      by apply IH.
    + left. erewrite traverse_step_not_found; [done|exact Hn|..].
      * simpl. by apply lookup_singleton_ne.
      * simpl. by apply lookup_singleton_ne.
      * done.
Qed.

Lemma chain_store_set rm a segs b c nc n' :
  chain rm a segs b → objects rm !! c = Some nc → children nc = ∅ →
  chain (store_set c n' rm) a segs b.
Proof.
  intros Hchain Hc Hnc. revert a Hchain.
  induction segs as [|s segs IH]; intros a; [done|].
  intros (a' & Hn & Hchain). exists a'. split; [|by apply IH].
  rewrite lookup_store_set_ne; [done|]. intros <-.
  rewrite Hn in Hc. injection Hc as <-. simpl in Hnc.
  apply (f_equal (λ m : gmap string nat, m !! s)) in Hnc.
  by rewrite lookup_singleton_eq, lookup_empty in Hnc.
Qed.

(** The route map that a new one becomes when one route with
    parameters is added. *)
Lemma add_parameterized_route_fresh app r :
  route_path_parameters r ≠ [] → is_known_route r →
  ∃ b rm0,
    chain rm0 0 (components_of (wildcard_path r)) b
    ∧ objects rm0 !! b = Some empty_tree
    ∧ _plain_routes rm0 = ∅ ∧ _tree rm0 = 0
    ∧ add_routes app [r] __init__
      = (Return tt,
         store_set b
           (with_data
              (Some (stored_leaf app r (wildcard_path r) new_leaf_data))
              empty_tree) rm0).
Proof.
  intros Hps Hknown.
  assert (position app r = inl (components_of (wildcard_path r))) as Hpos.
  { unfold position. by rewrite bool_decide_eq_true_2. }
  assert (stored_path app r = wildcard_path r) as Hsp.
  { unfold stored_path. by rewrite bool_decide_eq_true_2. }
  destruct (descend_fresh (components_of (wildcard_path r)) 0 __init__ eq_refl)
    as (b & rm0 & Hd & Hchain & Hb & Hp & Ht & _ & _).
  exists b, rm0. split; [done|]. split; [done|]. split; [done|].
  split; [done|].
  rewrite add_routes_one, add_route_eq, locate_node_eq, Hpos.
  change (_tree __init__) with 0. rewrite Hd, Hsp.
  rewrite (store_route_eq _ _ _ _ _ _ Hb).
  change (found_leaf empty_tree) with new_leaf_data.
  change (path_parameters new_leaf_data) with (@nil (ParamDef ParamKind)).
  rewrite (bool_decide_eq_false_2 ([] ≠ [])) by (by intros ?). simpl.
  unfold is_known_route in Hknown. by destruct (route_kind r).
Qed.

Lemma answers_known r sc h : answers r sc h → is_known_route r.
Proof. unfold answers, is_known_route. by destruct (route_kind r). Qed.

(** X8: on a new route map that one route with parameters was added to
    (its path being no static path), a request whose components have
    the shape of the route's components gets the route's handler for
    its dispatch key.  The parser receives the route's parameter
    definitions and, in order, the request components that stand at the
    wildcard positions; a component that is itself [*] is taken for the
    wildcard child by name and is not among them. *)
Theorem single_route_round_trip app r sc h v :
  route_path_parameters r ≠ [] → wildcard_path r ∉ static_paths app →
  shape_matches (components_of (wildcard_path r))
                (components_of (normalized_path (scope_path sc))) = true →
  answers r sc h →
  parse_path_params (route_path_parameters r)
    (wildcard_values (components_of (wildcard_path r))
                     (components_of (normalized_path (scope_path sc))))
  = inr v →
  ∃ rm, add_routes app [r] __init__ = (Return tt, rm)
        ∧ resolve_route {| self := rm; scope := sc |}
          = (Return (build_route_middleware_stack r h),
             set_scope_path_params v {| self := rm; scope := sc |}).
Proof.
  intros Hps Hst Hshape Hans Hv.
  destruct (add_parameterized_route_fresh app r Hps (answers_known _ _ _ Hans))
    as (b & rm0 & Hchain & Hb & Hp & Ht & Hadd).
  eexists. split; [exact Hadd|].
  set (d1 := stored_leaf _ _ _ _).
  set (rm := store_set b _ rm0).
  assert (objects rm !! b = Some (with_data (Some d1) empty_tree)) as Hb'.
  { by eapply lookup_store_set. }
  rewrite resolve_route_eq. cbn [self scope]. unfold find_node.
  erewrite bind_Return by apply run_plain_routes_contains.
  cbn [self]. change (_plain_routes rm) with (_plain_routes rm0).
  rewrite Hp, (dict_contains_None (V:=nat) ∅ _) by apply lookup_empty.
  unfold _traverse_route_map. erewrite bind_Return by reflexivity.
  cbn [self]. change (_tree rm) with (_tree rm0). rewrite Ht.
  erewrite traverse_chain; [| |exact Hshape].
  2:{ cbn [self]. by eapply chain_store_set. }
  cbn [self]. rewrite Hb', app_nil_l. cbn [data with_data].
  assert (path_parameters d1 = route_path_parameters r) as ->.
  { apply stored_leaf_path_parameters. }
  rewrite Hv. cbn [scope set_scope_path_params].
  rewrite (dispatch_answers r sc h d1 Hans); [done| |].
  - intros k h' Hreg. unfold d1. rewrite stored_leaf_handlers.
    by apply registers_handler_after.
  - unfold d1. rewrite stored_leaf_is_asgi.
    by rewrite (bool_decide_eq_false_2 _ Hst).
Qed.

(** X9: on that route map, a request whose components do not have the
    shape of the route's components (too few, too many, or another
    literal somewhere) fails with [NotFoundException] and leaves the
    scope as it was. *)
Theorem single_route_rejects_other_shapes app r sc :
  route_path_parameters r ≠ [] → wildcard_path r ∉ static_paths app →
  is_known_route r →
  shape_matches (components_of (wildcard_path r))
                (components_of (normalized_path (scope_path sc))) = false →
  ∃ rm, add_routes app [r] __init__ = (Return tt, rm)
        ∧ resolve_route {| self := rm; scope := sc |}
          = (Raise (Exn NotFoundException []), {| self := rm; scope := sc |}).
Proof.
  intros Hps Hst Hknown Hshape.
  destruct (add_parameterized_route_fresh app r Hps Hknown)
    as (b & rm0 & Hchain & Hb & Hp & Ht & Hadd).
  eexists. split; [exact Hadd|].
  set (d1 := stored_leaf _ _ _ _).
  set (rm := store_set b _ rm0).
  assert (objects rm !! b = Some (with_data (Some d1) empty_tree)) as Hb'.
  { by eapply lookup_store_set. }
  rewrite resolve_route_eq. cbn [self scope]. unfold find_node.
  erewrite bind_Return by apply run_plain_routes_contains.
  cbn [self]. change (_plain_routes rm) with (_plain_routes rm0).
  rewrite Hp, (dict_contains_None (V:=nat) ∅ _) by apply lookup_empty.
  unfold _traverse_route_map. erewrite bind_Return by reflexivity.
  cbn [self]. change (_tree rm) with (_tree rm0). rewrite Ht.
  destruct (traverse_chain_mismatch
              (components_of (wildcard_path r))
              (components_of (normalized_path (scope_path sc)))
              0 b (with_data (Some d1) empty_tree) []
              {| self := rm; scope := sc |})
    as [->|(a' & pp' & n' & -> & Hn' & Hd')]; try done.
  - cbn [self]. by eapply chain_store_set.
  - simpl. intros d [= <-]. unfold d1. rewrite stored_leaf_static_path.
    by rewrite (bool_decide_eq_false_2 _ Hst).
  - cbn [self] in *. by rewrite Hn', Hd'.
Qed.

End SingleRoute.

(** ** More on mounts *)

Section ReplaceFacts.
Implicit Types (s t old new : string).






End ReplaceFacts.

Section MountsMore.
Context `{Collaborators}.
Implicit Types (w : World) (rm : PythonRouteMap) (cur a b : ref).




End MountsMore.

(** ** The route middleware stack *)

Section MiddlewareStack.
Context {Endpoint ExceptionHandlers Cls Options Factory : Type}.

Lemma layers_fold_middleware
    (ms : list (@App.Middleware Cls Options Factory))
    (app : @App.asgi_stack Endpoint ExceptionHandlers Cls Options Factory) :
  App.layers
    (fold_left
       (λ asgi_handler m,
          match m with
          | App.StarletteMiddleware cls options =>
              App.StarletteInstance cls asgi_handler options
          | App.MiddlewareFactory factory =>
              App.FactoryInstance factory asgi_handler
          end) ms app)
  = (rev (App.MiddlewareLayer <$> ms) ++ App.layers app)%list
  ∧ App.endpoint_of
      (fold_left
         (λ asgi_handler m,
            match m with
            | App.StarletteMiddleware cls options =>
                App.StarletteInstance cls asgi_handler options
            | App.MiddlewareFactory factory =>
                App.FactoryInstance factory asgi_handler
            end) ms app)
    = App.endpoint_of app.
Proof.
  revert app. induction ms as [|m ms IH]; intros app; [done|].
  cbn [fold_left]. destruct (IH (match m with
                                 | App.StarletteMiddleware cls options =>
                                     App.StarletteInstance cls app options
                                 | App.MiddlewareFactory factory =>
                                     App.FactoryInstance factory app
                                 end)) as [-> ->].
  rewrite fmap_cons. cbn [rev]. rewrite <- app_assoc.
  by destruct m.
Qed.

(** X12: the application [build_route_middleware_stack] returns for a
    route is [route.handle] under two [ExceptionHandlerMiddleware]
    layers, both with the exception handlers of the route handler and
    the [debug] flag of the application, one outermost and one
    innermost, with the route handler's middleware between them: the
    middleware resolved last is the outer one, the one resolved first
    wraps the inner exception layer. *)
Theorem route_middleware_stack_layers (self : App.Starlite)
    (route_handle : Endpoint)
    (route_handler : @App.RouteHandler ExceptionHandlers Cls Options Factory) :
  App.layers (App.build_route_middleware_stack self route_handle route_handler)
  = (App.ExceptionLayer (App.resolve_exception_handlers route_handler)
                        (App.debug self)
     :: rev (App.MiddlewareLayer <$> App.resolve_middleware route_handler)
     ++ [App.ExceptionLayer (App.resolve_exception_handlers route_handler)
                            (App.debug self)])%list
  ∧ App.endpoint_of
      (App.build_route_middleware_stack self route_handle route_handler)
    = route_handle.
Proof.
  unfold App.build_route_middleware_stack, App.wrap_in_exception_handler.
  cbn [App.layers App.endpoint_of].
  by destruct (layers_fold_middleware (App.resolve_middleware route_handler)
                 (App.ExceptionHandlerMiddleware (App.Handle route_handle)
                    (App.resolve_exception_handlers route_handler)
                    (App.debug self))) as [-> ->].
Qed.

End MiddlewareStack.

(** ** What registration does to the leaves *)

Section Leaves.
Context `{Collaborators}.
Implicit Types (rm : PythonRouteMap) (cur a b : ref) (n : _RouteMapTree).
Implicit Types (d : _RouteMapLeafData) (route : BaseRoute Handler ParamKind).

Lemma leaf_new_tree rm a : leaf (new_tree rm).2 a = leaf rm a.
Proof.
  unfold leaf. simpl.
  destruct (decide (a < length (objects rm))) as [Hlt|Hge].
  - by rewrite lookup_app_l.
  - rewrite lookup_app_r by lia. rewrite (lookup_ge_None_2 (objects rm)) by lia.
    by destruct (a - length (objects rm)) as [|[|?]].
Qed.

Lemma leaf_store_set_ne cur n rm a :
  a ≠ cur → leaf (store_set cur n rm) a = leaf rm a.
Proof. intros Hne. unfold leaf. by rewrite lookup_store_set_ne. Qed.

Lemma children_getitem_leaf cur k rm o rm' a :
  children_getitem cur k rm = (o, rm') → leaf rm' a = leaf rm a.
Proof.
  unfold children_getitem, bind at 1, deref.
  destruct (objects rm !! cur) as [n|] eqn:Hn; [|by intros [= <- <-]].
  destruct (children n !! k) as [b|] eqn:Hk; [by intros [= <- <-]|].
  erewrite bind_Return by reflexivity.
  assert (objects (new_tree rm).2 !! cur = Some n) as Hn'.
  { simpl. by apply lookup_app_l_Some. }
  erewrite bind_Return by (by eapply run_assign). intros [= <- <-].
  rewrite <- (leaf_new_tree rm a).
  destruct (decide (a = cur)) as [->|Hne].
  - rewrite (leaf_store_set _ _ _ _ Hn'). unfold leaf. by rewrite Hn'.
  - by apply leaf_store_set_ne.
Qed.

Lemma descend_leaf cs cur rm o rm' a :
  descend cs cur rm = (o, rm') → leaf rm' a = leaf rm a.
Proof.
  revert cur rm. induction cs as [|c cs IH]; intros cur rm.
  { by intros [= <- <-]. }
  rewrite descend_cons.
  destruct (children_getitem cur c rm) as [o1 rm1] eqn:Hget.
  apply (children_getitem_leaf _ _ _ _ _ a) in Hget. rewrite <- Hget.
  destruct o1 as [b|e|]; [by apply IH|by intros [= <- <-]..].
Qed.

Lemma plain_routes_getitem_leaf p rm o rm' a :
  plain_routes_getitem p rm = (o, rm') → leaf rm' a = leaf rm a.
Proof.
  unfold plain_routes_getitem. erewrite bind_Return by reflexivity.
  destruct (_plain_routes rm !! p) as [b|]; [by intros [= <- <-]|].
  erewrite bind_Return by reflexivity.
  erewrite bind_Return by reflexivity.
  erewrite bind_Return by reflexivity.
  intros [= <- <-]. apply leaf_new_tree.
Qed.

Lemma locate_node_leaf app route rm o rm' a :
  locate_node app route rm = (o, rm') → leaf rm' a = leaf rm a.
Proof.
  rewrite locate_node_eq. destruct (position app route) as [cs|p].
  - destruct (descend cs (_tree rm) rm) as [o1 rm1] eqn:Hd.
    apply (descend_leaf _ _ _ _ _ a) in Hd.
    by destruct o1; intros [= <- <-].
  - destruct (plain_routes_getitem p rm) as [o1 rm1] eqn:Hg.
    apply (plain_routes_getitem_leaf _ _ _ _ a) in Hg.
    by destruct o1; intros [= <- <-].
Qed.

(** [store_route] writes the leaf of its tree object and no other. *)
Lemma store_route_leaf app route cur path rm o rm' a d' :
  store_route app route cur path rm = (o, rm') →
  leaf rm' a = Some d' →
  leaf rm a = Some d'
  ∨ a = cur
    ∧ d' = stored_leaf app route path (default new_leaf_data (leaf rm cur)).
Proof.
  destruct (objects rm !! cur) as [n|] eqn:Hn.
  2:{ rewrite store_route_dangling by done. intros [= <- <-]. auto. }
  rewrite (store_route_eq _ _ _ _ _ _ Hn).
  destruct (_ && _); [intros [= <- <-]; auto|].
  intros [= <- <-]. destruct (decide (a = cur)) as [->|Hne].
  - rewrite (leaf_store_set _ _ _ _ Hn). simpl. intros [= <-]. right.
    split; [done|]. unfold found_leaf, leaf. by rewrite Hn.
  - rewrite leaf_store_set_ne by done. auto.
Qed.

Lemma add_route_leaf app route rm o rm' a d' :
  add_route app route rm = (o, rm') →
  leaf rm' a = Some d' →
  leaf rm a = Some d'
  ∨ ∃ path, d' = stored_leaf app route path (default new_leaf_data (leaf rm a)).
Proof.
  rewrite add_route_eq.
  destruct (locate_node app route rm) as [o1 rm0] eqn:Hloc.
  assert (∀ c, leaf rm0 c = leaf rm c) as Hleaf.
  { intros c. by eapply locate_node_leaf. }
  destruct o1 as [[cur path]|e|].
  - intros Hs Hd'.
    destruct (store_route_leaf _ _ _ _ _ _ _ _ _ Hs Hd') as [Hold|[-> ->]].
    + left. by rewrite <- Hleaf.
    + right. exists path. by rewrite Hleaf.
  - intros [= <- <-]. rewrite Hleaf. auto.
  - intros [= <- <-]. rewrite Hleaf. auto.
Qed.

(** A property of leaves that [stored_leaf] keeps holds of every leaf
    of a route map built by [add_routes]. *)
Lemma built_leaf_invariant (P : _RouteMapLeafData → Prop) :
  P new_leaf_data →
  (∀ app route path d0, P d0 → P (stored_leaf app route path d0)) →
  ∀ rm, built rm → ∀ a d, leaf rm a = Some d → P d.
Proof.
  intros Hnew Hstep rm Hbuilt.
  induction Hbuilt as [|app routes rm o rm' _ IH Hadd].
  { intros [|[|a]] d; done. }
  revert rm IH Hadd. induction routes as [|route routes IHr]; intros rm IH.
  { by intros [= <- <-]. }
  rewrite add_routes_cons.
  destruct (add_route app route rm) as [o1 rm1] eqn:Hadd1.
  assert (∀ a d, leaf rm1 a = Some d → P d) as IH1.
  { intros a d Hd.
    destruct (add_route_leaf _ _ _ _ _ _ _ Hadd1 Hd) as [Hold|[path ->]].
    - by eapply IH.
    - apply Hstep. destruct (leaf rm a) as [d0|] eqn:Hd0; simpl; eauto. }
  destruct o1 as [[]|e|]; [by apply IHr|by intros [= <- <-]..].
Qed.

(** X13: in a route map built by [add_routes], a leaf with a static
    path is a mount: where the descent absorbs request components, the
    handler is looked up under the [ASGI] key, whatever the scope's type
    and method. *)
Theorem built_static_leaves_are_mounts rm a d :
  built rm → leaf rm a = Some d →
  PyStr.truthy (static_path d) = true →
  is_asgi d = true
  ∧ ∀ ty method,
      dispatch d ty method
      = match asgi_handlers d !! ScopeType_ASGI with
        | Some app => Return app
        | None => Raise (Exn KeyError [ScopeType_ASGI])
        end.
Proof.
  intros Hbuilt Hd Hst.
  assert (is_asgi d = true) as Hasgi.
  { revert Hst.
    apply (built_leaf_invariant
             (λ d, PyStr.truthy (static_path d) = true → is_asgi d = true))
      with (rm := rm) (a := a); [done| |done..].
    intros app route path d0 IH.
    rewrite stored_leaf_static_path, stored_leaf_is_asgi.
    destruct (bool_decide (path ∈ static_paths app)).
    - intros _. by rewrite orb_true_r.
    - intros Hd0. by rewrite (IH Hd0). }
  split; [done|]. intros ty method. unfold dispatch. by rewrite Hasgi.
Qed.

End Leaves.

(** ** Plain routes keep their tree objects to themselves *)

Section Separation.
Context `{Collaborators}.
Implicit Types (rm : PythonRouteMap) (cur a b : ref) (n : _RouteMapTree).
Implicit Types (d : _RouteMapLeafData) (route : BaseRoute Handler ParamKind).

Lemma plain_separate_init : plain_separate __init__.
Proof. intros p b Hp. done. Qed.

Lemma plain_separate_new_tree rm :
  plain_separate rm → plain_separate (new_tree rm).2.
Proof.
  intros Hsep p b Hp. destruct (Hsep p b Hp) as (Hroot & Hchild & Hinj).
  split; [done|]. split; [|done].
  intros a n k Ha. simpl in Ha.
  apply lookup_app_Some in Ha as [Ha|[_ Ha]]; [by eapply Hchild|].
  destruct (a - length (objects rm)) as [|i]; [|done].
  injection Ha as <-. done.
Qed.

Lemma plain_separate_store_set a n' rm :
  plain_separate rm →
  (∀ p b k, _plain_routes rm !! p = Some b → children n' !! k ≠ Some b) →
  plain_separate (store_set a n' rm).
Proof.
  intros Hsep Hn' p b Hp. destruct (Hsep p b Hp) as (Hroot & Hchild & Hinj).
  split; [done|]. split; [|done].
  intros c nc k Hc. simpl in Hc.
  destruct (decide (a = c)) as [<-|Hne].
  - apply list_lookup_insert_Some in Hc as [(_ & <- & _)|[? _]]; [|done].
    by eapply Hn'.
  - rewrite list_lookup_insert_ne in Hc by done. by eapply Hchild.
Qed.

Lemma children_getitem_separate cur k rm o rm' :
  well_formed rm → plain_separate rm →
  children_getitem cur k rm = (o, rm') → plain_separate rm'.
Proof.
  intros Hwf Hsep. unfold children_getitem, bind at 1, deref.
  destruct (objects rm !! cur) as [n|] eqn:Hn; [|by intros [= <- <-]].
  destruct (children n !! k) as [b|] eqn:Hk; [by intros [= <- <-]|].
  erewrite bind_Return by reflexivity.
  assert (objects (new_tree rm).2 !! cur = Some n) as Hn'.
  { simpl. by apply lookup_app_l_Some. }
  erewrite bind_Return by (by eapply run_assign). intros [= <- <-].
  apply plain_separate_store_set; [by apply plain_separate_new_tree|].
  simpl. intros p b k' Hp. destruct (decide (k = k')) as [<-|Hne].
  - rewrite lookup_insert_eq. intros [= <-].
    destruct Hwf as (_ & _ & Hpl). specialize (Hpl p _ Hp). lia.
  - rewrite lookup_insert_ne by done.
    destruct (Hsep p b Hp) as (_ & Hchild & _). by eapply Hchild.
Qed.

Lemma descend_separate cs cur rm o rm' :
  well_formed rm → plain_separate rm → cur < length (objects rm) →
  descend cs cur rm = (o, rm') → well_formed rm' ∧ plain_separate rm'.
Proof.
  revert cur rm. induction cs as [|c cs IH]; intros cur rm Hwf Hsep Hcur.
  { by intros [= <- <-]. }
  rewrite descend_cons.
  destruct (children_getitem_well_formed cur c rm Hwf Hcur)
    as (b1 & rm1 & Hget & Hwf1 & Hb1).
  rewrite Hget. apply children_getitem_separate in Hget; [|done..].
  by apply IH.
Qed.

Lemma plain_routes_getitem_separate p rm o rm' :
  well_formed rm → plain_separate rm →
  plain_routes_getitem p rm = (o, rm') → plain_separate rm'.
Proof.
  intros (Ht & Hc & Hpl) Hsep. unfold plain_routes_getitem.
  erewrite bind_Return by reflexivity.
  destruct (_plain_routes rm !! p) as [b|] eqn:Hp; [by intros [= <- <-]|].
  erewrite bind_Return by reflexivity.
  erewrite bind_Return by reflexivity.
  erewrite bind_Return by reflexivity.
  intros [= <- <-]. intros q b. simpl.
  assert (∀ a n k, (objects rm ++ [empty_tree])%list !! a = Some n →
                   children n !! k = Some b → b < length (objects rm)) as Hc'.
  { intros a n k Ha Hk. apply lookup_app_Some in Ha as [Ha|[_ Ha]]; [eauto|].
    destruct (a - length (objects rm)) as [|i]; [|done].
    injection Ha as <-. done. }
  destruct (decide (p = q)) as [<-|Hne].
  - rewrite lookup_insert_eq. intros [= <-]. split; [lia|]. split.
    + intros a n k Ha Hk. specialize (Hc' a n k Ha Hk). lia.
    + intros q. destruct (decide (p = q)) as [<-|Hne]; [done|].
      rewrite lookup_insert_ne by done. intros Hq.
      specialize (Hpl q _ Hq). lia.
  - rewrite lookup_insert_ne by done. intros Hq.
    destruct (Hsep q b Hq) as (Hroot & Hchild & Hinj).
    split; [done|]. split.
    + intros a n k Ha. apply lookup_app_Some in Ha as [Ha|[_ Ha]].
      * by eapply Hchild.
      * destruct (a - length (objects rm)) as [|i]; [|done].
        injection Ha as <-. done.
    + intros q'. destruct (decide (p = q')) as [<-|Hne'].
      * rewrite lookup_insert_eq. intros [= <-].
        specialize (Hpl q _ Hq). lia.
      * rewrite lookup_insert_ne by done. apply Hinj.
Qed.

Lemma locate_node_separate app route rm o rm' :
  well_formed rm → plain_separate rm →
  locate_node app route rm = (o, rm') → plain_separate rm'.
Proof.
  intros Hwf Hsep. rewrite locate_node_eq.
  destruct (position app route) as [cs|p].
  - destruct (descend cs (_tree rm) rm) as [o1 rm1] eqn:Hd.
    apply descend_separate in Hd as [_ Hsep1]; [|done|done|by destruct Hwf].
    by destruct o1; intros [= <- <-].
  - destruct (plain_routes_getitem p rm) as [o1 rm1] eqn:Hg.
    apply plain_routes_getitem_separate in Hg; [|done..].
    by destruct o1; intros [= <- <-].
Qed.

Lemma store_route_separate app route cur path rm o rm' :
  plain_separate rm →
  store_route app route cur path rm = (o, rm') → plain_separate rm'.
Proof.
  intros Hsep. destruct (objects rm !! cur) as [n|] eqn:Hn.
  2:{ rewrite store_route_dangling by done. by intros [= <- <-]. }
  rewrite (store_route_eq _ _ _ _ _ _ Hn).
  destruct (_ && _); [by intros [= <- <-]|]. intros [= <- <-].
  apply plain_separate_store_set; [done|]. simpl. intros p b k Hp.
  destruct (Hsep p b Hp) as (_ & Hchild & _). by eapply Hchild.
Qed.

Lemma add_route_separate app route rm o rm' :
  well_formed rm → plain_separate rm →
  add_route app route rm = (o, rm') → plain_separate rm'.
Proof.
  intros Hwf Hsep. rewrite add_route_eq.
  destruct (locate_node app route rm) as [o1 rm0] eqn:Hloc.
  apply locate_node_separate in Hloc; [|done..].
  destruct o1 as [[cur path]|e|]; [|by intros [= <- <-]..].
  by apply store_route_separate.
Qed.

Lemma add_routes_separate app routes rm o rm' :
  well_formed rm → plain_separate rm →
  add_routes app routes rm = (o, rm') → plain_separate rm'.
Proof.
  revert rm. induction routes as [|route routes IH]; intros rm Hwf Hsep.
  { by intros [= <- <-]. }
  rewrite add_routes_cons.
  destruct (add_route app route rm) as [o1 rm1] eqn:Hadd.
  pose proof (add_route_separate _ _ _ _ _ Hwf Hsep Hadd) as Hsep1.
  apply add_route_well_formed in Hadd as [Hwf1 _]; [|done].
  destruct o1 as [[]|e|]; [by apply IH|by intros [= <- <-]..].
Qed.

Lemma built_separate rm : built rm → plain_separate rm.
Proof.
  induction 1 as [|app routes rm o rm' Hb IH Hadd].
  - apply plain_separate_init.
  - eapply add_routes_separate; [by apply built_well_formed|done..].
Qed.

(** The tree object a descent ends at is where it started or a child of
    some tree object. *)
Lemma descend_target cs cur rm b rm' :
  descend cs cur rm = (Return b, rm') →
  b = cur ∨ ∃ a n k, objects rm' !! a = Some n ∧ children n !! k = Some b.
Proof.
  revert cur rm. induction cs as [|c cs IH]; intros cur rm.
  { intros [= <- <-]. by left. }
  rewrite descend_cons.
  destruct (children_getitem cur c rm) as [[b1|e|] rm1] eqn:Hget; [|done..].
  intros Hd. right.
  destruct (IH _ _ Hd) as [->|?]; [|done].
  apply children_getitem_inv in Hget as [_ Hchild]. unfold child in Hchild.
  destruct (objects rm1 !! cur) as [n1|] eqn:Hn1; [|done]. simpl in Hchild.
  apply descend_extends in Hd as (_ & _ & Hobj).
  destruct (Hobj _ _ Hn1) as (n' & Hn' & Hsub).
  exists cur, n', c. split; [done|]. by eapply lookup_weaken.
Qed.

(** A route stored elsewhere leaves a plain route's entry and leaf as
    they are. *)
Lemma add_route_elsewhere app route rm o rm' p b :
  well_formed rm → plain_separate rm →
  _plain_routes rm !! p = Some b → position app route ≠ inr p →
  add_route app route rm = (o, rm') →
  _plain_routes rm' !! p = Some b ∧ leaf rm' b = leaf rm b.
Proof.
  intros Hwf Hsep Hp Hpos Hadd. split.
  { apply add_route_grows in Hadd as (_ & Hsub & _). by eapply lookup_weaken. }
  revert Hadd. rewrite add_route_eq.
  destruct (locate_node app route rm) as [o1 rm0] eqn:Hloc.
  pose proof (locate_node_separate _ _ _ _ _ Hwf Hsep Hloc) as Hsep0.
  pose proof (locate_node_leaf _ _ _ _ _ b Hloc) as Hleaf.
  pose proof (locate_node_extends _ _ _ _ _ Hloc) as (Hroot & Hsub & _).
  pose proof (lookup_weaken _ _ _ _ Hp Hsub) as Hp0.
  destruct (Hsep0 p b Hp0) as (Hnroot & Hnchild & Hinj).
  destruct o1 as [[cur path]|e|]; [|by intros [= <- <-]..].
  assert (cur ≠ b) as Hne.
  { revert Hloc. rewrite locate_node_eq.
    destruct (position app route) as [cs|q].
    - destruct (descend cs (_tree rm) rm) as [[c|e|] rm1] eqn:Hd; [|done..].
      intros [= -> _ ->].
      destruct (descend_target _ _ _ _ _ Hd) as [->|(a & n & k & Ha & Hk)].
      + by rewrite <- Hroot.
      + intros ->. by eapply Hnchild.
    - destruct (plain_routes_getitem q rm) as [o1 rm1] eqn:Hg.
      apply plain_routes_getitem_inv in Hg as [_ (c & -> & Hq & _)].
      intros [= -> _ ->] ->. apply Hpos. f_equal. by apply Hinj. }
  intros Hs. rewrite <- Hleaf.
  destruct (objects rm0 !! cur) as [n|] eqn:Hn.
  2:{ rewrite store_route_dangling in Hs by done. by injection Hs as _ <-. }
  rewrite (store_route_eq _ _ _ _ _ _ Hn) in Hs.
  destruct (_ && _); [by injection Hs as _ <-|]. injection Hs as _ <-.
  by apply leaf_store_set_ne.
Qed.

Lemma add_routes_elsewhere app routes rm o rm' p b :
  well_formed rm → plain_separate rm →
  _plain_routes rm !! p = Some b →
  Forall (λ route, position app route ≠ inr p) routes →
  add_routes app routes rm = (o, rm') →
  _plain_routes rm' !! p = Some b ∧ leaf rm' b = leaf rm b.
Proof.
  revert rm. induction routes as [|route routes IH]; intros rm Hwf Hsep Hp Hall.
  { by intros [= <- <-]. }
  apply Forall_cons in Hall as [Hpos Hall]. rewrite add_routes_cons.
  destruct (add_route app route rm) as [o1 rm1] eqn:Hadd.
  destruct (add_route_elsewhere _ _ _ _ _ _ _ Hwf Hsep Hp Hpos Hadd)
    as [Hp1 Hleaf1].
  pose proof (add_route_separate _ _ _ _ _ Hwf Hsep Hadd) as Hsep1.
  apply add_route_well_formed in Hadd as [Hwf1 _]; [|done].
  destruct o1 as [[]|e|]; [|by intros [= <- <-]..].
  intros Hadds. rewrite <- Hleaf1. by apply IH.
Qed.

(** Resolution of a path that is a plain route, by the leaf of its tree
    object. *)
Lemma resolve_route_plain_leaf rm sc b :
  _plain_routes rm !! normalized_path (scope_path sc) = Some b →
  is_Some (objects rm !! b) →
  let w := {| self := rm; scope := sc |} in
  resolve_route w
  = match leaf rm b with
    | None => (Raise (Exn NotFoundException []), w)
    | Some d =>
        match parse_path_params (path_parameters d) [] with
        | inl e => (except_KeyError (Raise e), w)
        | inr v =>
            (except_KeyError (dispatch d (scope_type sc) (scope_method sc)),
             set_scope_path_params v w)
        end
    end.
Proof.
  intros Hb [n Hn] w. rewrite resolve_route_eq. simpl.
  unfold find_node.
  erewrite bind_Return by apply run_plain_routes_contains.
  simpl. rewrite (dict_contains_Some _ _ _ Hb).
  erewrite bind_Return by (by apply run_plain_routes_getitem).
  simpl. unfold leaf. rewrite Hn. simpl. by destruct (data n).
Qed.

(** X14: in a route map built by [add_routes], registering further
    routes, none of them at the plain path [p], changes nothing for a
    request whose normalized path is [p]: the same outcome and the same
    scope as before, whether the further registrations returned or
    raised. *)
Theorem routes_elsewhere_leave_a_plain_route_alone app routes rm o rm' sc :
  built rm →
  is_Some (_plain_routes rm !! normalized_path (scope_path sc)) →
  Forall (λ route,
            position app route ≠ inr (normalized_path (scope_path sc))) routes →
  add_routes app routes rm = (o, rm') →
  (resolve_route {| self := rm'; scope := sc |}).1
  = (resolve_route {| self := rm; scope := sc |}).1
  ∧ scope (resolve_route {| self := rm'; scope := sc |}).2
    = scope (resolve_route {| self := rm; scope := sc |}).2.
Proof.
  intros Hbuilt [b Hb] Hall Hadd.
  pose proof (built_well_formed _ Hbuilt) as Hwf.
  pose proof (built_separate _ Hbuilt) as Hsep.
  destruct (add_routes_elsewhere _ _ _ _ _ _ _ Hwf Hsep Hb Hall Hadd)
    as [Hb' Hleaf].
  assert (is_Some (objects rm !! b)) as Hn.
  { apply lookup_lt_is_Some_2. destruct Hwf as (_ & _ & Hpl). eauto. }
  assert (is_Some (objects rm' !! b)) as Hn'.
  { apply lookup_lt_is_Some_2.
    apply add_routes_well_formed in Hadd as [(_ & _ & Hpl') _]; eauto. }
  rewrite (resolve_route_plain_leaf rm' sc b Hb' Hn').
  rewrite (resolve_route_plain_leaf rm sc b Hb Hn).
  rewrite Hleaf. destruct (leaf rm b) as [d|]; [|done].
  by destruct (parse_path_params _ _).
Qed.

End Separation.

(** ** The further properties on the concrete application *)

Section MoreWitnesses.
Import Example ExampleObjects MoreExamples.

Lemma router_built : built router.
Proof.
  exact (built_add_routes app [static_files; list_items; get_item; chat]
           __init__ (Return tt) router built_init
           ltac:(vm_compute; reflexivity)).
Qed.

Lemma failures_after_the_leaf_is_found_witness :
  resolve_route (request (methodless "/items"))
  = (Raise (Exn NotFoundException []),
     set_scope_path_params [] (request (methodless "/items"))).
Proof.
  exact (proj2 (proj2 (failures_after_the_leaf_is_found
                         (request (methodless "/items")) 3 []
                         (request (methodless "/items"))
                         items_node items_leaf
                         ltac:(vm_compute; reflexivity)
                         ltac:(vm_compute; reflexivity) eq_refl))
           [] eq_refl eq_refl eq_refl eq_refl).
Defined.

Lemma resolve_route_again_witness :
  resolve_route (resolve_route (request (http "/items/7" "GET"))).2
  = resolve_route (request (http "/items/7" "GET")).
Proof.
  exact (resolve_route_again (request (http "/items/7" "GET"))
           ltac:(vm_compute; reflexivity)).
Defined.

Lemma add_routes_only_adds_witness : grows __init__ router.
Proof.
  exact (add_routes_only_adds app [static_files; list_items; get_item; chat]
           __init__ (Return tt) router ltac:(vm_compute; reflexivity)).
Defined.

Lemma built_route_maps_have_no_dangling_reference_witness :
  well_formed router
  ∧ (∀ app routes, (add_routes app routes router).1 ≠ Fault)
  ∧ (∀ sc, (resolve_route (request sc)).1 ≠ Fault).
Proof.
  exact (built_route_maps_have_no_dangling_reference router
           (built_add_routes app [static_files; list_items; get_item; chat]
              __init__ (Return tt) router built_init
              ltac:(vm_compute; reflexivity))).
Defined.

Lemma plain_route_round_trip_witness :
  resolve_route {| self := (add_routes app [list_items_v2] router).2;
                   scope := http "/items/" "GET" |}
  = (Return ("/items", "list_items_v2"),
     set_scope_path_params []
       {| self := (add_routes app [list_items_v2] router).2;
          scope := http "/items/" "GET" |}).
Proof.
  exact (plain_route_round_trip app router
           (add_routes app [list_items_v2] router).2
           list_items_v2 "list_items_v2" (http "/items/" "GET") []
           eq_refl
           ltac:(vm_compute; intros Hin; discriminate Hin)
           ltac:(intros _ b d Hb Hd; vm_compute in Hb; injection Hb as <-;
                 vm_compute in Hd; injection Hd as <-; reflexivity)
           ltac:(vm_compute; reflexivity)
           ltac:(vm_compute; reflexivity)
           ltac:(split; [reflexivity|]; exists "GET"; split;
                 [reflexivity|vm_compute; reflexivity])
           eq_refl).
Defined.

Lemma unknown_route_type_is_rejected_late_witness :
  ∃ rm' b,
    add_routes app [legacy; chat] __init__
    = (Raise (Exn ImproperlyConfiguredException
                  ["Unknown route type LegacyRoute)"]), rm')
    ∧ _plain_routes rm' = <[ "/legacy" := b ]> (_plain_routes __init__)
    ∧ leaf rm' b = Some new_leaf_data
    ∧ (resolve_route {| self := rm'; scope := http "/legacy" "GET" |}).1
      = Raise (Exn MethodNotAllowedException []).
Proof.
  exact (unknown_route_type_is_rejected_late app __init__ legacy
           "LegacyRoute" [chat] (http "/legacy" "GET") "GET" []
           eq_refl eq_refl
           ltac:(vm_compute; intros Hin; discriminate Hin)
           ltac:(vm_compute; reflexivity)
           ltac:(vm_compute; reflexivity)
           eq_refl eq_refl eq_refl).
Defined.

Lemma single_route_round_trip_witness :
  ∃ rm, add_routes app [get_item] __init__ = (Return tt, rm)
        ∧ resolve_route {| self := rm; scope := http "/items/7" "GET" |}
          = (Return ("/items/{id:int}", "get_item"),
             set_scope_path_params [("id", "7")]
               {| self := rm; scope := http "/items/7" "GET" |}).
Proof.
  exact (single_route_round_trip app get_item (http "/items/7" "GET")
           "get_item" [("id", "7")]
           ltac:(discriminate)
           ltac:(vm_compute; intros Hin; discriminate Hin)
           ltac:(vm_compute; reflexivity)
           ltac:(split; [reflexivity|]; exists "GET"; split;
                 [reflexivity|vm_compute; reflexivity])
           ltac:(vm_compute; reflexivity)).
Defined.

Lemma single_route_rejects_other_shapes_witness :
  ∃ rm, add_routes app [get_item] __init__ = (Return tt, rm)
        ∧ resolve_route {| self := rm; scope := http "/items/7/owner" "GET" |}
          = (Raise (Exn NotFoundException []),
             {| self := rm; scope := http "/items/7/owner" "GET" |}).
Proof.
  exact (single_route_rejects_other_shapes app get_item
           (http "/items/7/owner" "GET")
           ltac:(discriminate)
           ltac:(vm_compute; intros Hin; discriminate Hin)
           I
           ltac:(vm_compute; reflexivity)).
Defined.



Lemma built_static_leaves_are_mounts_witness :
  is_asgi static_leaf = true
  ∧ ∀ ty method,
      dispatch static_leaf ty method = Return ("/static", "static_files").
Proof.
  exact (built_static_leaves_are_mounts router 2 static_leaf
           router_built ltac:(vm_compute; reflexivity) eq_refl).
Defined.

Lemma routes_elsewhere_leave_a_plain_route_alone_witness :
  (resolve_route {| self := (add_routes app [a_x; index; a_y] router).2;
                    scope := http "/items" "GET" |}).1
  = (resolve_route (request (http "/items" "GET"))).1
  ∧ scope (resolve_route
             {| self := (add_routes app [a_x; index; a_y] router).2;
                scope := http "/items" "GET" |}).2
    = scope (resolve_route (request (http "/items" "GET"))).2.
Proof.
  exact (routes_elsewhere_leave_a_plain_route_alone app [a_x; index; a_y]
           router
           (add_routes app [a_x; index; a_y] router).1
           (add_routes app [a_x; index; a_y] router).2
           (http "/items" "GET")
           router_built
           ltac:(exists 3; vm_compute; reflexivity)
           ltac:(repeat constructor; vm_compute; discriminate)
           ltac:(vm_compute; reflexivity)).
Defined.

End MoreWitnesses.
